(** * docker/swarm: expression matcher, container configuration, container
      lookup and node registration

    A shallow embedding of
      - [scheduler/filter/expr.go]  ([parseExprs], [expr.Match]),
      - [cluster/config.go]         ([parseEnv], [ConsolidateResourceFields],
                                     [BuildContainerConfig], [extractExprs],
                                     [SwarmID], [SetSwarmID], [Affinities],
                                     [Constraints], [AddAffinity],
                                     [RemoveAffinity], [AddConstraint],
                                     [HaveNodeConstraint],
                                     [HasReschedulePolicy], [Validate]),
      - [cluster/container.go]      ([Containers.Get]) and the earlier
        cluster coordinator kept in the same file ([NewCluster],
        [assignVirtualId], [refreshContainers], [Cluster.AddNode],
        [Cluster.Containers], [Cluster.Container], [Cluster.Nodes],
        [Cluster.Node]),
    together with the properties of these functions.

    Go strings are byte strings ([string]); Go maps with string keys are
    [gmap string _]; a Go [error] result is a sum or an [option]. *)

From Stdlib Require Import ZArith NArith Lia Bool List Ascii String.
From stdpp Require Import base option list strings gmap.

Import ListNotations.
Local Open Scope string_scope.
Local Open Scope list_scope.

(** ** The Go [strings] package, as far as the sources use it *)

Module GoStrings.

(** [strings.HasPrefix(s, prefix)] *)
Fixpoint HasPrefix (s prefix : string) {struct prefix} : bool :=
  match prefix, s with
  | EmptyString, _ => true
  | String p prefix', String c s' => Ascii.eqb p c && HasPrefix s' prefix'
  | String _ _, EmptyString => false
  end.

(** [s[n:]] for [n <= len(s)] *)
Fixpoint drop (n : nat) (s : string) : string :=
  match n, s with
  | O, _ => s
  | S n', String _ s' => drop n' s'
  | S _, EmptyString => EmptyString
  end.

(** [s[:n]] for [n <= len(s)] *)
Fixpoint take (n : nat) (s : string) : string :=
  match n, s with
  | S n', String c s' => String c (take n' s')
  | _, _ => EmptyString
  end.

(** [strings.TrimPrefix(s, prefix)] *)
Definition TrimPrefix (s prefix : string) : string :=
  if HasPrefix s prefix then drop (String.length prefix) s else s.

(** [strings.Index(s, substr)]: the first index of [substr] in [s]. *)
Fixpoint Index (s substr : string) : option nat :=
  if HasPrefix s substr then Some O
  else match s with
       | EmptyString => None
       | String _ s' => option_map S (Index s' substr)
       end.

(** [strings.Contains(s, substr)] *)
Definition Contains (s substr : string) : bool :=
  match Index s substr with Some _ => true | None => false end.

(** [strings.SplitN(s, sep, 2)] for a non-empty separator: at most two
    parts, cut at the first occurrence of [sep]. *)
Definition SplitN2 (s sep : string) : list string :=
  match Index s sep with
  | Some i => [take i s; drop (i + String.length sep) s]
  | None => [s]
  end.

Definition lower_ascii (c : ascii) : ascii :=
  let n := N_of_ascii c in
  if ((65 <=? n) && (n <=? 90))%N then ascii_of_N (n + 32) else c.

(** [strings.ToLower(s)] on ASCII text (the sources apply it to keys that
    passed the key pattern only). *)
Fixpoint ToLower (s : string) : string :=
  match s with
  | EmptyString => EmptyString
  | String c s' => String (lower_ascii c) (ToLower s')
  end.

End GoStrings.

(** ** The Go [regexp] package ([regexp.MatchString])

    The sources call [regexp.MatchString(pattern, s)], which compiles
    [pattern] with the Perl flags of [regexp/syntax] and reports whether
    some substring of [s] matches.  The library is modelled here for ASCII
    patterns and ASCII texts: literals, [.], bracket classes (ranges,
    negation, escapes, Perl and POSIX classes), [* + ?] and [{n,m}] with
    their lazy forms, alternation, groups, the flag groups [(?imsU)], the
    anchors [^ $ \A \z \b \B] and the single-character escapes.  A text
    is read byte by byte and case is folded on the ASCII letters.  Unicode
    classes ([\p]), named groups, [\Q..\E] and patterns with bytes above
    127 are reported as [ErrUnsupported], an error code of the model. *)

Module regexp.

Inductive ErrorCode : Set :=
| ErrInvalidCharRange
| ErrInvalidEscape
| ErrInvalidPerlOp
| ErrInvalidRepeatOp
| ErrInvalidRepeatSize
| ErrMissingBracket
| ErrMissingParen
| ErrMissingRepeatArgument
| ErrTrailingBackslash
| ErrUnexpectedParen
| ErrUnsupported.

(** The text of [ErrorCode.String()]. *)
Definition ErrorCode_String (e : ErrorCode) : string :=
  match e with
  | ErrInvalidCharRange => "invalid character class range"
  | ErrInvalidEscape => "invalid escape sequence"
  | ErrInvalidPerlOp => "invalid or unsupported Perl syntax"
  | ErrInvalidRepeatOp => "invalid nested repetition operator"
  | ErrInvalidRepeatSize => "invalid repeat count"
  | ErrMissingBracket => "missing closing ]"
  | ErrMissingParen => "missing closing )"
  | ErrMissingRepeatArgument => "missing argument to repetition operator"
  | ErrTrailingBackslash => "trailing backslash at end of expression"
  | ErrUnexpectedParen => "unexpected )"
  | ErrUnsupported => "syntax outside the modelled fragment"
  end.

(** *** Syntax trees *)

Inductive class_item : Set :=
| Range (lo hi : N)                 (* the runes lo..hi *)
| NotIn (rs : list (N * N)).        (* a negated group such as \D *)

Inductive Regexp : Set :=
| OpEmptyMatch
| OpCharClass (negated : bool) (items : list class_item)
| OpBeginLine
| OpEndLine
| OpBeginText
| OpEndText
| OpWordBoundary
| OpNoWordBoundary
| OpConcat (r1 r2 : Regexp)
| OpAlternate (r1 r2 : Regexp)
| OpStar (r : Regexp)
| OpPlus (r : Regexp)
| OpQuest (r : Regexp)
| OpRepeat (min : nat) (max : option nat) (r : Regexp).

(** *** Matching *)

Definition in_ranges (rs : list (N * N)) (n : N) : bool :=
  existsb (fun r => (fst r <=? n)%N && (n <=? snd r)%N) rs.

Definition in_item (n : N) (i : class_item) : bool :=
  match i with
  | Range lo hi => (lo <=? n)%N && (n <=? hi)%N
  | NotIn rs => negb (in_ranges rs n)
  end.

Definition in_class (negated : bool) (items : list class_item) (c : ascii) : bool :=
  xorb negated (existsb (in_item (N_of_ascii c)) items).

Definition word_ranges : list (N * N) := [(48, 57); (65, 90); (95, 95); (97, 122)]%N.

Definition is_word (c : ascii) : bool := in_ranges word_ranges (N_of_ascii c).

(** A position in the text: the byte before it (if any) and the rest. *)
Definition position : Set := option ascii * string.

Definition word_before (p : position) : bool :=
  match fst p with Some c => is_word c | None => false end.

Definition word_after (p : position) : bool :=
  match snd p with String c _ => is_word c | EmptyString => false end.

Definition newline : ascii := ascii_of_N 10.

Definition at_begin_line (p : position) : bool :=
  match fst p with Some c => Ascii.eqb c newline | None => true end.

Definition at_end_line (p : position) : bool :=
  match snd p with String c _ => Ascii.eqb c newline | EmptyString => true end.

Definition guard (b : bool) (p : position) : list position :=
  if b then [p] else [].

(** Zero or more rounds of [step]; a round that consumes nothing adds no
    new end position and is dropped. *)
Fixpoint iterate (step : position -> list position) (fuel : nat) (p : position)
  : list position :=
  p :: match fuel with
       | O => []
       | S n =>
           flat_map (fun q => if Nat.ltb (String.length (snd q)) (String.length (snd p))
                              then iterate step n q else [])
                    (step p)
       end.

Fixpoint at_most (step : position -> list position) (n : nat) (p : position)
  : list position :=
  p :: match n with
       | O => []
       | S n' => flat_map (at_most step n') (step p)
       end.

Fixpoint exactly (step : position -> list position) (n : nat)
         (k : position -> list position) (p : position) : list position :=
  match n with
  | O => k p
  | S n' => flat_map (exactly step n' k) (step p)
  end.

(** [run r p]: the positions at which a match of [r] starting at [p] can
    end. *)
Fixpoint run (r : Regexp) (p : position) : list position :=
  match r with
  | OpEmptyMatch => [p]
  | OpCharClass negated items =>
      match snd p with
      | String c s' => if in_class negated items c then [(Some c, s')] else []
      | EmptyString => []
      end
  | OpBeginLine => guard (at_begin_line p) p
  | OpEndLine => guard (at_end_line p) p
  | OpBeginText => guard (match fst p with None => true | Some _ => false end) p
  | OpEndText => guard (match snd p with EmptyString => true | String _ _ => false end) p
  | OpWordBoundary => guard (xorb (word_before p) (word_after p)) p
  | OpNoWordBoundary => guard (negb (xorb (word_before p) (word_after p))) p
  | OpConcat r1 r2 => flat_map (run r2) (run r1 p)
  | OpAlternate r1 r2 => run r1 p ++ run r2 p
  | OpStar r1 => iterate (run r1) (String.length (snd p)) p
  | OpPlus r1 =>
      flat_map (fun q => iterate (run r1) (String.length (snd q)) q) (run r1 p)
  | OpQuest r1 => run r1 p ++ [p]
  | OpRepeat min max r1 =>
      exactly (run r1) min
              (fun q => match max with
                        | None => iterate (run r1) (String.length (snd q)) q
                        | Some mx => at_most (run r1) (mx - min) q
                        end) p
  end.

(** Unanchored search: a match may start at any position of the text. *)
Fixpoint search (r : Regexp) (prev : option ascii) (s : string) : bool :=
  match run r (prev, s) with
  | _ :: _ => true
  | [] => match s with
          | EmptyString => false
          | String c s' => search r (Some c) s'
          end
  end.

(** *** Parsing ([syntax.Parse] with the [Perl] flags) *)

Record Flags : Set :=
  mkFlags { FoldCase : bool; DotNL : bool; OneLine : bool; NonGreedy : bool }.

Definition Perl : Flags :=
  {| FoldCase := false; DotNL := false; OneLine := true; NonGreedy := false |}.

Definition code (c : ascii) : N := N_of_ascii c.

Definition between (lo hi : N) (c : ascii) : bool :=
  ((lo <=? code c) && (code c <=? hi))%N.

Definition is_digit : ascii -> bool := between 48 57.
Definition is_octal : ascii -> bool := between 48 55.

Definition isalnum (c : ascii) : bool :=
  between 48 57 c || between 65 90 c || between 97 122 c.

Definition unhex (c : ascii) : option N :=
  if between 48 57 c then Some (code c - 48)%N
  else if between 97 102 c then Some (code c - 97 + 10)%N
  else if between 65 70 c then Some (code c - 65 + 10)%N
  else None.

(** Case folding of a range of runes, on the ASCII letters. *)
Definition fold_range (r : N * N) : list (N * N) :=
  let (lo, hi) := r in
  (lo, hi)
    :: (if (N.max lo 97 <=? N.min hi 122)%N
        then [(N.max lo 97 - 32, N.min hi 122 - 32)%N] else [])
    ++ (if (N.max lo 65 <=? N.min hi 90)%N
        then [(N.max lo 65 + 32, N.min hi 90 + 32)%N] else []).

Definition fold_ranges (fl : Flags) (rs : list (N * N)) : list (N * N) :=
  if FoldCase fl then flat_map fold_range rs else rs.

(** [appendGroup]: a named group of ranges, positive or negated. *)
Definition group_items (fl : Flags) (g : bool * list (N * N)) : list class_item :=
  let rs := fold_ranges fl (snd g) in
  if fst g then map (fun r => Range (fst r) (snd r)) rs else [NotIn rs].

Definition literal (fl : Flags) (n : N) : Regexp :=
  OpCharClass false (group_items fl (true, [(n, n)])).

(** [perlGroup]: \d \s \w and their negations. *)
Definition perlGroup (c : ascii) : option (bool * list (N * N)) :=
  if Ascii.eqb c "d" then Some (true, [(48, 57)]%N)
  else if Ascii.eqb c "D" then Some (false, [(48, 57)]%N)
  else if Ascii.eqb c "s" then Some (true, [(9, 10); (12, 13); (32, 32)]%N)
  else if Ascii.eqb c "S" then Some (false, [(9, 10); (12, 13); (32, 32)]%N)
  else if Ascii.eqb c "w" then Some (true, word_ranges)
  else if Ascii.eqb c "W" then Some (false, word_ranges)
  else None.

(** [posixGroup], by the name between [[:] and [:]]. *)
Definition posixRanges (name : string) : option (list (N * N)) :=
  if String.eqb name "alnum" then Some [(48, 57); (65, 90); (97, 122)]%N
  else if String.eqb name "alpha" then Some [(65, 90); (97, 122)]%N
  else if String.eqb name "ascii" then Some [(0, 127)]%N
  else if String.eqb name "blank" then Some [(9, 9); (32, 32)]%N
  else if String.eqb name "cntrl" then Some [(0, 31); (127, 127)]%N
  else if String.eqb name "digit" then Some [(48, 57)]%N
  else if String.eqb name "graph" then Some [(33, 126)]%N
  else if String.eqb name "lower" then Some [(97, 122)]%N
  else if String.eqb name "print" then Some [(32, 126)]%N
  else if String.eqb name "punct" then Some [(33, 47); (58, 64); (91, 96); (123, 126)]%N
  else if String.eqb name "space" then Some [(9, 13); (32, 32)]%N
  else if String.eqb name "upper" then Some [(65, 90)]%N
  else if String.eqb name "word" then Some word_ranges
  else if String.eqb name "xdigit" then Some [(48, 57); (65, 70); (97, 102)]%N
  else None.

Definition posixGroup (name : string) : option (bool * list (N * N)) :=
  match name with
  | String c name' =>
      if Ascii.eqb c "^"
      then option_map (fun rs => (false, rs)) (posixRanges name')
      else option_map (fun rs => (true, rs)) (posixRanges name)
  | EmptyString => None
  end.

(** Up to [n] further octal digits. *)
Fixpoint octal (n : nat) (r : N) (t : string) : N * string :=
  match n, t with
  | S n', String c t' =>
      if is_octal c then octal n' (r * 8 + (code c - 48))%N t' else (r, t)
  | _, _ => (r, t)
  end.

(** The digits of [\x{...}], up to the closing brace. *)
Fixpoint hex_braced (t : string) (nhex : nat) (r : N) : option (N * string) :=
  match t with
  | EmptyString => None
  | String c t' =>
      if Ascii.eqb c "}" then (if Nat.eqb nhex 0 then None else Some (r, t'))
      else match unhex c with
           | None => None
           | Some v =>
               let r' := (r * 16 + v)%N in
               if (1114111 <? r')%N then None else hex_braced t' (S nhex) r'
           end
  end.

(** [parseEscape]: [t] is the text after the backslash. *)
Definition parseEscape (t : string) : ErrorCode + (N * string) :=
  match t with
  | EmptyString => inl ErrTrailingBackslash
  | String c t' =>
      if between 49 55 c then
        match t' with
        | String d _ => if is_octal d then inr (octal 2 (code c - 48)%N t')
                        else inl ErrInvalidEscape
        | EmptyString => inl ErrInvalidEscape
        end
      else if Ascii.eqb c "0" then inr (octal 2 0%N t')
      else if Ascii.eqb c "x" then
        match t' with
        | EmptyString => inl ErrInvalidEscape
        | String d t'' =>
            if Ascii.eqb d "{" then
              match hex_braced t'' 0 0%N with
              | Some res => inr res
              | None => inl ErrInvalidEscape
              end
            else match t'' with
                 | EmptyString => inl ErrInvalidEscape
                 | String e t3 =>
                     match unhex d, unhex e with
                     | Some x, Some y => inr ((x * 16 + y)%N, t3)
                     | _, _ => inl ErrInvalidEscape
                     end
                 end
        end
      else if Ascii.eqb c "a" then inr (7%N, t')
      else if Ascii.eqb c "f" then inr (12%N, t')
      else if Ascii.eqb c "n" then inr (10%N, t')
      else if Ascii.eqb c "r" then inr (13%N, t')
      else if Ascii.eqb c "t" then inr (9%N, t')
      else if Ascii.eqb c "v" then inr (11%N, t')
      else if (code c <? 128)%N && negb (isalnum c) then inr (code c, t')
      else inl ErrInvalidEscape
  end.

(** [parseClassChar] *)
Definition parseClassChar (t : string) : ErrorCode + (N * string) :=
  match t with
  | EmptyString => inl ErrMissingBracket
  | String c t' => if Ascii.eqb c "\" then parseEscape t' else inr (code c, t')
  end.

Inductive posix_result : Set :=
| PosixNone
| PosixBad
| PosixGroup (g : bool * list (N * N)) (rest : string).

(** [maybeParsePosix...]: a [[:name:]] item at the head of [t]. *)
Definition parsePosix (t : string) : posix_result :=
  match t with
  | String a (String b t') =>
      if Ascii.eqb a "[" && Ascii.eqb b ":" then
        match GoStrings.Index t' ":]" with
        | None => PosixNone
        | Some i =>
            match posixGroup (GoStrings.take i t') with
            | Some g => PosixGroup g (GoStrings.drop (i + 2) t')
            | None => PosixBad
            end
        end
      else PosixNone
  | _ => PosixNone
  end.

(** [parsePerlClassEscape] *)
Definition parsePerlClassEscape (t : string)
  : option ((bool * list (N * N)) * string) :=
  match t with
  | String a (String b t') =>
      if Ascii.eqb a "\" then option_map (fun g => (g, t')) (perlGroup b) else None
  | _ => None
  end.

Definition isUnicodeClass (t : string) : bool :=
  match t with
  | String a (String b _) => Ascii.eqb a "\" && (Ascii.eqb b "p" || Ascii.eqb b "P")
  | _ => false
  end.

(** The loop of [parseClass], after the opening bracket and the sign. *)
Fixpoint parseClassItems (fuel : nat) (fl : Flags) (t : string) (first : bool)
         (class : list class_item) : ErrorCode + (list class_item * string) :=
  match fuel with
  | O => inl ErrMissingBracket
  | S n =>
      match t with
      | String c t1 =>
          if Ascii.eqb c "]" && negb first then inr (class, t1)
          else
            match parsePosix t with
            | PosixGroup g rest =>
                parseClassItems n fl rest false (class ++ group_items fl g)
            | PosixBad => inl ErrInvalidCharRange
            | PosixNone =>
                if isUnicodeClass t then inl ErrUnsupported
                else
                  match parsePerlClassEscape t with
                  | Some (g, rest) =>
                      parseClassItems n fl rest false (class ++ group_items fl g)
                  | None =>
                      match parseClassChar t with
                      | inl e => inl e
                      | inr (lo, t2) =>
                          match t2 with
                          | String d (String e _ as t3) =>
                              if Ascii.eqb d "-" && negb (Ascii.eqb e "]") then
                                match parseClassChar t3 with
                                | inl err => inl err
                                | inr (hi, t4) =>
                                    if (hi <? lo)%N then inl ErrInvalidCharRange
                                    else parseClassItems n fl t4 false
                                           (class ++ group_items fl (true, [(lo, hi)]))
                                end
                              else parseClassItems n fl t2 false
                                     (class ++ group_items fl (true, [(lo, lo)]))
                          | _ => parseClassItems n fl t2 false
                                   (class ++ group_items fl (true, [(lo, lo)]))
                          end
                      end
                  end
            end
      | EmptyString => inl ErrMissingBracket
      end
  end.

(** [parseClass]: [t] is the text after the opening bracket. *)
Definition parseClass (fl : Flags) (t : string) : ErrorCode + (Regexp * string) :=
  let (negated, t') :=
    match t with
    | String c t1 => if Ascii.eqb c "^" then (true, t1) else (false, t)
    | EmptyString => (false, t)
    end in
  match parseClassItems (S (String.length t')) fl t' true [] with
  | inl e => inl e
  | inr (items, rest) => inr (OpCharClass negated items, rest)
  end.

(** [parseInt]: a decimal number without leading zeros. *)
Fixpoint digits (t : string) (n : N) : N * string :=
  match t with
  | String c t' => if is_digit c then digits t' (n * 10 + (code c - 48))%N else (n, t)
  | EmptyString => (n, t)
  end.

Definition parseInt (t : string) : option (N * string) :=
  match t with
  | String c t' =>
      if negb (is_digit c) then None
      else match t' with
           | String d _ =>
               if Ascii.eqb c "0" && is_digit d then None else Some (digits t 0%N)
           | EmptyString => Some (digits t 0%N)
           end
  | EmptyString => None
  end.

(** [parseRepeat]: [{n}], [{n,}] or [{n,m}]; [t] is the text after the
    opening brace.  [None] when the text is not a repetition. *)
Definition parseRepeat (t : string) : option (N * option N * string) :=
  match parseInt t with
  | None => None
  | Some (min, t1) =>
      match t1 with
      | EmptyString => None
      | String c t2 =>
          if Ascii.eqb c "}" then Some (min, Some min, t2)
          else if Ascii.eqb c "," then
            match t2 with
            | EmptyString => None
            | String d t3 =>
                if Ascii.eqb d "}" then Some (min, None, t3)
                else match parseInt t2 with
                     | None => None
                     | Some (max, t4) =>
                         match t4 with
                         | String e t5 =>
                             if Ascii.eqb e "}" then Some (min, Some max, t5) else None
                         | EmptyString => None
                         end
                     end
            end
          else None
      end
  end.

(** [repeatIsValid] *)
Fixpoint repeatIsValid (re : Regexp) (n : nat) : bool :=
  match re with
  | OpConcat r1 r2 | OpAlternate r1 r2 => repeatIsValid r1 n && repeatIsValid r2 n
  | OpStar r | OpPlus r | OpQuest r => repeatIsValid r n
  | OpRepeat min max r =>
      match max with
      | Some O => true
      | _ =>
          let m := match max with Some mx => mx | None => min end in
          if Nat.ltb n m then false
          else repeatIsValid r (if Nat.ltb 0 m then Nat.div n m else n)
      end
  | _ => true
  end.

Inductive flags_result : Set :=
| FlagsSet (fl : Flags) (rest : string)      (* (?flags)  *)
| GroupOpen (fl : Flags) (rest : string)     (* (?flags:  *)
| FlagsError (e : ErrorCode).

(** The loop of [parsePerlFlags]; [t] is the text after [(?]. *)
Fixpoint parsePerlFlags (t : string) (fl : Flags) (positive sawFlag : bool)
  : flags_result :=
  match t with
  | EmptyString => FlagsError ErrInvalidPerlOp
  | String c t' =>
      if Ascii.eqb c "i" then
        parsePerlFlags t' {| FoldCase := positive; DotNL := DotNL fl;
                             OneLine := OneLine fl; NonGreedy := NonGreedy fl |}
                       positive true
      else if Ascii.eqb c "m" then
        parsePerlFlags t' {| FoldCase := FoldCase fl; DotNL := DotNL fl;
                             OneLine := negb positive; NonGreedy := NonGreedy fl |}
                       positive true
      else if Ascii.eqb c "s" then
        parsePerlFlags t' {| FoldCase := FoldCase fl; DotNL := positive;
                             OneLine := OneLine fl; NonGreedy := NonGreedy fl |}
                       positive true
      else if Ascii.eqb c "U" then
        parsePerlFlags t' {| FoldCase := FoldCase fl; DotNL := DotNL fl;
                             OneLine := OneLine fl; NonGreedy := positive |}
                       positive true
      else if Ascii.eqb c "-" then
        if positive then parsePerlFlags t' fl false false
        else FlagsError ErrInvalidPerlOp
      else if Ascii.eqb c ":" || Ascii.eqb c ")" then
        if negb positive && negb sawFlag then FlagsError ErrInvalidPerlOp
        else if Ascii.eqb c ":" then GroupOpen fl t' else FlagsSet fl t'
      else if Ascii.eqb c "P" || Ascii.eqb c "<" then FlagsError ErrUnsupported
      else FlagsError ErrInvalidPerlOp
  end.

Fixpoint concat (rs : list Regexp) : Regexp :=
  match rs with
  | [] => OpEmptyMatch
  | [r] => r
  | r :: rs' => OpConcat r (concat rs')
  end.

Fixpoint alternate (rs : list Regexp) : Regexp :=
  match rs with
  | [] => OpEmptyMatch
  | [r] => r
  | r :: rs' => OpAlternate r (alternate rs')
  end.

(** The operands collected so far: the finished branches of the current
    alternation and the stack of the current concatenation (last first). *)
Definition collapse (alts stack : list Regexp) : Regexp :=
  alternate (alts ++ [concat (rev stack)]).

Definition skip_lazy (t : string) : string :=
  match t with
  | String c t' => if Ascii.eqb c "?" then t' else t
  | EmptyString => t
  end.

(** The main loop of [parse].  [lastRepeat] tells whether the previous
    item was a repetition operator, [inGroup] whether a parenthesis is
    open. *)
Fixpoint parse (fuel : nat) (fl : Flags) (t : string) (alts stack : list Regexp)
         (lastRepeat inGroup : bool) : ErrorCode + (Regexp * string) :=
  match fuel with
  | O => inl ErrUnsupported
  | S n =>
      let push (r : Regexp) (rest : string) :=
        parse n fl rest alts (r :: stack) false inGroup in
      let repetition (op : Regexp -> Regexp) (check : Regexp -> bool) (after : string) :=
        if lastRepeat then inl ErrInvalidRepeatOp
        else match stack with
             | [] => inl ErrMissingRepeatArgument
             | sub :: stack' =>
                 if check (op sub)
                 then parse n fl (skip_lazy after) alts (op sub :: stack') true inGroup
                 else inl ErrInvalidRepeatSize
             end in
      match t with
      | EmptyString =>
          if inGroup then inl ErrMissingParen else inr (collapse alts stack, t)
      | String c t1 =>
          if Ascii.eqb c "(" then
            match t1 with
            | String q t2 =>
                if Ascii.eqb q "?" then
                  match parsePerlFlags t2 fl true false with
                  | FlagsError e => inl e
                  | FlagsSet fl' rest => parse n fl' rest alts stack false inGroup
                  | GroupOpen fl' rest =>
                      match parse n fl' rest [] [] false true with
                      | inl e => inl e
                      | inr (r, rest') => push r rest'
                      end
                  end
                else
                  match parse n fl t1 [] [] false true with
                  | inl e => inl e
                  | inr (r, rest') => push r rest'
                  end
            | EmptyString => inl ErrMissingParen
            end
          else if Ascii.eqb c "|" then
            parse n fl t1 (alts ++ [concat (rev stack)]) [] false inGroup
          else if Ascii.eqb c ")" then
            if inGroup then inr (collapse alts stack, t1) else inl ErrUnexpectedParen
          else if Ascii.eqb c "^" then
            push (if OneLine fl then OpBeginText else OpBeginLine) t1
          else if Ascii.eqb c "$" then
            push (if OneLine fl then OpEndText else OpEndLine) t1
          else if Ascii.eqb c "." then
            push (OpCharClass true (if DotNL fl then [] else [Range 10 10])) t1
          else if Ascii.eqb c "[" then
            match parseClass fl t1 with
            | inl e => inl e
            | inr (r, rest) => push r rest
            end
          else if Ascii.eqb c "*" then repetition OpStar (fun _ => true) t1
          else if Ascii.eqb c "+" then repetition OpPlus (fun _ => true) t1
          else if Ascii.eqb c "?" then repetition OpQuest (fun _ => true) t1
          else if Ascii.eqb c "{" then
            match parseRepeat t1 with
            | None => push (literal fl (code c)) t1
            | Some (min, max, after) =>
                if (1000 <? min)%N
                   || match max with
                      | Some mx => (1000 <? mx)%N || (mx <? min)%N
                      | None => false
                      end
                then inl ErrInvalidRepeatSize
                else
                  let mn := N.to_nat min in
                  let mx := option_map N.to_nat max in
                  repetition (OpRepeat mn mx)
                             (fun re => match mx with
                                        | Some m => Nat.ltb m 2 && Nat.ltb mn 2
                                        | None => Nat.ltb mn 2
                                        end || repeatIsValid re 1000)
                             after
            end
          else if Ascii.eqb c "\" then
            match t1 with
            | String e t2 =>
                if Ascii.eqb e "A" then push OpBeginText t2
                else if Ascii.eqb e "b" then push OpWordBoundary t2
                else if Ascii.eqb e "B" then push OpNoWordBoundary t2
                else if Ascii.eqb e "C" then inl ErrInvalidEscape
                else if Ascii.eqb e "Q" then inl ErrUnsupported
                else if Ascii.eqb e "z" then push OpEndText t2
                else if Ascii.eqb e "p" || Ascii.eqb e "P" then inl ErrUnsupported
                else
                  match perlGroup e with
                  | Some g => push (OpCharClass false (group_items fl g)) t2
                  | None =>
                      match parseEscape t1 with
                      | inl err => inl err
                      | inr (r, rest) => push (literal fl r) rest
                      end
                  end
            | EmptyString => inl ErrTrailingBackslash
            end
          else push (literal fl (code c)) t1
      end
  end.

Definition ascii_only (s : string) : bool :=
  forallb (fun c => (code c <? 128)%N) (list_ascii_of_string s).

(** [regexp.Compile] *)
Definition Compile (expr : string) : ErrorCode + Regexp :=
  if ascii_only expr then
    match parse (S (String.length expr)) Perl expr [] [] false false with
    | inl e => inl e
    | inr (re, _) => inr re
    end
  else inl ErrUnsupported.

(** [regexp.MatchString(pattern, s)]: the pair [(matched, err)]. *)
Definition MatchString (pattern s : string) : bool * option ErrorCode :=
  match Compile pattern with
  | inl e => (false, Some e)
  | inr re => (search re None s, None)
  end.

End regexp.

(** ** scheduler/filter/expr.go *)

Module filter.

Definition EQ : Z := 0.
Definition NOTEQ : Z := 1.

Definition OPERATORS : list string := ["=="; "!="].

Record expr : Set := mkExpr { key : string; operator : Z; value : string }.

(** The errors [parseExprs] returns: the one of [regexp.MatchString], or
    one built by [fmt.Errorf]. *)
Inductive error : Set :=
| RegexpError (e : regexp.ErrorCode)
| Errorf (message : string).

Definition key_pattern : string := "^(?i)[a-z_][a-z0-9\-_]+$".

Definition value_pattern : string :=
  "^(?i)[=!\/]?[a-z0-9:\-_\.\*/\(\)\?\+\[\]\\\^\$]+$".

(** The body of [for i, op := range OPERATORS] for one entry: the
    expression appended, or the error returned.  Running out of
    operators is [!found]. *)
Fixpoint scanOperators (entry : string) (i : Z) (ops : list string) : error + expr :=
  match ops with
  | [] => inl (Errorf "One of operator ==, != is expected")
  | op :: ops' =>
      if GoStrings.Contains entry op then
        let parts := GoStrings.SplitN2 entry op in
        let part0 := hd "" parts in
        match regexp.MatchString key_pattern part0 with
        | (_, Some err) => inl (RegexpError err)
        | (false, None) => inl (Errorf ("Key '" ++ part0 ++ "' is invalid"))
        | (true, None) =>
            match parts with
            | [_; part1] =>
                match regexp.MatchString value_pattern part1 with
                | (_, Some err) => inl (RegexpError err)
                | (false, None) => inl (Errorf ("Value '" ++ part1 ++ "' is invalid"))
                | (true, None) =>
                    inr {| key := GoStrings.ToLower part0; operator := i; value := part1 |}
                end
            | _ => inr {| key := GoStrings.ToLower part0; operator := i; value := "" |}
            end
        end
      else scanOperators entry (i + 1) ops'
  end.

(** The loop [for _, e := range env], from the expressions collected so
    far. *)
Fixpoint parseLoop (key : string) (env : list string) (exprs : list expr)
  : option (list expr) * option error :=
  match env with
  | [] => (Some exprs, None)
  | e :: env' =>
      if GoStrings.HasPrefix e (key ++ ":") then
        let entry := GoStrings.TrimPrefix e (key ++ ":") in
        match scanOperators entry 0 OPERATORS with
        | inl err => (None, Some err)
        | inr x => parseLoop key env' (exprs ++ [x])
        end
      else parseLoop key env' exprs
  end.

(** [parseExprs(key, env)]: the pair [(exprs, err)], [None] for [nil]. *)
Definition parseExprs (key : string) (env : list string)
  : option (list expr) * option error :=
  parseLoop key env [].

(** The loop of [Match] over the candidates, from the current value of
    [match]: its final value and the errors passed to [log.Error]. *)
Fixpoint matchLoop (value : string) (whats : list string) (matched : bool)
  : bool * list regexp.ErrorCode :=
  match whats with
  | [] => (matched, [])
  | what :: whats' =>
      let (m, err) := regexp.MatchString value what in
      if m then (m, [])
      else match err with
           | Some e => let (m', log) := matchLoop value whats' m in (m', e :: log)
           | None => matchLoop value whats' m
           end
  end.

(** [e.Match(whats...)] with its log. *)
Definition runMatch (e : expr) (whats : list string) : bool * list regexp.ErrorCode :=
  let (matched, log) := matchLoop (value e) whats false in
  (if Z.eqb (operator e) EQ then matched
   else if Z.eqb (operator e) NOTEQ then negb matched
   else false,
   log).

(** The value [e.Match(whats...)] returns. *)
Definition Match (e : expr) (whats : list string) : bool := fst (runMatch e whats).

End filter.

(** ** The Go [encoding/json] package, for values of type [[]string]

    [config.go] stores lists of strings in labels with [json.Marshal] and
    reads them back with [json.Unmarshal] into a nil [[]string], ignoring
    the error.  [Unmarshal] first checks the syntax of the whole text and
    leaves the slice alone when it is invalid; an element that is not a
    string leaves an empty string in the slice and is reported as a type
    error once the array has been read. *)

Module json.

Inductive Error : Set :=
| SyntaxError
| UnmarshalTypeError (found : string).

#[warnings="-register-all"]
Inductive Value : Set :=
| Null
| Bool (b : bool)
| Number (text : string)
| Str (s : string)
| Array (elems : list Value)
| Object (members : list (string * Value)).

Definition code (c : ascii) : N := N_of_ascii c.

Definition between (lo hi : N) (c : ascii) : bool :=
  ((lo <=? code c) && (code c <=? hi))%N.

Definition byte (n : N) : ascii := ascii_of_N n.

(** *** UTF-8 *)

Definition continuation : ascii -> bool := between 128 191.

(** The length of the well-formed UTF-8 sequence at the head of [s]
    whose first byte is not ASCII; [0] when there is none. *)
Definition utf8_len (s : string) : nat :=
  match s with
  | String a (String b t) =>
      let two := between 194 223 a && continuation b in
      let second3 :=
        (Ascii.eqb a (byte 224) && between 160 191 b)
        || ((between 225 236 a || between 238 239 a) && continuation b)
        || (Ascii.eqb a (byte 237) && between 128 159 b) in
      let second4 :=
        (Ascii.eqb a (byte 240) && between 144 191 b)
        || (between 241 243 a && continuation b)
        || (Ascii.eqb a (byte 244) && between 128 143 b) in
      if two then 2
      else match t with
           | String c u =>
               if second3 && continuation c then 3
               else match u with
                    | String d _ =>
                        if second4 && continuation c && continuation d then 4 else 0
                    | EmptyString => 0
                    end
           | EmptyString => 0
           end
  | _ => 0
  end.

(** [utf8.EncodeRune] *)
Definition EncodeRune (r : N) : string :=
  if (r <? 128)%N then String (byte r) ""
  else if (r <? 2048)%N then
    String (byte (192 + r / 64)) (String (byte (128 + r mod 64)) "")
  else if (r <? 65536)%N then
    String (byte (224 + r / 4096))
      (String (byte (128 + (r / 64) mod 64)) (String (byte (128 + r mod 64)) ""))
  else
    String (byte (240 + r / 262144))
      (String (byte (128 + (r / 4096) mod 64))
         (String (byte (128 + (r / 64) mod 64)) (String (byte (128 + r mod 64)) ""))).

Definition ReplacementChar : N := 65533.

Definition quote : ascii := byte 34.

(** *** Reading *)

Definition is_space (c : ascii) : bool :=
  Ascii.eqb c " " || Ascii.eqb c (byte 9) || Ascii.eqb c (byte 10) || Ascii.eqb c (byte 13).

Fixpoint skip_space (t : string) : string :=
  match t with
  | String c t' => if is_space c then skip_space t' else t
  | EmptyString => t
  end.

Definition unhex (c : ascii) : option N :=
  if between 48 57 c then Some (code c - 48)%N
  else if between 97 102 c then Some (code c - 97 + 10)%N
  else if between 65 70 c then Some (code c - 65 + 10)%N
  else None.

(** [getu4] on the four characters after [\u]. *)
Definition getu4 (a b c d : ascii) : option N :=
  match unhex a, unhex b, unhex c, unhex d with
  | Some x, Some y, Some z, Some w => Some (((x * 16 + y) * 16 + z) * 16 + w)%N
  | _, _, _, _ => None
  end.

Definition is_surrogate (r : N) : bool := ((55296 <=? r) && (r <? 57344))%N.

(** [utf16.DecodeRune] *)
Definition utf16_DecodeRune (r1 r2 : N) : N :=
  if ((55296 <=? r1) && (r1 <? 56320) && (56320 <=? r2) && (r2 <? 57344))%N
  then ((r1 - 55296) * 1024 + (r2 - 56320) + 65536)%N
  else ReplacementChar.

Definition simple_escape (c : ascii) : option ascii :=
  if Ascii.eqb c quote || Ascii.eqb c "\" || Ascii.eqb c "/" then Some c
  else if Ascii.eqb c "b" then Some (byte 8)
  else if Ascii.eqb c "f" then Some (byte 12)
  else if Ascii.eqb c "n" then Some (byte 10)
  else if Ascii.eqb c "r" then Some (byte 13)
  else if Ascii.eqb c "t" then Some (byte 9)
  else None.

Definition cons_result (pre : string) (r : option (string * string))
  : option (string * string) :=
  match r with
  | Some (s, rest) => Some ((pre ++ s)%string, rest)
  | None => None
  end.

(** A string literal after its opening quote: the decoded text and what
    follows the closing quote.  [pending] counts the continuation bytes
    of a well-formed UTF-8 sequence still to be copied. *)
Fixpoint string_literal (t : string) (pending : nat) : option (string * string) :=
  match t with
  | EmptyString => None
  | String c t1 =>
      match pending with
      | S k => cons_result (String c "") (string_literal t1 k)
      | O =>
          if Ascii.eqb c quote then Some ("", t1)
          else if (code c <? 32)%N then None
          else if Ascii.eqb c "\" then
            match t1 with
            | String e t2 =>
                if Ascii.eqb e "u" then
                  match t2 with
                  | String h1 (String h2 (String h3 (String h4 t3))) =>
                      match getu4 h1 h2 h3 h4 with
                      | None => None
                      | Some rr =>
                          if is_surrogate rr then
                            match t3 with
                            | String b (String u (String g1 (String g2 (String g3 (String g4 t4))))) =>
                                let rr1 :=
                                  if Ascii.eqb b "\" && Ascii.eqb u "u"
                                  then getu4 g1 g2 g3 g4 else None in
                                match rr1 with
                                | Some r2 =>
                                    if (utf16_DecodeRune rr r2 =? ReplacementChar)%N
                                    then cons_result (EncodeRune ReplacementChar)
                                                     (string_literal t3 0)
                                    else cons_result (EncodeRune (utf16_DecodeRune rr r2))
                                                     (string_literal t4 0)
                                | None => cons_result (EncodeRune ReplacementChar)
                                                      (string_literal t3 0)
                                end
                            | _ => cons_result (EncodeRune ReplacementChar)
                                               (string_literal t3 0)
                            end
                          else cons_result (EncodeRune rr) (string_literal t3 0)
                      end
                  | _ => None
                  end
                else match simple_escape e with
                     | Some x => cons_result (String x "") (string_literal t2 0)
                     | None => None
                     end
            | EmptyString => None
            end
          else if (code c <? 128)%N then cons_result (String c "") (string_literal t1 0)
          else match utf8_len t with
               | O => cons_result (EncodeRune ReplacementChar) (string_literal t1 0)
               | S k => cons_result (String c "") (string_literal t1 k)
               end
      end
  end.

Fixpoint skip_digits (t : string) : string :=
  match t with
  | String c t' => if between 48 57 c then skip_digits t' else t
  | EmptyString => t
  end.

Definition digits1 (t : string) : option string :=
  match t with
  | String c t' => if between 48 57 c then Some (skip_digits t') else None
  | EmptyString => None
  end.

(** A number: what follows it. *)
Definition number (t : string) : option string :=
  let t1 := match t with
            | String c t' => if Ascii.eqb c "-" then t' else t
            | EmptyString => t
            end in
  let int_part :=
    match t1 with
    | String c t' =>
        if Ascii.eqb c "0" then Some t'
        else if between 49 57 c then Some (skip_digits t')
        else None
    | EmptyString => None
    end in
  match int_part with
  | None => None
  | Some t2 =>
      let frac :=
        match t2 with
        | String c t' => if Ascii.eqb c "." then digits1 t' else Some t2
        | EmptyString => Some t2
        end in
      match frac with
      | None => None
      | Some t3 =>
          match t3 with
          | String c t' =>
              if Ascii.eqb c "e" || Ascii.eqb c "E" then
                match t' with
                | String sg t'' =>
                    if Ascii.eqb sg "+" || Ascii.eqb sg "-" then digits1 t'' else digits1 t'
                | EmptyString => None
                end
              else Some t3
          | EmptyString => Some t3
          end
      end
  end.

Definition literal_value (t : string) : option (Value * string) :=
  if GoStrings.HasPrefix t "null" then Some (Null, GoStrings.drop 4 t)
  else if GoStrings.HasPrefix t "true" then Some (Bool true, GoStrings.drop 4 t)
  else if GoStrings.HasPrefix t "false" then Some (Bool false, GoStrings.drop 5 t)
  else match number t with
       | Some rest =>
           Some (Number (GoStrings.take (String.length t - String.length rest) t), rest)
       | None => None
       end.

(** A value at the head of [t] (leading space already skipped), the rest
    of an array after an element, and the rest of an object after a
    member. *)
Fixpoint value (fuel : nat) (t : string) : option (Value * string) :=
  match fuel with
  | O => None
  | S n =>
      match t with
      | EmptyString => None
      | String c t1 =>
          if Ascii.eqb c quote then
            match string_literal t1 0 with
            | Some (s, rest) => Some (Str s, rest)
            | None => None
            end
          else if Ascii.eqb c "[" then
            match skip_space t1 with
            | String d t2 as t1' =>
                if Ascii.eqb d "]" then Some (Array [], t2)
                else match value n t1' with
                     | Some (v, rest) =>
                         match elements n (skip_space rest) with
                         | Some (vs, rest') => Some (Array (v :: vs), rest')
                         | None => None
                         end
                     | None => None
                     end
            | EmptyString => None
            end
          else if Ascii.eqb c "{" then
            match skip_space t1 with
            | String d t2 as t1' =>
                if Ascii.eqb d "}" then Some (Object [], t2)
                else match member n t1' with
                     | Some (m, rest) =>
                         match members n (skip_space rest) with
                         | Some (ms, rest') => Some (Object (m :: ms), rest')
                         | None => None
                         end
                     | None => None
                     end
            | EmptyString => None
            end
          else literal_value t
      end
  end
with elements (fuel : nat) (t : string) : option (list Value * string) :=
  match fuel with
  | O => None
  | S n =>
      match t with
      | String c t1 =>
          if Ascii.eqb c "]" then Some ([], t1)
          else if Ascii.eqb c "," then
            match value n (skip_space t1) with
            | Some (v, rest) =>
                match elements n (skip_space rest) with
                | Some (vs, rest') => Some (v :: vs, rest')
                | None => None
                end
            | None => None
            end
          else None
      | EmptyString => None
      end
  end
with member (fuel : nat) (t : string) : option ((string * Value) * string) :=
  match fuel with
  | O => None
  | S n =>
      match t with
      | String c t1 =>
          if Ascii.eqb c quote then
            match string_literal t1 0 with
            | Some (k, rest) =>
                match skip_space rest with
                | String d t2 =>
                    if Ascii.eqb d ":" then
                      match value n (skip_space t2) with
                      | Some (v, rest') => Some ((k, v), rest')
                      | None => None
                      end
                    else None
                | EmptyString => None
                end
            | None => None
            end
          else None
      | EmptyString => None
      end
  end
with members (fuel : nat) (t : string) : option (list (string * Value) * string) :=
  match fuel with
  | O => None
  | S n =>
      match t with
      | String c t1 =>
          if Ascii.eqb c "}" then Some ([], t1)
          else if Ascii.eqb c "," then
            match member n (skip_space t1) with
            | Some (m, rest) =>
                match members n (skip_space rest) with
                | Some (ms, rest') => Some (m :: ms, rest')
                | None => None
                end
            | None => None
            end
          else None
      | EmptyString => None
      end
  end.

(** [checkValid] and the scan of the text: the value it holds. *)
Definition parse (data : string) : option Value :=
  match value (2 * String.length data + 2) (skip_space data) with
  | Some (v, rest) =>
      match skip_space rest with
      | EmptyString => Some v
      | String _ _ => None
      end
  | None => None
  end.

Definition kind (v : Value) : string :=
  match v with
  | Null => "null"
  | Bool _ => "bool"
  | Number _ => "number"
  | Str _ => "string"
  | Array _ => "array"
  | Object _ => "object"
  end.

(** The element stored for a value of an array read into [[]string]. *)
Definition element (v : Value) : string :=
  match v with Str s => s | _ => "" end.

Definition type_error (v : Value) : option Error :=
  match v with
  | Str _ | Null => None
  | _ => Some (UnmarshalTypeError (kind v))
  end.

Fixpoint first_error (vs : list Value) : option Error :=
  match vs with
  | [] => None
  | v :: vs' => match type_error v with Some e => Some e | None => first_error vs' end
  end.

(** [json.Unmarshal(data, &v)] for a nil [v []string]: the slice
    afterwards and the error. *)
Definition Unmarshal (data : string) : list string * option Error :=
  match parse data with
  | None => ([], Some SyntaxError)
  | Some Null => ([], None)
  | Some (Array vs) => (map element vs, first_error vs)
  | Some v => ([], Some (UnmarshalTypeError (kind v)))
  end.

(** *** Writing *)

Definition hex_digit (n : N) : ascii :=
  if (n <? 10)%N then byte (48 + n) else byte (97 + n - 10).

Definition u00 (c : ascii) : string :=
  ("\u00" ++ String (hex_digit (code c / 16)) (String (hex_digit (code c mod 16)) ""))%string.

(** The body of a quoted string: [<], [>], [&], the quote, the backslash
    and control characters are escaped, a byte that is not part of
    well-formed UTF-8 is written as the escape of U+FFFD, and U+2028 and U+2029 are
    escaped. *)
Fixpoint quoted (s : string) (pending : nat) : string :=
  match s with
  | EmptyString => ""
  | String c s' =>
      match pending with
      | S k => String c (quoted s' k)
      | O =>
          if Ascii.eqb c quote || Ascii.eqb c "\" then String "\" (String c (quoted s' 0))
          else if Ascii.eqb c (byte 10) then ("\n" ++ quoted s' 0)%string
          else if Ascii.eqb c (byte 13) then ("\r" ++ quoted s' 0)%string
          else if Ascii.eqb c (byte 9) then ("\t" ++ quoted s' 0)%string
          else if (code c <? 32)%N || Ascii.eqb c "<" || Ascii.eqb c ">" || Ascii.eqb c "&"
               then (u00 c ++ quoted s' 0)%string
          else if (code c <? 128)%N then String c (quoted s' 0)
          else match utf8_len s with
               | O => ("\ufffd" ++ quoted s' 0)%string
               | S k =>
                   match s' with
                   | String d (String e s'') =>
                       if Ascii.eqb c (byte 226) && Ascii.eqb d (byte 128)
                          && between 168 169 e
                       then ("\u202" ++ String (hex_digit (code e - 160)) (quoted s'' 0))%string
                       else String c (quoted s' k)
                   | _ => String c (quoted s' k)
                   end
               end
      end
  end.

Definition quoteString (s : string) : string :=
  String quote (quoted s 0 ++ String quote "")%string.

Fixpoint join (parts : list string) : string :=
  match parts with
  | [] => ""
  | [p] => p
  | p :: parts' => (p ++ "," ++ join parts')%string
  end.

(** [json.Marshal(v)] for a non-nil [v []string]: the text and the error,
    which is always nil. *)
Definition Marshal (v : list string) : string * option Error :=
  (("[" ++ join (map quoteString v) ++ "]")%string, None).

End json.

(** ** Types of the Docker API that the sources embed *)

Module container.

(** [container.Config], with the fields read here. *)
Record Config : Type :=
  mkConfig { Image : string; Cmd : list string; Env : list string;
             Labels : gmap string string }.

Record HostConfig : Set :=
  mkHostConfig { Memory : Z; MemorySwap : Z; CPUShares : Z; CpusetCpus : string }.

End container.

Module network.

Record NetworkingConfig : Type :=
  mkNetworkingConfig { EndpointsConfig : gmap string (list string) }.

End network.

(** [stringid.TruncateID] of [docker/pkg/stringid]: the text after the
    first colon, cut to twelve characters. *)
Module stringid.

Definition shortLen : nat := 12.

Definition TruncateID (id : string) : string :=
  let id' := match GoStrings.Index id ":" with
             | Some i => GoStrings.drop (i + 1) id
             | None => id
             end in
  GoStrings.take shortLen id'.

End stringid.

(** ** cluster/config.go *)

Module cluster.

Definition error : Set := string.

Definition SwarmLabelNamespace : string := "com.docker.swarm".

Record ContainerConfig : Type :=
  mkContainerConfig { Config : container.Config;
                      HostConfig : container.HostConfig;
                      NetworkingConfig : network.NetworkingConfig }.

Definition parseEnv (e : string) : bool * string * string :=
  match GoStrings.SplitN2 e ":" with
  | [k; v] => (true, k, v)
  | _ => (false, "", "")
  end.

(** The local slices of [BuildContainerConfig]. *)
Record slices : Set :=
  mkSlices { affinities : list string; constraints : list string;
             reschedulePolicies : list string; checkpointTime : list string;
             env : list string }.

(** [json.Unmarshal([]byte(labels), &v)] under [if labels, ok := ...]:
    the slice [v], nil when the label is absent. *)
Definition labelStrings (labels : gmap string string) (name : string) : list string :=
  match labels !! name with
  | Some text => fst (json.Unmarshal text)
  | None => []
  end.

(** One round of [for _, e := range c.Env]. *)
Definition scanEnv (st : slices) (e : string) : slices :=
  let '(ok, key, value) := parseEnv e in
  if ok && String.eqb key "affinity" then
    mkSlices (affinities st ++ [value]) (constraints st) (reschedulePolicies st)
             (checkpointTime st) (env st)
  else if ok && String.eqb key "constraint" then
    mkSlices (affinities st) (constraints st ++ [value]) (reschedulePolicies st)
             (checkpointTime st) (env st)
  else if ok && String.eqb key "reschedule" then
    mkSlices (affinities st) (constraints st) (reschedulePolicies st ++ [value])
             (checkpointTime st) (env st)
  else if ok && String.eqb key "checkpoint-time" then
    mkSlices (affinities st) (constraints st) (reschedulePolicies st)
             (checkpointTime st ++ [value]) (env st)
  else
    mkSlices (affinities st) (constraints st) (reschedulePolicies st)
             (checkpointTime st) (env st ++ [e]).

(** [if len(values) > 0 { if labels, err := json.Marshal(values);
    err == nil { c.Labels[name] = string(labels) } }] *)
Definition storeLabel (name : string) (values : list string)
           (labels : gmap string string) : gmap string string :=
  if Nat.ltb 0 (length values) then
    match json.Marshal values with
    | (text, None) => <[name := text]> labels
    | (_, Some _) => labels
    end
  else labels.

(** [BuildContainerConfig(c, h, n)].  A nil [c.Labels] reads as the empty
    map and is replaced by one before it is written. *)
Definition BuildContainerConfig (c : container.Config) (h : container.HostConfig)
           (n : network.NetworkingConfig) : ContainerConfig :=
  let labels := container.Labels c in
  let st0 :=
    mkSlices (labelStrings labels (SwarmLabelNamespace ++ ".affinities"))
             (labelStrings labels (SwarmLabelNamespace ++ ".constraints"))
             (labelStrings labels (SwarmLabelNamespace ++ ".reschedule-policies"))
             (labelStrings labels (SwarmLabelNamespace ++ ".checkpoint-time"))
             [] in
  let st := fold_left scanEnv (container.Env c) st0 in
  let labels1 := storeLabel (SwarmLabelNamespace ++ ".affinities") (affinities st) labels in
  let labels2 := storeLabel (SwarmLabelNamespace ++ ".constraints") (constraints st) labels1 in
  let labels3 := storeLabel (SwarmLabelNamespace ++ ".reschedule-policies")
                            (reschedulePolicies st) labels2 in
  let labels4 := storeLabel (SwarmLabelNamespace ++ ".checkpoint-time")
                            (checkpointTime st) labels3 in
  mkContainerConfig
    (container.mkConfig (container.Image c) (container.Cmd c) (env st) labels4) h n.

Definition extractExprs (c : ContainerConfig) (key : string) : list string :=
  labelStrings (container.Labels (Config c)) (SwarmLabelNamespace ++ "." ++ key).

(** [c.SwarmID()]: a missing label reads as the empty string. *)
Definition SwarmID (c : ContainerConfig) : string :=
  default "" (container.Labels (Config c) !! (SwarmLabelNamespace ++ ".id")%string).

Definition HasReschedulePolicy (c : ContainerConfig) (p : string) : bool :=
  existsb (fun reschedulePolicy => String.eqb reschedulePolicy p)
          (extractExprs c "reschedule-policies").

Definition validReschedulePolicies : list string := ["off"; "on-node-failure"; "restore"].

(** [c.Validate()]: [None] is the nil error. *)
Definition Validate (c : ContainerConfig) : option error :=
  let reschedulePolicies := extractExprs c "reschedule-policies" in
  if Nat.ltb 1 (length reschedulePolicies) then
    Some "too many reschedule policies"
  else if Nat.eqb (length reschedulePolicies) 1 then
    let policy := hd "" reschedulePolicies in
    let valid :=
      fold_left (fun valid validReschedulePolicy =>
                   if String.eqb policy validReschedulePolicy then true else valid)
                validReschedulePolicies false in
    if negb valid then Some ("invalid reschedule policy: " ++ policy)%string
    else None
  else None.

(** [OldContainerConfig]: a [ContainerConfig] with the resource fields of
    older clients. *)
Record OldContainerConfig : Type :=
  mkOldContainerConfig { embedded : ContainerConfig; Memory : Z; MemorySwap : Z;
                         CPUShares : Z; CPUSet : string }.

(** [ConsolidateResourceFields(c)]: the configuration afterwards. *)
Definition ConsolidateResourceFields (c : OldContainerConfig) : OldContainerConfig :=
  let h := HostConfig (embedded c) in
  let memory :=
    if negb (Z.eqb (Memory c) (container.Memory h)) then
      if negb (Z.eqb (Memory c) 0) then Memory c else container.Memory h
    else container.Memory h in
  let memorySwap :=
    if negb (Z.eqb (MemorySwap c) (container.MemorySwap h)) then
      if negb (Z.eqb (MemorySwap c) 0) then MemorySwap c else container.MemorySwap h
    else container.MemorySwap h in
  let cpuShares :=
    if negb (Z.eqb (CPUShares c) (container.CPUShares h)) then
      if negb (Z.eqb (CPUShares c) 0) then CPUShares c else container.CPUShares h
    else container.CPUShares h in
  let cpusetCpus :=
    if negb (String.eqb (CPUSet c) (container.CpusetCpus h)) then
      if negb (String.eqb (CPUSet c) "") then CPUSet c else container.CpusetCpus h
    else container.CpusetCpus h in
  mkOldContainerConfig
    (mkContainerConfig (Config (embedded c))
                       (container.mkHostConfig memory memorySwap cpuShares cpusetCpus)
                       (NetworkingConfig (embedded c)))
    (Memory c) (MemorySwap c) (CPUShares c) (CPUSet c).

(** [c.Labels[name] = value].  The map is taken to be allocated, as
    [BuildContainerConfig] leaves it: a [gmap] has no nil, and Go panics
    on a write to a nil map. *)
Definition setLabel (name value : string) (c : ContainerConfig) : ContainerConfig :=
  mkContainerConfig
    (container.mkConfig (container.Image (Config c)) (container.Cmd (Config c))
                        (container.Env (Config c))
                        (<[name := value]> (container.Labels (Config c))))
    (HostConfig c) (NetworkingConfig c).

Definition SetSwarmID (c : ContainerConfig) (id : string) : ContainerConfig :=
  setLabel (SwarmLabelNamespace ++ ".id") id c.

Definition Affinities (c : ContainerConfig) : list string := extractExprs c "affinities".

Definition Constraints (c : ContainerConfig) : list string := extractExprs c "constraints".

(** [c.AddAffinity(affinity)]: the configuration afterwards and the error. *)
Definition AddAffinity (c : ContainerConfig) (affinity : string)
  : ContainerConfig * option json.Error :=
  let affinities := extractExprs c "affinities" ++ [affinity] in
  match json.Marshal affinities with
  | (_, Some err) => (c, Some err)
  | (labels, None) => (setLabel (SwarmLabelNamespace ++ ".affinities") labels c, None)
  end.

(** [c.RemoveAffinity(affinity)] *)
Definition RemoveAffinity (c : ContainerConfig) (affinity : string)
  : ContainerConfig * option json.Error :=
  let affinities :=
    List.filter (fun a => negb (String.eqb a affinity)) (extractExprs c "affinities") in
  match json.Marshal affinities with
  | (_, Some err) => (c, Some err)
  | (labels, None) => (setLabel (SwarmLabelNamespace ++ ".affinities") labels c, None)
  end.

(** [c.AddConstraint(constraint)] *)
Definition AddConstraint (c : ContainerConfig) (constraint : string)
  : ContainerConfig * option json.Error :=
  let constraints := extractExprs c "constraints" ++ [constraint] in
  match json.Marshal constraints with
  | (_, Some err) => (c, Some err)
  | (labels, None) => (setLabel (SwarmLabelNamespace ++ ".constraints") labels c, None)
  end.

(** [c.HaveNodeConstraint()] *)
Definition HaveNodeConstraint (c : ContainerConfig) : bool :=
  existsb (fun constraint =>
             GoStrings.HasPrefix constraint "node=="
             && negb (GoStrings.HasPrefix constraint "node==~"))
          (extractExprs c "constraints").

(** *** cluster/container.go

    The [Config] and the [Engine] of a container are pointers; the lookup
    dereferences them without a test, and they are taken to be set. *)

(** The fields of [Engine] that the lookup reads. *)
Record Engine : Set := mkEngine { engine_ID : string; engine_Name : string }.

(** [Container]: [ID] and [Names] of the embedded [types.Container], the
    [Config] and the [Engine]. *)
Record Container : Type :=
  mkContainer { container_ID : string; container_Names : list string;
                container_Config : ContainerConfig; container_Engine : Engine }.

Definition Containers : Type := list Container.

Definition matchID (IDOrName : string) (c : Container) : bool :=
  String.eqb (container_ID c) IDOrName
  || String.eqb (stringid.TruncateID (container_ID c)) IDOrName.

Definition matchSwarmID (IDOrName : string) (c : Container) : bool :=
  let swarmID := SwarmID (container_Config c) in
  String.eqb swarmID IDOrName || String.eqb (stringid.TruncateID swarmID) IDOrName.

(** The inner loop over [container.Names]: the final value of [found]. *)
Definition matchName (IDOrName : string) (c : Container) : bool :=
  fold_left
    (fun found name =>
       if String.eqb name IDOrName
          || String.eqb name ("/" ++ IDOrName)
          || String.eqb (engine_ID (container_Engine c) ++ name) IDOrName
          || String.eqb (engine_Name (container_Engine c) ++ name) IDOrName
       then true else found)
    (container_Names c) false.

Definition matchIDPrefix (IDOrName : string) (c : Container) : bool :=
  GoStrings.HasPrefix (container_ID c) IDOrName.

Definition matchSwarmIDPrefix (IDOrName : string) (c : Container) : bool :=
  GoStrings.HasPrefix (SwarmID (container_Config c)) IDOrName.

(** [containers.Get(IDOrName)]: [None] is the nil pointer. *)
Definition Get (containers : Containers) (IDOrName : string) : option Container :=
  if Nat.eqb (String.length IDOrName) 0 then None
  else
    match List.find (matchID IDOrName) containers with
    | Some c => Some c
    | None =>
        match List.find (matchSwarmID IDOrName) containers with
        | Some c => Some c
        | None =>
            let candidates := List.filter (matchName IDOrName) containers in
            if Nat.eqb (length candidates) 1 then List.hd_error candidates
            else if Nat.ltb 1 (length candidates) then None
            else
              let candidates :=
                candidates ++ List.filter (matchIDPrefix IDOrName) containers in
              let candidates :=
                candidates ++ List.filter (matchSwarmIDPrefix IDOrName) containers in
              if Nat.eqb (length candidates) 1 then List.hd_error candidates
              else None
        end
    end.

End cluster.

(** ** The cluster coordinator (the second listing of cluster/container.go)

    [Cluster] with [AddNode], [refreshContainers], [assignVirtualId],
    [Containers] and [Container].  The store and the generator of virtual
    ids belong to files that are not part of the sources at hand; they
    are parameters.  The mutex is not modelled: every operation is one
    step on the state of the cluster. *)

Module coordinator.

Definition error : Set := string.

Definition ErrNodeNotConnected : error := "node is not connected to docker's REST API".
Definition ErrNodeAlreadyRegistered : error := "node was already added to the cluster".

(** [Container]: [Id], [VirtualId], [Names], and the [ID] and [Name] of
    the node it points to. *)
Record Container : Set :=
  mkContainer { Id : string; VirtualId : string; Names : list string;
                node_ID : string; node_Name : string }.

(** [Node]: [ptr] is the identity of the pointer; [IsConnected],
    [Containers] and [Events] hold what the methods of these names
    return. *)
Record Node : Set :=
  mkNode { ptr : positive; ID : string; Name : string; Addr : string;
           IsConnected : bool; Containers : list Container;
           Events : option error }.

Section Cluster.

Variable Store : Type.
Variable store_All : Store -> list Container.
Variable store_Replace : string -> Container -> Store -> Store.
Variable store_Add : string -> Container -> Store -> Store.
(** The identifier [generateVirtualId] returns at its n-th call. *)
Variable generateVirtualId : nat -> string.

Record Cluster : Type :=
  mkCluster { store : Store;
              nodes : gmap string Node;
              containers : gmap positive (list Container);
              generated : nat }.

Definition NewCluster (st : Store) : Cluster :=
  {| store := st; nodes := ∅; containers := ∅; generated := 0 |}.

Definition setVirtualId (vid : string) (container : Container) : Container :=
  {| Id := Id container; VirtualId := vid; Names := Names container;
     node_ID := node_ID container; node_Name := node_Name container |}.

(** [c.assignVirtualId(container)]: the cluster and the container
    afterwards.  The errors of the store are only logged. *)
Definition assignVirtualId (c : Cluster) (container : Container)
  : Cluster * Container :=
  match List.find (fun sc => String.eqb (Id sc) (Id container)) (store_All (store c)) with
  | Some sc =>
      let container' := setVirtualId (VirtualId sc) container in
      ({| store := store_Replace (VirtualId sc) container' (store c);
          nodes := nodes c; containers := containers c;
          generated := generated c |}, container')
  | None =>
      let vid := generateVirtualId (generated c) in
      let container' := setVirtualId vid container in
      ({| store := store_Add vid container' (store c);
          nodes := nodes c; containers := containers c;
          generated := S (generated c) |}, container')
  end.

(** The loop of [refreshContainers] over the containers of the node. *)
Fixpoint assignAll (c : Cluster) (cs : list Container) : Cluster * list Container :=
  match cs with
  | [] => (c, [])
  | container :: cs' =>
      let (c1, container') :=
        if Nat.eqb (String.length (VirtualId container)) 0
        then assignVirtualId c container else (c, container) in
      let (c2, cs'') := assignAll c1 cs' in
      (c2, container' :: cs'')
  end.

Definition refreshContainers (node : Node) (c : Cluster) : Cluster :=
  let (c', cs) := assignAll c (Containers node) in
  {| store := store c'; nodes := nodes c';
     containers := <[ptr node := cs]> (containers c');
     generated := generated c' |}.

(** [c.AddNode(n)]: the cluster afterwards and the error returned. *)
Definition AddNode (n : Node) (c : Cluster) : Cluster * option error :=
  if negb (IsConnected n) then (c, Some ErrNodeNotConnected)
  else
    match nodes c !! ID n with
    | Some _ => (c, Some ErrNodeAlreadyRegistered)
    | None =>
        let c1 := {| store := store c; nodes := <[ID n := n]> (nodes c);
                     containers := containers c; generated := generated c |} in
        (refreshContainers n c1, Events n)
    end.

(** A sequence of calls of [AddNode], their errors dropped. *)
Definition AddNodes (ns : list Node) (c : Cluster) : Cluster :=
  fold_left (fun c n => fst (AddNode n c)) ns c.

(** [c.Nodes()], in some order of the map. *)
Definition Nodes (c : Cluster) : list Node := snd <$> map_to_list (nodes c).

(** [c.Node(addr)]: the first node with this address, in some order of the
    map. *)
Definition Cluster_Node (c : Cluster) (addr : string) : option Node :=
  List.find (fun node => String.eqb (Addr node) addr) (Nodes c).

(** [c.Containers()], in some order of the map. *)
Definition Cluster_Containers (c : Cluster) : list Container :=
  flat_map snd (map_to_list (containers c)).

Definition matchName (IdOrName : string) (container : Container) (name : string) : bool :=
  String.eqb name IdOrName
  || String.eqb name ("/" ++ IdOrName)
  || String.eqb (node_ID container ++ name) IdOrName
  || String.eqb (node_Name container ++ name) IdOrName.

(** The loop of [Container] over [c.Containers()]. *)
Fixpoint lookup (IdOrName : string) (cs : list Container) : option Container :=
  match cs with
  | [] => None
  | container :: cs' =>
      if GoStrings.HasPrefix (VirtualId container) IdOrName then Some container
      else if existsb (matchName IdOrName container) (Names container) then Some container
      else lookup IdOrName cs'
  end.

(** [c.Container(IdOrName)] *)
Definition Cluster_Container (c : Cluster) (IdOrName : string) : option Container :=
  if Nat.eqb (String.length IdOrName) 0 then None
  else lookup IdOrName (Cluster_Containers c).

End Cluster.

Arguments mkCluster {Store} store nodes containers generated.
Arguments store {Store} c.
Arguments nodes {Store} c.
Arguments containers {Store} c.
Arguments generated {Store} c.
Arguments NewCluster {Store} st.
Arguments Nodes {Store} c.
Arguments Cluster_Containers {Store} c.
Arguments Cluster_Node {Store} c addr.
Arguments Cluster_Container {Store} c IdOrName.

End coordinator.

(** ** Notions used to state the properties *)

Module spec.

(** *** Expressions *)

Definition candidate_matches (value what : string) : bool :=
  fst (regexp.MatchString value what).

(** The text of a glob as a regular expression: [*] is [.*], [?] is [.],
    any other character stands for itself. *)
Fixpoint glob_pattern (glob : string) : string :=
  match glob with
  | EmptyString => ""
  | String c rest =>
      ((if Ascii.eqb c "*" then ".*"
        else if Ascii.eqb c "?" then "."
        else if regexp.isalnum c then String c ""
        else String "\" (String c ""))
       ++ glob_pattern rest)%string
  end.

(** Matching as the specification words it: a value that starts with a
    slash is a regular expression anchored at both ends, a value with
    [*] or [?] is a glob, any other value is compared without regard to
    case. *)
Definition described_match (value what : string) : bool :=
  match value with
  | String "/" rest => candidate_matches ("^(?:" ++ rest ++ ")$") what
  | _ =>
      if GoStrings.Contains value "*" || GoStrings.Contains value "?"
      then candidate_matches ("^" ++ glob_pattern value ++ "$") what
      else String.eqb (GoStrings.ToLower value) (GoStrings.ToLower what)
  end.

Definition key_valid (s : string) : bool :=
  fst (regexp.MatchString filter.key_pattern s).

Definition value_valid (s : string) : bool :=
  fst (regexp.MatchString filter.value_pattern s).

(** The syntax trees of the two patterns of [parseExprs]. *)
Definition key_regexp : regexp.Regexp :=
  Eval vm_compute in
    match regexp.Compile filter.key_pattern with
    | inr re => re
    | inl _ => regexp.OpEmptyMatch
    end.

Definition value_regexp : regexp.Regexp :=
  Eval vm_compute in
    match regexp.Compile filter.value_pattern with
    | inr re => re
    | inl _ => regexp.OpEmptyMatch
    end.

(** The two patterns, read off character by character: a key is a letter
    or an underscore followed by at least one letter, digit, hyphen or
    underscore; a value is an optional [=], [!] or [/] followed by at
    least one character that is a letter, a digit or one of
    [: - _ . * / ( ) ? + [ ] \ ^ $]. *)
Definition letter (c : ascii) : bool :=
regexp.between 97 122 c || regexp.between 65 90 c.

Definition key_start (c : ascii) : bool := letter c || Ascii.eqb c "_".

Definition key_char (c : ascii) : bool :=
letter c || regexp.is_digit c || Ascii.eqb c "-" || Ascii.eqb c "_".

Definition value_start (c : ascii) : bool :=
Ascii.eqb c "=" || Ascii.eqb c "!" || Ascii.eqb c "/".

Definition value_char (c : ascii) : bool :=
letter c || regexp.is_digit c
|| existsb (Ascii.eqb c) (list_ascii_of_string ":-_.*/()?+[]\^$").

Fixpoint all_chars (P : ascii -> bool) (s : string) : bool :=
match s with
| EmptyString => true
| String c s' => P c && all_chars P s'
end.

Definition some_chars (P : ascii -> bool) (s : string) : bool :=
match s with
| EmptyString => false
| String _ _ => all_chars P s
end.

Definition well_formed_key (s : string) : bool :=
match s with
| String c rest => key_start c && some_chars key_char rest
| EmptyString => false
end.

Definition well_formed_value (s : string) : bool :=
match s with
| String c rest => (value_start c && some_chars value_char rest) || some_chars value_char s
| EmptyString => false
end.

(** The operator at which [parseExprs] splits an entry: the first one of
    [OPERATORS] that the entry contains. *)
Definition split_operator (entry : string) : option string :=
  List.find (GoStrings.Contains entry) filter.OPERATORS.

(** An entry (without its prefix) that has no operator, an invalid key
    or an invalid value. *)
Definition bad_entry (entry : string) : bool :=
  match split_operator entry with
  | None => true
  | Some op =>
      let parts := GoStrings.SplitN2 entry op in
      negb (key_valid (nth 0 parts "")) || negb (value_valid (nth 1 parts ""))
  end.

(** The text of the operator with the given number. *)
Definition operator_text (i : Z) : string := nth (Z.to_nat i) filter.OPERATORS "".

(** The expression [x] is what the entry [payload] (without its prefix)
    says: the entry is a key, an operator and a value; it is cut at [==] if
    it holds one and at [!=] otherwise; the key of the expression is the key
    of the entry in lower case; key and value are well formed. *)
Definition parsed (payload : string) (x : filter.expr) : Prop :=
  exists k,
    payload = (k ++ operator_text (filter.operator x) ++ filter.value x)%string
    /\ (filter.operator x = filter.EQ
        \/ (filter.operator x = filter.NOTEQ /\ GoStrings.Contains payload "==" = false))
    /\ filter.key x = GoStrings.ToLower k
    /\ well_formed_key k = true
    /\ well_formed_value (filter.value x) = true.

(** *** Environment entries and labels *)

(** The prefixes that [BuildContainerConfig] consumes, each with the
    label that receives its payloads. *)
Definition recognized : list (string * string) :=
  [("affinity", "com.docker.swarm.affinities");
   ("constraint", "com.docker.swarm.constraints");
   ("reschedule", "com.docker.swarm.reschedule-policies");
   ("checkpoint-time", "com.docker.swarm.checkpoint-time")].

(** The entry has the form [<prefix>:<payload>]. *)
Definition has_prefix (prefix e : string) : bool :=
  GoStrings.HasPrefix e (prefix ++ ":").

Definition recognized_entry (e : string) : bool :=
  existsb (fun p => has_prefix (fst p) e) recognized.

(** The payloads of the entries of [env] with the given prefix, in
    order. *)
Definition payloads (prefix : string) (env : list string) : list string :=
  map (GoStrings.drop (String.length prefix + 1)) (List.filter (has_prefix prefix) env).

(** *** Container lookup *)

(** The container has a name that the query names: the name itself, the
    name without its slash, or the name after the id or the name of the
    engine. *)
Definition matches_name (IDOrName : string) (c : cluster.Container) : bool :=
  existsb
    (fun name =>
       String.eqb name IDOrName
       || String.eqb name ("/" ++ IDOrName)
       || String.eqb (cluster.engine_ID (cluster.container_Engine c) ++ name) IDOrName
       || String.eqb (cluster.engine_Name (cluster.container_Engine c) ++ name) IDOrName)
    (cluster.container_Names c).

(** Some container has the query as its id, short id, swarm id or short
    swarm id. *)
Definition matches_exactly (IDOrName : string) (cs : cluster.Containers) : bool :=
  existsb (cluster.matchID IDOrName) cs || existsb (cluster.matchSwarmID IDOrName) cs.

(** The candidates of the two prefix steps, accumulated in one list. *)
Definition prefix_candidates (IDOrName : string) (cs : cluster.Containers)
  : list cluster.Container :=
  List.filter (cluster.matchIDPrefix IDOrName) cs
  ++ List.filter (cluster.matchSwarmIDPrefix IDOrName) cs.

(** The query names the container in one of the five ways of [Get]. *)
Definition resolves (IDOrName : string) (c : cluster.Container) : bool :=
  cluster.matchID IDOrName c || cluster.matchSwarmID IDOrName c
  || matches_name IDOrName c
  || cluster.matchIDPrefix IDOrName c || cluster.matchSwarmIDPrefix IDOrName c.

(** *** JSON texts *)

(** The text has ASCII characters only. *)
Definition ascii_text (s : string) : bool :=
all_chars (fun c => (N_of_ascii c <? 128)%N) s.

(** What [json.Marshal] writes after the first element of a list: each
    further element after a comma, then the closing bracket. *)
Fixpoint more_elements (values : list string) : string :=
match values with
| [] => "]"
| v :: values' => ("," ++ json.quoteString v ++ more_elements values')%string
end.

(** *** Nodes *)

(** Every node of the cluster is registered under its own id. *)
Definition keyed_by_id {Store : Type} (c : coordinator.Cluster Store) : Prop :=
forall k n, coordinator.nodes c !! k = Some n -> coordinator.ID n = k.

(** The container [b] is the container [a] after a refresh: the same id,
    names and node, and the same container altogether if [a] had a virtual
    id. *)
Definition refreshed (a b : coordinator.Container) : Prop :=
coordinator.Id b = coordinator.Id a
/\ coordinator.Names b = coordinator.Names a
/\ coordinator.node_ID b = coordinator.node_ID a
/\ coordinator.node_Name b = coordinator.node_Name a
/\ (coordinator.VirtualId a <> "" -> b = a).

(** The number of containers without a virtual id. *)
Definition unnamed (cs : list coordinator.Container) : nat :=
length (List.filter (fun k => Nat.eqb (String.length (coordinator.VirtualId k)) 0) cs).

(** The query names the container for [Cluster.Container]: it is a prefix
    of the virtual id, or it names the container by one of its names. *)
Definition named_by (IdOrName : string) (k : coordinator.Container) : bool :=
GoStrings.HasPrefix (coordinator.VirtualId k) IdOrName
|| existsb (coordinator.matchName IdOrName k) (coordinator.Names k).

End spec.

(** ** Data for the examples *)

Module examples.

Definition dq : string := String json.quote "".

Definition hostConfig : container.HostConfig := container.mkHostConfig 0 0 0 "".

Definition networking : network.NetworkingConfig := network.mkNetworkingConfig ∅.

(** A container configuration whose only label is the list of reschedule
    policies, given as the text of the label. *)
Definition withPolicies (text : string) : cluster.ContainerConfig :=
  cluster.mkContainerConfig
    (container.mkConfig "busybox" [] []
                        (<["com.docker.swarm.reschedule-policies" := text]> ∅))
    hostConfig networking.

(** The texts [["on-node-failure"]], [["a","b"]] and [["restore"]]. *)
Definition onNodeFailure : string := ("[" ++ dq ++ "on-node-failure" ++ dq ++ "]")%string.
Definition twoPolicies : string :=
  ("[" ++ dq ++ "a" ++ dq ++ "," ++ dq ++ "b" ++ dq ++ "]")%string.
Definition restore : string := ("[" ++ dq ++ "restore" ++ dq ++ "]")%string.

(** [docker run -e affinity:container==redis -e FOO=bar
    -e constraint:region==us -e PATH=/bin:/usr/bin -e reschedule:off
    -e affinity:image==nginx], with one affinity already in the label. *)
Definition request : container.Config :=
  container.mkConfig "nginx" []
    ["affinity:container==redis"; "FOO=bar"; "constraint:region==us";
     "PATH=/bin:/usr/bin"; "reschedule:off"; "affinity:image==nginx"]
    (<["com.docker.swarm.affinities" := ("[" ++ dq ++ "container!=db" ++ dq ++ "]")%string]> ∅).

(** A container with the given id, swarm id, name and engine. *)
Definition containerOn (engine : cluster.Engine) (id swarmID name : string)
  : cluster.Container :=
  cluster.mkContainer id [name]
    (cluster.mkContainerConfig
       (container.mkConfig "busybox" [] [] (<["com.docker.swarm.id" := swarmID]> ∅))
       hostConfig networking)
    engine.

Definition engine1 : cluster.Engine := cluster.mkEngine "EID1:2375" "engine1".
Definition engine2 : cluster.Engine := cluster.mkEngine "EID2:2375" "engine2".

Definition web1 : cluster.Container :=
  containerOn engine1 "1f0e3dad99908345f7439f8ffabdffc4" "a3c2b56d7be7f1a5c0b1636ccd0a4e11" "/web".
Definition web2 : cluster.Container :=
  containerOn engine2 "7c9ba2d3a81d4f6b8e5f3c1d2e4f6a8b" "e4da3b7fbbce2345d7772b0674a318d5" "/web".

(** Two containers on two engines whose name is the short id of [web1]. *)
Definition alias1 : cluster.Container :=
containerOn engine1 "9a1bd2f0c4e648d2b3a5f7e9d1c3b5a7" "0b4e7a0e5fe84ad35fb5f95b9ceeac79"
            "/1f0e3dad9990".
Definition alias2 : cluster.Container :=
containerOn engine2 "5e8f1a2b3c4d4e5f8a9b0c1d2e3f4a5b" "d67d8ab4f4c10bf22aa353e27879133c"
            "/1f0e3dad9990".

(** A container whose id and swarm id both start with its name. *)
Definition cache : cluster.Container :=
containerOn engine1 "c4ca4238a0b923820dcc509a6f75849b" "c4ca8e296a067a37563370ded05f5a3b"
            "/c4ca".

(** A container of the earlier coordinator, and a cluster that holds it. *)
Definition db : coordinator.Container :=
coordinator.mkContainer "45c48cce2e2d7fbdea1afc51c7c6ad26" "5d41402abc4b2a76b9719d911017c592"
                        ["/db"] "node1:2375" "node1".

Definition oneContainer : coordinator.Cluster unit :=
coordinator.mkCluster tt ∅ (<[1%positive := [db]]> ∅) 1.

Definition node (p : positive) (id : string) (connected : bool) : coordinator.Node :=
coordinator.mkNode p id id id connected [] None.

(** A store that holds nothing, and the identifiers [vid0], [vid1], ...,
    [vid9], [vid:], ... *)
Definition noContainers (st : unit) : list coordinator.Container := [].
Definition keep (vid : string) (k : coordinator.Container) (st : unit) : unit := st.
Definition numbered (n : nat) : string :=
String.append "vid" (String (ascii_of_nat (48 + n)) "").

(** The configuration built from [request], and an older configuration
    with legacy resource fields. *)
Definition built : cluster.ContainerConfig :=
cluster.BuildContainerConfig request hostConfig networking.

Definition legacy : cluster.OldContainerConfig :=
cluster.mkOldContainerConfig
  (cluster.mkContainerConfig request (container.mkHostConfig 0 512 2 "0-3") networking)
  1024 0 2 "".

(** A node with two containers, one of which has a virtual id. *)
Definition anonymous : coordinator.Container :=
coordinator.mkContainer "8f14e45fceea167a5a36dedd4bea2543" "" ["/queue"] "node1" "node1".

Definition worker : coordinator.Node :=
coordinator.mkNode 1 "node1" "node1" "10.0.0.1:2375" true [db; anonymous]
                   (Some "events: connection refused").

End examples.

(** * Properties *)

(** Writes the names of the four labels as literals. *)
Ltac label_names :=
  repeat match goal with
         | |- context [(cluster.SwarmLabelNamespace ++ ?s)%string] =>
             let r := eval vm_compute in (cluster.SwarmLabelNamespace ++ s)%string in
             change (cluster.SwarmLabelNamespace ++ s)%string with r
         end.

(** ** Strings *)

Lemma append_cons (c : ascii) (p s : string) :
  (String c p ++ s)%string = String c (p ++ s).
Proof. reflexivity. Qed.

Lemma append_nil (s : string) : ("" ++ s)%string = s.
Proof. reflexivity. Qed.

Lemma HasPrefix_app (p s : string) : GoStrings.HasPrefix (p ++ s) p = true.
Proof.
  induction p as [|c p IH]; [reflexivity|].
  rewrite append_cons. simpl. rewrite Ascii.eqb_refl. exact IH.
Qed.

Lemma HasPrefix_inv (s p : string) :
  GoStrings.HasPrefix s p = true -> s = (p ++ GoStrings.drop (String.length p) s)%string.
Proof.
  revert s. induction p as [|c p IH]; intros s H; simpl in *; [reflexivity|].
  destruct s as [|d s]; [discriminate|].
  apply andb_prop in H as [Hc Hp]. apply Ascii.eqb_eq in Hc. subst d.
  rewrite append_cons. simpl. f_equal. apply IH, Hp.
Qed.

Lemma Index_split (s sep : string) (i : nat) :
  GoStrings.Index s sep = Some i ->
  s = (GoStrings.take i s ++ sep ++ GoStrings.drop (i + String.length sep) s)%string.
Proof.
  revert i. induction s as [|c s IH]; intros i H.
  - simpl in H. destruct (GoStrings.HasPrefix "" sep) eqn:Hp; [|discriminate].
    injection H as <-. destruct sep; [reflexivity | discriminate].
  - cbn [GoStrings.Index] in H.
    destruct (GoStrings.HasPrefix (String c s) sep) eqn:Hp.
    + injection H as <-. simpl GoStrings.take. simpl Nat.add.
      apply HasPrefix_inv in Hp. exact Hp.
    + destruct (GoStrings.Index s sep) as [j|] eqn:Hj; [|discriminate].
      injection H as <-. simpl. rewrite append_cons. f_equal. apply IH. reflexivity.
Qed.

Lemma Contains_SplitN2 (s sep : string) :
  GoStrings.Contains s sep = true ->
  exists p0 p1, GoStrings.SplitN2 s sep = [p0; p1] /\ s = (p0 ++ sep ++ p1)%string.
Proof.
  unfold GoStrings.Contains, GoStrings.SplitN2.
  destruct (GoStrings.Index s sep) as [i|] eqn:Hi; [|discriminate].
  intros _. eexists _, _. split; [reflexivity|]. apply Index_split, Hi.
Qed.

(** ** [regexp.MatchString] on the two patterns of [parseExprs] *)

Lemma Compile_key_pattern : regexp.Compile filter.key_pattern = inr spec.key_regexp.
Proof. vm_compute. reflexivity. Qed.

Lemma Compile_value_pattern : regexp.Compile filter.value_pattern = inr spec.value_regexp.
Proof. vm_compute. reflexivity. Qed.

Lemma MatchString_key_pattern (s : string) :
  regexp.MatchString filter.key_pattern s = (spec.key_valid s, None).
Proof.
  unfold spec.key_valid, regexp.MatchString.
  rewrite Compile_key_pattern. reflexivity.
Qed.

Lemma MatchString_value_pattern (s : string) :
  regexp.MatchString filter.value_pattern s = (spec.value_valid s, None).
Proof.
  unfold spec.value_valid, regexp.MatchString.
  rewrite Compile_value_pattern. reflexivity.
Qed.

(** ** [expr.Match] *)

Lemma matchLoop_false (value : string) (whats : list string) :
  fst (filter.matchLoop value whats false)
  = existsb (spec.candidate_matches value) whats.
Proof.
  induction whats as [|w ws IH]; [reflexivity|].
  cbn [filter.matchLoop existsb]. unfold spec.candidate_matches at 1.
  destruct (regexp.MatchString value w) as [m err]. cbn [fst].
  destruct m; [reflexivity|]. cbn [orb].
  destruct err as [err|]; [|exact IH].
  destruct (filter.matchLoop value ws false) as [m' log]. exact IH.
Qed.

Lemma Match_unfold (e : filter.expr) (whats : list string) :
  filter.Match e whats
  = let matched := existsb (spec.candidate_matches (filter.value e)) whats in
    if Z.eqb (filter.operator e) filter.EQ then matched
    else if Z.eqb (filter.operator e) filter.NOTEQ then negb matched
    else false.
Proof.
  unfold filter.Match, filter.runMatch.
  rewrite <- matchLoop_false.
  destruct (filter.matchLoop (filter.value e) whats false) as [m log]. reflexivity.
Qed.

Lemma MatchString_compile_error (pattern s : string) (err : regexp.ErrorCode) :
  regexp.Compile pattern = inl err ->
  regexp.MatchString pattern s = (false, Some err).
Proof. intros H. unfold regexp.MatchString. rewrite H. reflexivity. Qed.

Lemma matchLoop_compile_error (value : string) (whats : list string)
      (err : regexp.ErrorCode) :
  regexp.Compile value = inl err ->
  filter.matchLoop value whats false = (false, repeat err (length whats)).
Proof.
  intros H. induction whats as [|w ws IH]; [reflexivity|].
  cbn [filter.matchLoop]. rewrite (MatchString_compile_error _ _ _ H).
  rewrite IH. reflexivity.
Qed.

Lemma search_dot_star (prev : option ascii) (s : string) :
  regexp.search (regexp.OpStar (regexp.OpCharClass true [regexp.Range 10 10])) prev s = true.
Proof. destruct s; reflexivity. Qed.

(** C1, as amended: for an expression with operator EQ, [Match] reports a
    match exactly when [regexp.MatchString] finds the value, taken as it
    stands as a regular expression, somewhere in one of the candidates.
    No slash is stripped, no glob is translated and case is not folded.
    In particular the value [^foo$] matches the candidate [foo], and the
    value [.*] matches every candidate. *)
Theorem Match_EQ_is_regexp_search (e : filter.expr) (whats : list string) :
  filter.operator e = filter.EQ ->
  filter.Match e whats = existsb (spec.candidate_matches (filter.value e)) whats
  /\ filter.Match (filter.mkExpr "node" filter.EQ "^foo$") ["foo"] = true
  /\ (forall what, filter.Match (filter.mkExpr "node" filter.EQ ".*") [what] = true).
Proof.
  intros H. split; [|split].
  - rewrite Match_unfold, H. reflexivity.
  - vm_compute. reflexivity.
  - intros what. rewrite Match_unfold. cbn [filter.operator filter.value existsb].
    change (Z.eqb filter.EQ filter.EQ) with true. cbv iota beta zeta.
    unfold spec.candidate_matches, regexp.MatchString.
    change (regexp.Compile ".*")
      with (@inr regexp.ErrorCode _
              (regexp.OpStar (regexp.OpCharClass true [regexp.Range 10 10]))).
    cbn [fst]. rewrite search_dot_star. reflexivity.
Qed.

Lemma Match_EQ_is_regexp_search_witness :
  filter.operator (filter.mkExpr "node" filter.EQ "foo") = filter.EQ
  /\ filter.Match (filter.mkExpr "node" filter.EQ "foo") ["bar"; "xfoox"] = true.
Proof.
  split; [reflexivity|].
  destruct (Match_EQ_is_regexp_search (filter.mkExpr "node" filter.EQ "foo")
                                      ["bar"; "xfoox"] eq_refl) as [H _].
  rewrite H. vm_compute. reflexivity.
Defined.

(** C1 fails as stated: the value [/^foo$] does not match [foo], the value
    [*] matches nothing (it does not compile), and [foo] does not match
    [FOO], while the description makes all three match. *)
Lemma Match_EQ_not_as_described :
  (filter.Match (filter.mkExpr "node" filter.EQ "/^foo$") ["foo"] = false
   /\ spec.described_match "/^foo$" "foo" = true)
  /\ (filter.Match (filter.mkExpr "node" filter.EQ "*") ["foo"] = false
      /\ spec.described_match "*" "foo" = true)
  /\ (filter.Match (filter.mkExpr "node" filter.EQ "foo") ["FOO"] = false
      /\ spec.described_match "foo" "FOO" = true).
Proof. vm_compute. repeat split. Qed.

(** C2, as amended: with operator EQ, [Match] returns true iff some
    candidate matches the value; with operator NOTEQ it returns true iff no
    candidate matches the value. *)
Theorem Match_any_candidate (e : filter.expr) (whats : list string) :
  (filter.operator e = filter.EQ ->
   (filter.Match e whats = true
    <-> exists what, In what whats /\ spec.candidate_matches (filter.value e) what = true))
  /\ (filter.operator e = filter.NOTEQ ->
      (filter.Match e whats = true
       <-> forall what, In what whats -> spec.candidate_matches (filter.value e) what = false)).
Proof.
  split; intros H; rewrite Match_unfold, H; cbv zeta.
  - change (Z.eqb filter.EQ filter.EQ) with true. cbv iota.
    apply existsb_exists.
  - change (Z.eqb filter.NOTEQ filter.EQ) with false.
    change (Z.eqb filter.NOTEQ filter.NOTEQ) with true. cbv iota.
    rewrite negb_true_iff. split.
    + intros Hn what Hin.
      destruct (spec.candidate_matches (filter.value e) what) eqn:Hm; [|reflexivity].
      assert (existsb (spec.candidate_matches (filter.value e)) whats = true)
        as Ht by (apply existsb_exists; eauto).
      congruence.
    + intros Hall.
      destruct (existsb (spec.candidate_matches (filter.value e)) whats) eqn:Hex;
        [|reflexivity].
      apply existsb_exists in Hex as (what & Hin & Hm).
      rewrite (Hall what Hin) in Hm. discriminate.
Qed.

Lemma Match_any_candidate_witness :
  (filter.operator (filter.mkExpr "node" filter.EQ "b") = filter.EQ
   /\ filter.Match (filter.mkExpr "node" filter.EQ "b") ["a"; "b"] = true)
  /\ (filter.operator (filter.mkExpr "node" filter.NOTEQ "c") = filter.NOTEQ
      /\ filter.Match (filter.mkExpr "node" filter.NOTEQ "c") ["a"; "b"] = true).
Proof.
  split; (split; [reflexivity|]).
  - apply (proj1 (Match_any_candidate (filter.mkExpr "node" filter.EQ "b") ["a"; "b"]) eq_refl).
    exists "b". split; [right; left; reflexivity | vm_compute; reflexivity].
  - apply (proj2 (Match_any_candidate (filter.mkExpr "node" filter.NOTEQ "c") ["a"; "b"]) eq_refl).
    intros what [<-|[<-|[]]]; vm_compute; reflexivity.
Defined.

(** C2 fails as stated for NOTEQ: with the value [a] and the candidates
    [a] and [b], the candidate [b] does not match the value, and yet
    [Match] returns false. *)
Lemma Match_NOTEQ_not_some_candidate :
  (exists what, In what ["a"; "b"] /\ spec.candidate_matches "a" what = false)
  /\ filter.Match (filter.mkExpr "node" filter.NOTEQ "a") ["a"; "b"] = false.
Proof.
  split; [exists "b"; split; [right; left; reflexivity | vm_compute; reflexivity]|].
  vm_compute. reflexivity.
Qed.

(** C8, as amended: when the value does not compile, [Match] neither
    fails nor stops early; it logs the error once per candidate, returns
    false for EQ and returns true for NOTEQ. *)
Theorem Match_compile_error (e : filter.expr) (whats : list string)
        (err : regexp.ErrorCode) :
  regexp.Compile (filter.value e) = inl err ->
  snd (filter.runMatch e whats) = repeat err (length whats)
  /\ (filter.operator e = filter.EQ -> filter.Match e whats = false)
  /\ (filter.operator e = filter.NOTEQ -> filter.Match e whats = true).
Proof.
  intros H. unfold filter.Match, filter.runMatch.
  rewrite (matchLoop_compile_error _ whats _ H). cbn [fst snd].
  split; [reflexivity|]. split; intros ->; reflexivity.
Qed.

Lemma Match_compile_error_witness :
  regexp.Compile (filter.value (filter.mkExpr "node" filter.NOTEQ "*"))
  = inl regexp.ErrMissingRepeatArgument
  /\ snd (filter.runMatch (filter.mkExpr "node" filter.NOTEQ "*") ["a"; "b"])
     = [regexp.ErrMissingRepeatArgument; regexp.ErrMissingRepeatArgument]
  /\ filter.Match (filter.mkExpr "node" filter.NOTEQ "*") ["a"; "b"] = true.
Proof.
  split; [vm_compute; reflexivity|].
  destruct (Match_compile_error (filter.mkExpr "node" filter.NOTEQ "*") ["a"; "b"]
                                regexp.ErrMissingRepeatArgument eq_refl)
    as (Hlog & _ & Hne).
  split; [exact Hlog | exact (Hne eq_refl)].
Defined.

(** C8 fails as stated for NOTEQ: the value [*] does not compile for any
    candidate, and [Match] returns true. *)
Lemma Match_NOTEQ_compile_error_true :
  (forall what, regexp.MatchString "*" what = (false, Some regexp.ErrMissingRepeatArgument))
  /\ filter.Match (filter.mkExpr "node" filter.NOTEQ "*") ["foo"] = true.
Proof.
  split; [intros what; apply MatchString_compile_error|]; vm_compute; reflexivity.
Qed.

(** ** [parseExprs] *)

Lemma scanOperators_bad_entry (entry : string) :
  spec.bad_entry entry = true ->
  exists err, filter.scanOperators entry 0 filter.OPERATORS = inl err.
Proof.
  unfold spec.bad_entry, spec.split_operator, filter.OPERATORS.
  cbn [List.find filter.scanOperators].
  destruct (GoStrings.Contains entry "==") eqn:H1.
  - destruct (Contains_SplitN2 _ _ H1) as (p0 & p1 & -> & _).
    cbn [nth hd]. rewrite MatchString_key_pattern.
    destruct (spec.key_valid p0); [|eauto].
    rewrite MatchString_value_pattern.
    destruct (spec.value_valid p1); [discriminate | eauto].
  - destruct (GoStrings.Contains entry "!=") eqn:H2; [|eauto].
    destruct (Contains_SplitN2 _ _ H2) as (p0 & p1 & -> & _).
    cbn [nth hd]. rewrite MatchString_key_pattern.
    destruct (spec.key_valid p0); [|eauto].
    rewrite MatchString_value_pattern.
    destruct (spec.value_valid p1); [discriminate | eauto].
Qed.

Lemma parseLoop_bad_entry (key : string) (env : list string) (exprs : list filter.expr)
      (e : string) :
  In e env ->
  GoStrings.HasPrefix e (key ++ ":") = true ->
  spec.bad_entry (GoStrings.TrimPrefix e (key ++ ":")) = true ->
  exists err, filter.parseLoop key env exprs = (None, Some err).
Proof.
  intros Hin Hpre Hbad. revert exprs.
  induction env as [|e0 env IH]; intros exprs; [destruct Hin|].
  cbn [filter.parseLoop].
  destruct Hin as [->|Hin].
  - rewrite Hpre. destruct (scanOperators_bad_entry _ Hbad) as [err ->]. eauto.
  - destruct (GoStrings.HasPrefix e0 (key ++ ":")); [|apply IH, Hin].
    destruct (filter.scanOperators _ 0 filter.OPERATORS) as [err|x]; [eauto|].
    apply IH, Hin.
Qed.

Lemma not_in_key_first_class (c : ascii) :
  regexp.is_digit c = true ->
  regexp.in_class false [regexp.Range 97 122; regexp.Range 65 90; regexp.Range 95 95] c
  = false.
Proof.
  unfold regexp.is_digit, regexp.between, regexp.code, regexp.in_class.
  cbn [existsb regexp.in_item xorb]. intros H.
  apply andb_prop in H as [H1 H2].
  apply N.leb_le in H1. apply N.leb_le in H2.
  repeat match goal with
         | |- context [(?a <=? ?b)%N] => destruct (N.leb_spec a b)
         end; try reflexivity; lia.
Qed.

Lemma search_BeginText_later (r : regexp.Regexp) (c : ascii) (s : string) :
  regexp.search (regexp.OpConcat regexp.OpBeginText r) (Some c) s = false.
Proof.
  revert c. induction s as [|d s IH]; intros c; [reflexivity|].
  cbn. apply IH.
Qed.

Lemma key_valid_leading_digit (c : ascii) (s : string) :
  regexp.is_digit c = true -> spec.key_valid (String c s) = false.
Proof.
  intros H. unfold spec.key_valid, regexp.MatchString.
  rewrite Compile_key_pattern. cbn [fst]. unfold spec.key_regexp.
  cbn [regexp.search regexp.run regexp.guard fst snd flat_map app].
  rewrite (not_in_key_first_class c H). cbn [flat_map app].
  apply search_BeginText_later.
Qed.

Lemma bad_entry_leading_digit (c : ascii) (s : string) :
  regexp.is_digit c = true -> spec.bad_entry (String c s) = true.
Proof.
  intros H. unfold spec.bad_entry.
  destruct (spec.split_operator (String c s)) as [op|] eqn:Hop; [|reflexivity].
  unfold spec.split_operator in Hop.
  apply List.find_some in Hop as [_ Hc].
  destruct (Contains_SplitN2 _ _ Hc) as (p0 & p1 & -> & Heq).
  cbn [nth]. destruct p0 as [|c0 p0].
  - reflexivity.
  - rewrite append_cons in Heq. injection Heq as <- _.
    rewrite (key_valid_leading_digit _ _ H). reflexivity.
Qed.

Lemma search_anchored (r : regexp.Regexp) (s : string) :
  regexp.search (regexp.OpConcat regexp.OpBeginText r) None s
  = match regexp.run r (None, s) with
    | [] => false
    | _ :: _ => true
    end.
Proof.
  destruct s as [|c s]; cbn [regexp.search regexp.run regexp.guard fst flat_map];
    rewrite app_nil_r.
  - destruct (regexp.run r (None, "")); reflexivity.
  - destruct (regexp.run r (None, String c s)); [|reflexivity].
    apply search_BeginText_later.
Qed.

(** A run of characters of a class up to the end of the text. *)
Lemma iterate_class_to_end (items : list regexp.class_item) (s : string)
      (prev : option ascii) :
  exists q,
    flat_map (regexp.run regexp.OpEndText)
             (regexp.iterate (regexp.run (regexp.OpCharClass false items))
                             (String.length s) (prev, s))
    = if spec.all_chars (regexp.in_class false items) s then [q] else [].
Proof.
  revert prev. induction s as [|c s IH]; intros prev.
  - exists (prev, ""). reflexivity.
  - destruct (IH (Some c)) as [q Hq]. exists q.
    cbn [String.length regexp.iterate flat_map regexp.run regexp.guard snd fst
         spec.all_chars app].
    destruct (regexp.in_class false items c); [|reflexivity].
    cbn [flat_map snd String.length andb].
    assert (Nat.ltb (String.length s) (S (String.length s)) = true) as ->
        by (apply Nat.ltb_lt; lia).
    rewrite app_nil_r. exact Hq.
Qed.

Lemma plus_class_to_end (items : list regexp.class_item) (s : string)
      (prev : option ascii) :
  exists q,
    regexp.run (regexp.OpConcat (regexp.OpPlus (regexp.OpCharClass false items))
                                regexp.OpEndText) (prev, s)
    = if spec.some_chars (regexp.in_class false items) s then [q] else [].
Proof.
  destruct s as [|c s]; [exists (prev, ""); reflexivity|].
  destruct (iterate_class_to_end items s (Some c)) as [q Hq]. exists q.
  cbn [regexp.run snd fst spec.some_chars spec.all_chars].
  destruct (regexp.in_class false items c); [|reflexivity].
  cbn [flat_map snd andb]. rewrite app_nil_r. exact Hq.
Qed.

Lemma key_classes (c : ascii) :
  regexp.in_class false [regexp.Range 97 122; regexp.Range 65 90; regexp.Range 95 95] c
  = spec.key_start c
  /\ regexp.in_class false [regexp.Range 97 122; regexp.Range 65 90; regexp.Range 48 57;
                            regexp.Range 45 45; regexp.Range 95 95] c
     = spec.key_char c.
Proof. destruct c as [[] [] [] [] [] [] [] []]; split; reflexivity. Qed.

Lemma all_chars_ext (P Q : ascii -> bool) (s : string) :
  (forall c, P c = Q c) -> spec.all_chars P s = spec.all_chars Q s.
Proof.
  intros H. induction s as [|c s IH]; [reflexivity|].
  cbn [spec.all_chars]. rewrite H, IH. reflexivity.
Qed.

Lemma some_chars_ext (P Q : ascii -> bool) (s : string) :
  (forall c, P c = Q c) -> spec.some_chars P s = spec.some_chars Q s.
Proof. intros H. destruct s; [reflexivity | apply all_chars_ext, H]. Qed.

Lemma run_concat (r1 r2 : regexp.Regexp) (p : regexp.position) :
  regexp.run (regexp.OpConcat r1 r2) p = flat_map (regexp.run r2) (regexp.run r1 p).
Proof. reflexivity. Qed.

Lemma run_class (negated : bool) (items : list regexp.class_item)
      (prev : option ascii) (c : ascii) (s : string) :
  regexp.run (regexp.OpCharClass negated items) (prev, String c s)
  = if regexp.in_class negated items c then [(Some c, s)] else [].
Proof. reflexivity. Qed.

Lemma run_quest (r : regexp.Regexp) (p : regexp.position) :
  regexp.run (regexp.OpQuest r) p = regexp.run r p ++ [p].
Proof. reflexivity. Qed.

(** The key pattern, as [regexp] above runs it, accepts exactly the keys
    described in [spec].  [regexp] folds case on ASCII letters only, so
    this is what Go accepts among ASCII texts; outside ASCII Go also takes
    U+212A for [k] and U+017F for [s]. *)
Lemma key_valid_well_formed (s : string) : spec.key_valid s = spec.well_formed_key s.
Proof.
  unfold spec.key_valid, regexp.MatchString.
  rewrite Compile_key_pattern. cbn [fst]. unfold spec.key_regexp.
  rewrite search_anchored.
  destruct s as [|c s]; [reflexivity|].
  rewrite run_concat, run_class, (proj1 (key_classes c)).
  cbn [spec.well_formed_key].
  destruct (spec.key_start c); [|reflexivity].
  cbn [flat_map andb]. rewrite app_nil_r.
  destruct (plus_class_to_end
              [regexp.Range 97 122; regexp.Range 65 90; regexp.Range 48 57;
               regexp.Range 45 45; regexp.Range 95 95] s (Some c)) as [q ->].
  rewrite (some_chars_ext _ spec.key_char) by (intros d; apply key_classes).
  destruct (spec.some_chars spec.key_char s); reflexivity.
Qed.

Lemma value_classes (c : ascii) :
  regexp.in_class false [regexp.Range 61 61; regexp.Range 33 33; regexp.Range 47 47] c
  = spec.value_start c
  /\ regexp.in_class false
       [regexp.Range 97 122; regexp.Range 65 90; regexp.Range 48 57; regexp.Range 58 58;
        regexp.Range 45 45; regexp.Range 95 95; regexp.Range 46 46; regexp.Range 42 42;
        regexp.Range 47 47; regexp.Range 40 40; regexp.Range 41 41; regexp.Range 63 63;
        regexp.Range 43 43; regexp.Range 91 91; regexp.Range 93 93; regexp.Range 92 92;
        regexp.Range 94 94; regexp.Range 36 36] c
     = spec.value_char c.
Proof. destruct c as [[] [] [] [] [] [] [] []]; split; reflexivity. Qed.

(** The value pattern, as [regexp] above runs it, accepts exactly the
    values described in [spec]; as for the keys, this is what Go accepts
    among ASCII texts. *)
Lemma value_valid_well_formed (s : string) :
  spec.value_valid s = spec.well_formed_value s.
Proof.
  unfold spec.value_valid, regexp.MatchString.
  rewrite Compile_value_pattern. cbn [fst]. unfold spec.value_regexp.
  rewrite search_anchored, run_concat, run_quest, flat_map_app.
  cbn [flat_map]. rewrite app_nil_r.
  match goal with
  | |- context [regexp.run (regexp.OpConcat (regexp.OpPlus (regexp.OpCharClass false ?items))
                                            regexp.OpEndText) (None, s)] =>
      destruct (plus_class_to_end items s None) as [q0 ->];
      rewrite (some_chars_ext _ spec.value_char) by (intros d; apply value_classes);
      destruct s as [|c s]; [reflexivity|];
      rewrite run_class, (proj1 (value_classes c));
      cbn [spec.well_formed_value];
      destruct (spec.value_start c);
      [ cbn [flat_map andb]; rewrite app_nil_r;
        destruct (plus_class_to_end items s (Some c)) as [q1 ->];
        rewrite (some_chars_ext _ spec.value_char) by (intros d; apply value_classes);
        destruct (spec.some_chars spec.value_char s),
                 (spec.some_chars spec.value_char (String c s)); reflexivity
      | cbn [flat_map app orb andb];
        destruct (spec.some_chars spec.value_char (String c s)); reflexivity ]
  end.
Qed.

(** C4: [parseExprs] returns an error and no list whenever some entry
    with the given prefix has no operator, an invalid key or an invalid
    value, wherever the entry stands in the list.  Among ASCII texts the
    keys and values that the two patterns accept are the ones described in
    [spec]; whatever follows, a key that starts with a digit is invalid,
    and so is an empty value. *)
Theorem parseExprs_rejects_bad_entry :
  (forall (key : string) (env : list string) (e : string),
      In e env ->
      GoStrings.HasPrefix e (key ++ ":") = true ->
      spec.bad_entry (GoStrings.TrimPrefix e (key ++ ":")) = true ->
      exists err, filter.parseExprs key env = (None, Some err))
  /\ (forall s, spec.ascii_text s = true -> spec.key_valid s = spec.well_formed_key s)
  /\ (forall s, spec.ascii_text s = true -> spec.value_valid s = spec.well_formed_value s)
  /\ (forall (c : ascii) (s : string),
         regexp.is_digit c = true ->
         spec.key_valid (String c s) = false /\ spec.bad_entry (String c s) = true)
  /\ spec.value_valid "" = false
  /\ (forall entry, GoStrings.Contains entry "==" = false ->
                    GoStrings.Contains entry "!=" = false ->
                    spec.bad_entry entry = true).
Proof.
  split; [|split; [|split; [|split; [|split]]]].
  - intros key env e Hin Hpre Hbad. apply (parseLoop_bad_entry key env [] e Hin Hpre Hbad).
  - intros s _. apply key_valid_well_formed.
  - intros s _. apply value_valid_well_formed.
  - intros c s H. split; [apply key_valid_leading_digit, H | apply bad_entry_leading_digit, H].
  - vm_compute. reflexivity.
  - intros entry H1 H2. unfold spec.bad_entry, spec.split_operator, filter.OPERATORS.
    cbn [List.find]. rewrite H1, H2. reflexivity.
Qed.

Lemma parseExprs_rejects_bad_entry_witness :
  (exists err,
      filter.parseExprs "constraint"
                        ["constraint:region==us"; "constraint:1node==ssd"; "constraint:os!=linux"]
      = (None, Some err))
  /\ spec.key_valid "Region-1" = spec.well_formed_key "Region-1"
  /\ spec.value_valid "=us-*" = spec.well_formed_value "=us-*".
Proof.
  split; [|split].
  - apply (proj1 parseExprs_rejects_bad_entry "constraint"
                 ["constraint:region==us"; "constraint:1node==ssd"; "constraint:os!=linux"]
                 "constraint:1node==ssd").
    + right. left. reflexivity.
    + vm_compute. reflexivity.
    + vm_compute. reflexivity.
  - apply (proj1 (proj2 parseExprs_rejects_bad_entry) "Region-1"). reflexivity.
  - apply (proj1 (proj2 (proj2 parseExprs_rejects_bad_entry)) "=us-*"). reflexivity.
Defined.

Example parseExprs_leading_digit :
  filter.parseExprs "constraint" ["constraint:region==us"; "constraint:1node==ssd"]
  = (None, Some (filter.Errorf "Key '1node' is invalid")).
Proof. vm_compute. reflexivity. Qed.

Example parseExprs_empty_value :
  filter.parseExprs "affinity" ["affinity:container=="]
  = (None, Some (filter.Errorf "Value '' is invalid")).
Proof. vm_compute. reflexivity. Qed.

Example parseExprs_no_operator :
  filter.parseExprs "affinity" ["affinity:container=redis"]
  = (None, Some (filter.Errorf "One of operator ==, != is expected")).
Proof. vm_compute. reflexivity. Qed.

Example parseExprs_accepts :
  filter.parseExprs "constraint" ["constraint:Region==us-*"; "FOO=bar"; "constraint:node!=n1"]
  = (Some [filter.mkExpr "region" filter.EQ "us-*"; filter.mkExpr "node" filter.NOTEQ "n1"],
     None).
Proof. vm_compute. reflexivity. Qed.

(** ** [Validate] and [HasReschedulePolicy] *)

Lemma Validate_cases (c : cluster.ContainerConfig) :
  cluster.Validate c
  = match cluster.extractExprs c "reschedule-policies" with
    | [] => None
    | [policy] =>
        if String.eqb policy "restore" then None
        else if String.eqb policy "on-node-failure" then None
        else if String.eqb policy "off" then None
        else Some ("invalid reschedule policy: " ++ policy)%string
    | _ :: _ :: _ => Some "too many reschedule policies"
    end.
Proof.
  unfold cluster.Validate.
  destruct (cluster.extractExprs c "reschedule-policies") as [|p [|p' l]];
    [reflexivity| |reflexivity].
  cbn [length Nat.ltb Nat.leb Nat.eqb hd cluster.validReschedulePolicies fold_left].
  destruct (String.eqb p "restore"); [reflexivity|].
  destruct (String.eqb p "on-node-failure"); [reflexivity|].
  destruct (String.eqb p "off"); reflexivity.
Qed.

(** C7, as amended: [Validate] fails with [too many reschedule policies]
    when the list of reschedule policies has more than one entry; with
    exactly one policy it succeeds iff the policy is [off],
    [on-node-failure] or [restore]; and [HasReschedulePolicy] finds
    [on-node-failure] when the list holds it. *)
Theorem Validate_reschedule_policies (c : cluster.ContainerConfig) :
  (1 < length (cluster.extractExprs c "reschedule-policies") ->
   cluster.Validate c = Some "too many reschedule policies")
  /\ (forall policy,
         cluster.extractExprs c "reschedule-policies" = [policy] ->
         (cluster.Validate c = None
          <-> policy = "off" \/ policy = "on-node-failure" \/ policy = "restore"))
  /\ (forall policy,
         In policy (cluster.extractExprs c "reschedule-policies") ->
         cluster.HasReschedulePolicy c policy = true).
Proof.
  split; [|split].
  - rewrite Validate_cases.
    destruct (cluster.extractExprs c "reschedule-policies") as [|p [|p' l]];
      cbn [length]; intros H; [lia | lia | reflexivity].
  - intros policy H. rewrite Validate_cases, H.
    destruct (String.eqb_spec policy "restore") as [->|H1]; [tauto|].
    destruct (String.eqb_spec policy "on-node-failure") as [->|H2]; [tauto|].
    destruct (String.eqb_spec policy "off") as [->|H3]; [tauto|].
    split; [discriminate | intros [?|[?|?]]; contradiction].
  - intros policy H. unfold cluster.HasReschedulePolicy.
    apply existsb_exists. exists policy. split; [exact H | apply String.eqb_refl].
Qed.

Lemma Validate_reschedule_policies_witness :
  (1 < length (cluster.extractExprs (examples.withPolicies examples.twoPolicies)
                                    "reschedule-policies")
   /\ cluster.Validate (examples.withPolicies examples.twoPolicies)
      = Some "too many reschedule policies")
  /\ (cluster.extractExprs (examples.withPolicies examples.onNodeFailure)
                           "reschedule-policies" = ["on-node-failure"]
      /\ cluster.Validate (examples.withPolicies examples.onNodeFailure) = None
      /\ cluster.HasReschedulePolicy (examples.withPolicies examples.onNodeFailure)
                                     "on-node-failure" = true).
Proof.
  split.
  - split; [vm_compute; lia|].
    apply (proj1 (Validate_reschedule_policies (examples.withPolicies examples.twoPolicies))).
    vm_compute. lia.
  - split; [vm_compute; reflexivity|]. split.
    + apply (proj1 (proj2 (Validate_reschedule_policies
                             (examples.withPolicies examples.onNodeFailure)))
               "on-node-failure"); [vm_compute; reflexivity | tauto].
    + apply (proj2 (proj2 (Validate_reschedule_policies
                             (examples.withPolicies examples.onNodeFailure)))).
      vm_compute. tauto.
Defined.

(** C7 fails as stated: the single policy [restore] is neither [off] nor
    [on-node-failure], and [Validate] accepts it. *)
Lemma Validate_accepts_restore :
  cluster.extractExprs (examples.withPolicies examples.restore) "reschedule-policies"
  = ["restore"]
  /\ cluster.Validate (examples.withPolicies examples.restore) = None
  /\ "restore" <> "off" /\ "restore" <> "on-node-failure".
Proof. repeat split; try discriminate; vm_compute; reflexivity. Qed.

(** ** [BuildContainerConfig] *)

Lemma parseEnv_inv (e k v : string) :
  cluster.parseEnv e = (true, k, v) -> e = (k ++ ":" ++ v)%string.
Proof.
  unfold cluster.parseEnv, GoStrings.SplitN2.
  destruct (GoStrings.Index e ":") as [i|] eqn:Hi; [|discriminate].
  intros H. injection H as <- <-. apply (Index_split _ _ _ Hi).
Qed.

Lemma parseEnv_key (e prefix : string) :
  spec.has_prefix prefix e = false ->
  (let '(ok, key, _) := cluster.parseEnv e in ok && String.eqb key prefix) = false.
Proof.
  intros H. destruct (cluster.parseEnv e) as [[ok k] v] eqn:E.
  destruct ok; [|reflexivity]. cbn [andb].
  destruct (String.eqb_spec k prefix) as [->|]; [|reflexivity].
  apply parseEnv_inv in E. subst e.
  unfold spec.has_prefix in H.
  change (prefix ++ ":" ++ v)%string with (prefix ++ (":" ++ v))%string in H.
  rewrite <- H. symmetry.
  replace (prefix ++ ":" ++ v)%string with ((prefix ++ ":") ++ v)%string.
  - apply HasPrefix_app.
  - clear H. induction prefix as [|c p IH]; [reflexivity|].
    rewrite !append_cons. f_equal. exact IH.
Qed.

Lemma recognized_entry_inv (e : string) :
  spec.recognized_entry e = true ->
  exists prefix rest,
    In prefix ["affinity"; "constraint"; "reschedule"; "checkpoint-time"]
    /\ e = (prefix ++ ":" ++ rest)%string.
Proof.
  intros H. apply existsb_exists in H as ([prefix label] & Hin & Hp).
  cbn [fst] in Hp. unfold spec.has_prefix in Hp.
  apply HasPrefix_inv in Hp.
  exists prefix, (GoStrings.drop (String.length (prefix ++ ":")) e).
  split.
  - unfold spec.recognized in Hin. cbn [In] in *.
    destruct Hin as [H|[H|[H|[H|[]]]]]; injection H as <- _; tauto.
  - rewrite Hp at 1. clear.
    generalize (GoStrings.drop (String.length (prefix ++ ":")) e). intros rest.
    induction prefix as [|c p IH]; [reflexivity|].
    rewrite !append_cons. f_equal. exact IH.
Qed.

Lemma scanEnv_step (st : cluster.slices) (e : string) :
  cluster.scanEnv st e
  = cluster.mkSlices
      (cluster.affinities st ++ spec.payloads "affinity" [e])
      (cluster.constraints st ++ spec.payloads "constraint" [e])
      (cluster.reschedulePolicies st ++ spec.payloads "reschedule" [e])
      (cluster.checkpointTime st ++ spec.payloads "checkpoint-time" [e])
      (cluster.env st ++ List.filter (fun e => negb (spec.recognized_entry e)) [e]).
Proof.
  destruct (spec.recognized_entry e) eqn:R.
  - cbn [List.filter]. rewrite R. cbn [negb].
    apply recognized_entry_inv in R as (prefix & rest & Hin & ->).
    cbn [In] in Hin.
    destruct Hin as [<-|[<-|[<-|[<-|[]]]]];
      unfold spec.payloads, spec.has_prefix; cbn; rewrite !app_nil_r; reflexivity.
  - cbn [List.filter]. rewrite R. cbn [negb].
    unfold spec.recognized_entry, spec.recognized in R. cbn [existsb fst] in R.
    repeat (apply orb_false_elim in R as [? R]).
    unfold spec.payloads. cbn [List.filter].
    repeat match goal with
           | H : spec.has_prefix _ e = false |- _ => rewrite H
           end.
    cbn [map]. rewrite !app_nil_r.
    unfold cluster.scanEnv.
    pose proof (parseEnv_key e "affinity") as K1.
    pose proof (parseEnv_key e "constraint") as K2.
    pose proof (parseEnv_key e "reschedule") as K3.
    pose proof (parseEnv_key e "checkpoint-time") as K4.
    destruct (cluster.parseEnv e) as [[ok k] v].
    rewrite K1, K2, K3, K4 by assumption. reflexivity.
Qed.

Lemma payloads_cons (prefix e : string) (env : list string) :
  spec.payloads prefix (e :: env)
  = spec.payloads prefix [e] ++ spec.payloads prefix env.
Proof.
  unfold spec.payloads. cbn [List.filter].
  destruct (spec.has_prefix prefix e); reflexivity.
Qed.

Lemma fold_scanEnv (env : list string) (st : cluster.slices) :
  fold_left cluster.scanEnv env st
  = cluster.mkSlices
      (cluster.affinities st ++ spec.payloads "affinity" env)
      (cluster.constraints st ++ spec.payloads "constraint" env)
      (cluster.reschedulePolicies st ++ spec.payloads "reschedule" env)
      (cluster.checkpointTime st ++ spec.payloads "checkpoint-time" env)
      (cluster.env st ++ List.filter (fun e => negb (spec.recognized_entry e)) env).
Proof.
  revert st. induction env as [|e env IH]; intros st.
  - unfold spec.payloads. cbn [List.filter map fold_left].
    rewrite !app_nil_r. destruct st; reflexivity.
  - rewrite (payloads_cons "affinity"), (payloads_cons "constraint"),
      (payloads_cons "reschedule"), (payloads_cons "checkpoint-time").
    cbn [fold_left]. rewrite IH, scanEnv_step.
    cbn [cluster.affinities cluster.constraints cluster.reschedulePolicies
         cluster.checkpointTime cluster.env].
    rewrite <- !app_assoc. f_equal.
    cbn [List.filter]. destruct (negb (spec.recognized_entry e)); reflexivity.
Qed.

Lemma Marshal_no_error (values : list string) : snd (json.Marshal values) = None.
Proof. reflexivity. Qed.

Lemma storeLabel_lookup (name : string) (values : list string)
      (labels : gmap string string) (k : string) :
  cluster.storeLabel name values labels !! k
  = if decide (k = name)
    then match values with
         | [] => labels !! k
         | _ :: _ => Some (fst (json.Marshal values))
         end
    else labels !! k.
Proof.
  unfold cluster.storeLabel. destruct values as [|v values].
  - cbn [length Nat.ltb Nat.leb]. case_decide; reflexivity.
  - cbn [length Nat.ltb Nat.leb].
    pose proof (Marshal_no_error (v :: values)) as E.
    destruct (json.Marshal (v :: values)) as [text err]. cbn [fst snd] in *. subst err.
    case_decide as Hk.
    + subst k. apply lookup_insert_eq.
    + apply lookup_insert_ne. congruence.
Qed.

Lemma recognized_entry_iff (e : string) :
  spec.recognized_entry e = true
  <-> exists prefix payload,
      In prefix ["affinity"; "constraint"; "reschedule"; "checkpoint-time"]
      /\ e = (prefix ++ ":" ++ payload)%string.
Proof.
  split; [apply recognized_entry_inv|].
  intros (prefix & payload & Hin & ->). cbn [In] in Hin.
  destruct Hin as [<-|[<-|[<-|[<-|[]]]]]; reflexivity.
Qed.

(** C3: [BuildContainerConfig] removes from [Env] exactly the entries
    [<prefix>:<payload>] whose prefix is [affinity], [constraint],
    [reschedule] or [checkpoint-time], and keeps the other entries in their
    order; for each prefix the payloads removed are appended, in order, to
    the strings already held by the label of that prefix, and the label is
    set to the JSON array of the whole list (it is left alone when the
    list is empty); no other label changes; and no entry of the resulting
    [Env] has one of the four prefixes. *)
Theorem BuildContainerConfig_moves_env_to_labels
        (c : container.Config) (h : container.HostConfig) (n : network.NetworkingConfig) :
  let built := cluster.BuildContainerConfig c h n in
  container.Env (cluster.Config built)
  = List.filter (fun e => negb (spec.recognized_entry e)) (container.Env c)
  /\ (forall e,
         spec.recognized_entry e = true
         <-> exists prefix payload,
             In prefix ["affinity"; "constraint"; "reschedule"; "checkpoint-time"]
             /\ e = (prefix ++ ":" ++ payload)%string)
  /\ (forall prefix label,
         In (prefix, label) spec.recognized ->
         container.Labels (cluster.Config built) !! label
         = match cluster.labelStrings (container.Labels c) label
                 ++ spec.payloads prefix (container.Env c) with
           | [] => container.Labels c !! label
           | values => Some (fst (json.Marshal values))
           end)
  /\ (forall k, ~ In k (map snd spec.recognized) ->
                container.Labels (cluster.Config built) !! k = container.Labels c !! k)
  /\ (forall e prefix,
         In e (container.Env (cluster.Config built)) ->
         In prefix ["affinity"; "constraint"; "reschedule"; "checkpoint-time"] ->
         GoStrings.HasPrefix e (prefix ++ ":") = false)
  /\ container.Image (cluster.Config built) = container.Image c
  /\ container.Cmd (cluster.Config built) = container.Cmd c
  /\ cluster.HostConfig built = h
  /\ cluster.NetworkingConfig built = n.
Proof.
  intros built.
  assert (container.Env (cluster.Config built)
          = List.filter (fun e => negb (spec.recognized_entry e)) (container.Env c)) as HEnv.
  { unfold built, cluster.BuildContainerConfig.
    cbn [cluster.Config container.Env]. rewrite fold_scanEnv. reflexivity. }
  split; [exact HEnv|]. split; [exact recognized_entry_iff|].
  split; [|split; [|split]].
  - intros prefix label Hin.
    unfold built, cluster.BuildContainerConfig.
    cbn [cluster.Config container.Labels]. rewrite fold_scanEnv.
    cbn [cluster.affinities cluster.constraints cluster.reschedulePolicies
         cluster.checkpointTime].
    rewrite !storeLabel_lookup. label_names.
    unfold spec.recognized in Hin. cbn [In] in Hin.
    destruct Hin as [H|[H|[H|[H|[]]]]]; injection H as <- <-;
      repeat (case_decide; try discriminate; try (exfalso; congruence));
      match goal with
      | |- context [?a ++ ?b] => destruct (a ++ b); reflexivity
      end.
  - intros k Hk.
    unfold built, cluster.BuildContainerConfig.
    cbn [cluster.Config container.Labels]. rewrite !storeLabel_lookup. label_names.
    cbn [map snd spec.recognized In] in Hk.
    repeat (case_decide; [subst k; exfalso; apply Hk; tauto|]). reflexivity.
  - intros e prefix He Hp. rewrite HEnv in He.
    apply filter_In in He as [_ He]. apply negb_true_iff in He.
    unfold spec.recognized_entry, spec.recognized in He. cbn [existsb fst] in He.
    repeat (apply orb_false_elim in He as [? He]).
    cbn [In] in Hp. destruct Hp as [<-|[<-|[<-|[<-|[]]]]]; assumption.
  - repeat split.
Qed.

Lemma BuildContainerConfig_moves_env_to_labels_witness :
  In ("affinity", "com.docker.swarm.affinities") spec.recognized
  /\ container.Env (cluster.Config (cluster.BuildContainerConfig
                                      examples.request examples.hostConfig
                                      examples.networking))
     = ["FOO=bar"; "PATH=/bin:/usr/bin"]
  /\ container.Labels (cluster.Config (cluster.BuildContainerConfig
                                         examples.request examples.hostConfig
                                         examples.networking))
     !! "com.docker.swarm.affinities"
     = Some (fst (json.Marshal ["container!=db"; "container==redis"; "image==nginx"])).
Proof.
  pose proof (BuildContainerConfig_moves_env_to_labels
                examples.request examples.hostConfig examples.networking) as H.
  cbv zeta in H. destruct H as (HEnv & _ & HLabels & _).
  split; [left; reflexivity|]. split.
  - rewrite HEnv. vm_compute. reflexivity.
  - rewrite (HLabels "affinity" "com.docker.swarm.affinities"); [|left; reflexivity].
    vm_compute. reflexivity.
Defined.

Example BuildContainerConfig_request :
  let built := cluster.BuildContainerConfig examples.request examples.hostConfig
                                            examples.networking in
  container.Env (cluster.Config built) = ["FOO=bar"; "PATH=/bin:/usr/bin"]
  /\ cluster.extractExprs built "affinities"
     = ["container!=db"; "container==redis"; "image==nginx"]
  /\ cluster.extractExprs built "constraints" = ["region==us"]
  /\ cluster.extractExprs built "reschedule-policies" = ["off"]
  /\ cluster.extractExprs built "checkpoint-time" = [].
Proof. vm_compute. repeat split. Qed.

(** ** [Containers.Get] *)

Lemma fold_found (P : string -> bool) (names : list string) (found : bool) :
  fold_left (fun found name => if P name then true else found) names found
  = found || existsb P names.
Proof.
  revert found. induction names as [|name names IH]; intros found; cbn [fold_left existsb].
  - rewrite orb_false_r. reflexivity.
  - rewrite IH. destruct (P name), found; reflexivity.
Qed.

Lemma matchName_matches_name (IDOrName : string) (c : cluster.Container) :
  cluster.matchName IDOrName c = spec.matches_name IDOrName c.
Proof. unfold cluster.matchName. rewrite fold_found. reflexivity. Qed.

Lemma find_none_existsb {A : Type} (f : A -> bool) (l : list A) :
  existsb f l = false -> List.find f l = None.
Proof.
  induction l as [|a l IH]; [reflexivity|]. cbn [existsb List.find].
  destruct (f a); [discriminate | exact IH].
Qed.

Lemma length_nonzero (s : string) : s <> "" -> Nat.eqb (String.length s) 0 = false.
Proof. destruct s; [congruence | reflexivity]. Qed.

(** The lookup once the exact steps have found nothing. *)
Lemma Get_after_exact_steps (cs : cluster.Containers) (IDOrName : string) :
  IDOrName <> "" ->
  spec.matches_exactly IDOrName cs = false ->
  cluster.Get cs IDOrName
  = match List.filter (spec.matches_name IDOrName) cs with
    | [c] => Some c
    | _ :: _ :: _ => None
    | [] => match spec.prefix_candidates IDOrName cs with
            | [c] => Some c
            | _ => None
            end
    end.
Proof.
  intros Hq Hex. unfold spec.matches_exactly in Hex.
  apply orb_false_elim in Hex as [H1 H2].
  unfold cluster.Get. rewrite (length_nonzero _ Hq).
  rewrite (find_none_existsb _ _ H1), (find_none_existsb _ _ H2).
  rewrite (List.filter_ext _ _ (matchName_matches_name IDOrName)).
  destruct (List.filter (spec.matches_name IDOrName) cs) as [|a [|b l]];
    [|reflexivity|reflexivity].
  cbn [length Nat.eqb Nat.ltb Nat.leb app]. fold (spec.prefix_candidates IDOrName cs).
  destruct (spec.prefix_candidates IDOrName cs) as [|a [|b l]]; reflexivity.
Qed.

Lemma Get_empty (cs : cluster.Containers) : cluster.Get cs "" = None.
Proof. reflexivity. Qed.

(** C5, as amended: when no container has the query as its id, short id,
    swarm id or short swarm id, [Get] returns null if more than one
    container matches the query by name, and returns the container if
    exactly one does.  With a container named [web] on each of two
    engines, [Get("web")] is null and [Get("engine1/web")] is the
    container on [engine1]. *)
Theorem Get_by_name (cs : cluster.Containers) (IDOrName : string) :
  spec.matches_exactly IDOrName cs = false ->
  (1 < length (List.filter (spec.matches_name IDOrName) cs) ->
   cluster.Get cs IDOrName = None)
  /\ (forall c, IDOrName <> "" ->
                List.filter (spec.matches_name IDOrName) cs = [c] ->
                cluster.Get cs IDOrName = Some c)
  /\ cluster.Get [examples.web1; examples.web2] "web" = None
  /\ cluster.Get [examples.web1; examples.web2] "engine1/web" = Some examples.web1.
Proof.
  intros Hex. split; [|split; [|split]].
  - intros Hlen. destruct (String.eqb_spec IDOrName "") as [->|Hq]; [apply Get_empty|].
    rewrite (Get_after_exact_steps _ _ Hq Hex).
    destruct (List.filter (spec.matches_name IDOrName) cs) as [|a [|b l]];
      cbn [length] in Hlen; [lia | lia | reflexivity].
  - intros c Hq Hc. rewrite (Get_after_exact_steps _ _ Hq Hex), Hc. reflexivity.
  - vm_compute. reflexivity.
  - vm_compute. reflexivity.
Qed.

Lemma Get_by_name_witness :
  spec.matches_exactly "web" [examples.web1; examples.web2] = false
  /\ 1 < length (List.filter (spec.matches_name "web") [examples.web1; examples.web2])
  /\ cluster.Get [examples.web1; examples.web2] "web" = None.
Proof.
  split; [vm_compute; reflexivity|]. split; [vm_compute; lia|].
  apply (proj1 (Get_by_name [examples.web1; examples.web2] "web" eq_refl)).
  vm_compute. lia.
Defined.

(** C5 fails as stated: two containers are named by the query
    [1f0e3dad9990], and [Get] returns a third one, whose short id is the
    query. *)
Lemma Get_short_id_before_names :
  List.filter (spec.matches_name "1f0e3dad9990")
              [examples.web1; examples.alias1; examples.alias2]
  = [examples.alias1; examples.alias2]
  /\ cluster.Get [examples.web1; examples.alias1; examples.alias2] "1f0e3dad9990"
     = Some examples.web1.
Proof. split; vm_compute; reflexivity. Qed.

Lemma filter_In_cons {A : Type} (f : A -> bool) (l : list A) (a : A) :
  In a l -> f a = true -> exists b l', List.filter f l = b :: l'.
Proof.
  intros Hin Hf.
  destruct (List.filter f l) as [|b l'] eqn:E; [|eauto].
  assert (In a (List.filter f l)) as H by (apply filter_In; auto).
  rewrite E in H. destruct H.
Qed.

(** C10, as amended: when the query is not empty and neither the exact
    steps nor the names resolve it, the id-prefix matches and the
    swarm-id-prefix matches are put in one list and [Get] returns a
    container only if that list has exactly one element; so a query that
    is a prefix of both the id and the swarm id of one container yields
    null. *)
Theorem Get_prefix_steps_share_candidates (cs : cluster.Containers) (IDOrName : string) :
  IDOrName <> "" ->
  spec.matches_exactly IDOrName cs = false ->
  List.filter (spec.matches_name IDOrName) cs = [] ->
  cluster.Get cs IDOrName
  = match List.filter (cluster.matchIDPrefix IDOrName) cs
          ++ List.filter (cluster.matchSwarmIDPrefix IDOrName) cs with
    | [c] => Some c
    | _ => None
    end
  /\ (forall c, In c cs ->
                GoStrings.HasPrefix (cluster.container_ID c) IDOrName = true ->
                GoStrings.HasPrefix (cluster.SwarmID (cluster.container_Config c)) IDOrName = true ->
                cluster.Get cs IDOrName = None).
Proof.
  intros Hq Hex Hn.
  assert (cluster.Get cs IDOrName
          = match spec.prefix_candidates IDOrName cs with
            | [c] => Some c
            | _ => None
            end) as HGet.
  { rewrite (Get_after_exact_steps _ _ Hq Hex), Hn. reflexivity. }
  split; [exact HGet|].
  intros c Hin Hid Hsw. rewrite HGet. unfold spec.prefix_candidates.
  destruct (filter_In_cons (cluster.matchIDPrefix IDOrName) cs c Hin Hid) as (a & l1 & ->).
  destruct (filter_In_cons (cluster.matchSwarmIDPrefix IDOrName) cs c Hin Hsw) as (b & l2 & ->).
  destruct l1; reflexivity.
Qed.

Lemma Get_prefix_steps_share_candidates_witness :
  "c4c" <> ""
  /\ cluster.Get [examples.web1; examples.cache] "c4c" = None.
Proof.
  split; [discriminate|].
  apply (proj2 (Get_prefix_steps_share_candidates
                  [examples.web1; examples.cache] "c4c"
                  ltac:(discriminate) eq_refl eq_refl) examples.cache).
  - right. left. reflexivity.
  - vm_compute. reflexivity.
  - vm_compute. reflexivity.
Defined.

(** C10 fails as stated: [c4ca] is a prefix of the id and of the swarm id
    of a container, and [Get] returns it, because it is also its name. *)
Lemma Get_prefix_of_both_resolved_by_name :
  In examples.cache [examples.web1; examples.cache]
  /\ GoStrings.HasPrefix (cluster.container_ID examples.cache) "c4ca" = true
  /\ GoStrings.HasPrefix (cluster.SwarmID (cluster.container_Config examples.cache)) "c4ca"
     = true
  /\ cluster.Get [examples.web1; examples.cache] "c4ca" = Some examples.cache.
Proof. split; [right; left; reflexivity|]. repeat split; vm_compute; reflexivity. Qed.

Lemma lookup_finds (IdOrName : string) (cs : list coordinator.Container)
      (k : coordinator.Container) :
  In k cs ->
  GoStrings.HasPrefix (coordinator.VirtualId k) IdOrName = true ->
  exists k', coordinator.lookup IdOrName cs = Some k' /\ In k' cs.
Proof.
  intros Hin Hp. induction cs as [|a cs IH]; [destruct Hin|].
  cbn [coordinator.lookup].
  destruct (GoStrings.HasPrefix (coordinator.VirtualId a) IdOrName) eqn:Ha;
    [exists a; split; [reflexivity | left; reflexivity]|].
  destruct (existsb (coordinator.matchName IdOrName a) (coordinator.Names a));
    [exists a; split; [reflexivity | left; reflexivity]|].
  destruct Hin as [->|Hin]; [congruence|].
  destruct (IH Hin) as (k' & Hk & Hin'). exists k'. split; [exact Hk | right; exact Hin'].
Qed.

(** C6, as amended: the lookup of the empty string returns null, in
    [Containers.Get] and in [Cluster.Container].  No minimum length is
    imposed on an id prefix: a query that is not empty, whatever its
    length, and that matches exactly one container, as a prefix of its id
    only, resolves to that container; and [Cluster.Container] resolves
    every non-empty prefix of a virtual id. *)
Theorem lookup_empty_and_short_prefix :
  (forall cs : cluster.Containers, cluster.Get cs "" = None)
  /\ (forall (Store : Type) (c : coordinator.Cluster Store),
         coordinator.Cluster_Container c "" = None)
  /\ (forall (cs : cluster.Containers) (IDOrName : string) (c : cluster.Container),
         IDOrName <> "" ->
         spec.matches_exactly IDOrName cs = false ->
         List.filter (spec.matches_name IDOrName) cs = [] ->
         List.filter (cluster.matchIDPrefix IDOrName) cs = [c] ->
         List.filter (cluster.matchSwarmIDPrefix IDOrName) cs = [] ->
         cluster.Get cs IDOrName = Some c)
  /\ (forall (Store : Type) (c : coordinator.Cluster Store) (IdOrName : string)
             (k : coordinator.Container),
         IdOrName <> "" ->
         In k (coordinator.Cluster_Containers c) ->
         GoStrings.HasPrefix (coordinator.VirtualId k) IdOrName = true ->
         exists k', coordinator.Cluster_Container c IdOrName = Some k').
Proof.
  split; [|split; [|split]].
  - intros cs. reflexivity.
  - intros Store c. reflexivity.
  - intros cs q c Hq Hex Hn Hid Hsw.
    rewrite (Get_after_exact_steps _ _ Hq Hex), Hn.
    unfold spec.prefix_candidates. rewrite Hid, Hsw. reflexivity.
  - intros Store c q k Hq Hin Hp. unfold coordinator.Cluster_Container.
    rewrite (length_nonzero _ Hq).
    destruct (lookup_finds q _ k Hin Hp) as (k' & Hk & _). eauto.
Qed.

Lemma lookup_empty_and_short_prefix_witness :
  String.length "1f" = 2
  /\ cluster.Get [examples.web1; examples.web2] "1f" = Some examples.web1
  /\ exists k', coordinator.Cluster_Container examples.oneContainer "5d" = Some k'.
Proof.
  split; [reflexivity|]. split.
  - apply (proj1 (proj2 (proj2 lookup_empty_and_short_prefix))
             [examples.web1; examples.web2] "1f" examples.web1);
      [discriminate | vm_compute; reflexivity ..].
  - apply (proj2 (proj2 (proj2 lookup_empty_and_short_prefix))
             unit examples.oneContainer "5d" examples.db);
      [discriminate | vm_compute; left; reflexivity | vm_compute; reflexivity].
Defined.

(** C6 fails as stated: the query [1f], of length 2, matches a container
    as a prefix of its id and in no other way, and [Get] resolves it; so
    does [Cluster.Container] for the prefix [5d] of a virtual id. *)
Lemma short_prefix_resolves :
  String.length "1f" = 2
  /\ spec.matches_exactly "1f" [examples.web1; examples.web2] = false
  /\ List.filter (spec.matches_name "1f") [examples.web1; examples.web2] = []
  /\ List.filter (cluster.matchIDPrefix "1f") [examples.web1; examples.web2] = [examples.web1]
  /\ cluster.Get [examples.web1; examples.web2] "1f" = Some examples.web1
  /\ coordinator.Cluster_Container examples.oneContainer "5d" = Some examples.db.
Proof. repeat split; vm_compute; reflexivity. Qed.

(** ** [Cluster.AddNode] *)

Lemma assignVirtualId_nodes
      (Store : Type) (store_All : Store -> list coordinator.Container)
      (store_Replace store_Add : string -> coordinator.Container -> Store -> Store)
      (generateVirtualId : nat -> string)
      (c : coordinator.Cluster Store) (k : coordinator.Container) :
  coordinator.nodes
    (fst (coordinator.assignVirtualId Store store_All store_Replace store_Add
                                      generateVirtualId c k))
  = coordinator.nodes c.
Proof.
  unfold coordinator.assignVirtualId.
  destruct (List.find _ (store_All (coordinator.store c))); reflexivity.
Qed.

Lemma assignAll_nodes
      (Store : Type) (store_All : Store -> list coordinator.Container)
      (store_Replace store_Add : string -> coordinator.Container -> Store -> Store)
      (generateVirtualId : nat -> string)
      (cs : list coordinator.Container) (c : coordinator.Cluster Store) :
  coordinator.nodes
    (fst (coordinator.assignAll Store store_All store_Replace store_Add
                                generateVirtualId c cs))
  = coordinator.nodes c.
Proof.
  revert c. induction cs as [|k cs IH]; intros c; [reflexivity|].
  cbn [coordinator.assignAll].
  destruct (Nat.eqb (String.length (coordinator.VirtualId k)) 0).
  - pose proof (assignVirtualId_nodes Store store_All store_Replace store_Add
                                      generateVirtualId c k) as H.
    destruct (coordinator.assignVirtualId _ _ _ _ _ c k) as [c1 k']. cbn [fst] in H.
    pose proof (IH c1) as H1.
    destruct (coordinator.assignAll _ _ _ _ _ c1 cs) as [c2 cs'].
    cbn [fst] in *. congruence.
  - pose proof (IH c) as H1.
    destruct (coordinator.assignAll _ _ _ _ _ c cs) as [c2 cs']. exact H1.
Qed.

Lemma refreshContainers_nodes
      (Store : Type) (store_All : Store -> list coordinator.Container)
      (store_Replace store_Add : string -> coordinator.Container -> Store -> Store)
      (generateVirtualId : nat -> string)
      (n : coordinator.Node) (c : coordinator.Cluster Store) :
  coordinator.nodes
    (coordinator.refreshContainers Store store_All store_Replace store_Add
                                   generateVirtualId n c)
  = coordinator.nodes c.
Proof.
  unfold coordinator.refreshContainers.
  pose proof (assignAll_nodes Store store_All store_Replace store_Add generateVirtualId
                              (coordinator.Containers n) c) as H.
  destruct (coordinator.assignAll _ _ _ _ _ c (coordinator.Containers n)) as [c' cs].
  exact H.
Qed.

Lemma AddNode_nodes
      (Store : Type) (store_All : Store -> list coordinator.Container)
      (store_Replace store_Add : string -> coordinator.Container -> Store -> Store)
      (generateVirtualId : nat -> string)
      (n : coordinator.Node) (c : coordinator.Cluster Store) :
  coordinator.nodes
    (fst (coordinator.AddNode Store store_All store_Replace store_Add generateVirtualId n c))
  = if coordinator.IsConnected n
    then match coordinator.nodes c !! coordinator.ID n with
         | Some _ => coordinator.nodes c
         | None => <[coordinator.ID n := n]> (coordinator.nodes c)
         end
    else coordinator.nodes c.
Proof.
  unfold coordinator.AddNode.
  destruct (coordinator.IsConnected n); [|reflexivity]. cbn [negb].
  destruct (coordinator.nodes c !! coordinator.ID n); [reflexivity|].
  cbn [fst]. rewrite refreshContainers_nodes. reflexivity.
Qed.

Lemma AddNode_keyed_by_id
      (Store : Type) (store_All : Store -> list coordinator.Container)
      (store_Replace store_Add : string -> coordinator.Container -> Store -> Store)
      (generateVirtualId : nat -> string)
      (n : coordinator.Node) (c : coordinator.Cluster Store) :
  spec.keyed_by_id c ->
  spec.keyed_by_id
    (fst (coordinator.AddNode Store store_All store_Replace store_Add generateVirtualId n c)).
Proof.
  intros Hc k m. rewrite AddNode_nodes.
  destruct (coordinator.IsConnected n); [|apply Hc].
  destruct (coordinator.nodes c !! coordinator.ID n) eqn:E; [apply Hc|].
  destruct (decide (k = coordinator.ID n)) as [->|Hne].
  - rewrite lookup_insert_eq. intros [= <-]. reflexivity.
  - rewrite lookup_insert_ne by congruence. apply Hc.
Qed.

Lemma AddNodes_keyed_by_id
      (Store : Type) (store_All : Store -> list coordinator.Container)
      (store_Replace store_Add : string -> coordinator.Container -> Store -> Store)
      (generateVirtualId : nat -> string)
      (ns : list coordinator.Node) (c : coordinator.Cluster Store) :
  spec.keyed_by_id c ->
  spec.keyed_by_id
    (coordinator.AddNodes Store store_All store_Replace store_Add generateVirtualId ns c).
Proof.
  revert c. induction ns as [|n ns IH]; intros c Hc; [exact Hc|].
  cbn [coordinator.AddNodes fold_left]. apply IH, AddNode_keyed_by_id, Hc.
Qed.

Lemma keyed_by_id_NoDup (Store : Type) (c : coordinator.Cluster Store) :
  spec.keyed_by_id c -> NoDup (coordinator.ID <$> coordinator.Nodes c).
Proof.
  intros Hc. unfold coordinator.Nodes.
  assert (coordinator.ID <$> (snd <$> map_to_list (coordinator.nodes c))
          = fst <$> map_to_list (coordinator.nodes c)) as ->.
  { rewrite <- list_fmap_compose. apply list_fmap_ext.
    intros i [k n] Hl. cbn. apply Hc.
    apply elem_of_map_to_list. apply list_elem_of_lookup. eauto. }
  apply NoDup_fst_map_to_list.
Qed.

(** C9: [AddNode] returns [ErrNodeNotConnected] for a node that is not
    connected and [ErrNodeAlreadyRegistered] for a connected node whose id
    is already registered; the two errors differ; in both cases the
    cluster, and so the map of its nodes, is unchanged; and after any
    sequence of calls of [AddNode] on a new cluster every node is
    registered under its own id, so no two registered nodes share an id. *)
Theorem AddNode_errors_and_unique_ids
        (Store : Type) (store_All : Store -> list coordinator.Container)
        (store_Replace store_Add : string -> coordinator.Container -> Store -> Store)
        (generateVirtualId : nat -> string) :
  (forall n c,
      coordinator.IsConnected n = false ->
      coordinator.AddNode Store store_All store_Replace store_Add generateVirtualId n c
      = (c, Some coordinator.ErrNodeNotConnected))
  /\ (forall n c,
         coordinator.IsConnected n = true ->
         is_Some (coordinator.nodes c !! coordinator.ID n) ->
         coordinator.AddNode Store store_All store_Replace store_Add generateVirtualId n c
         = (c, Some coordinator.ErrNodeAlreadyRegistered))
  /\ coordinator.ErrNodeNotConnected <> coordinator.ErrNodeAlreadyRegistered
  /\ (forall ns st,
         let c := coordinator.AddNodes Store store_All store_Replace store_Add
                                       generateVirtualId ns (coordinator.NewCluster st) in
         (forall k n, coordinator.nodes c !! k = Some n -> coordinator.ID n = k)
         /\ NoDup (coordinator.ID <$> coordinator.Nodes c)).
Proof.
  split; [|split; [|split]].
  - intros n c H. unfold coordinator.AddNode. rewrite H. reflexivity.
  - intros n c H [m Hm]. unfold coordinator.AddNode. rewrite H, Hm. reflexivity.
  - discriminate.
  - intros ns st c.
    assert (spec.keyed_by_id c) as Hk.
    { apply AddNodes_keyed_by_id. intros k n H. cbn in H.
      rewrite lookup_empty in H. discriminate. }
    split; [exact Hk | apply keyed_by_id_NoDup, Hk].
Qed.

Lemma AddNode_errors_and_unique_ids_witness :
  let add := coordinator.AddNode unit examples.noContainers examples.keep examples.keep
                                 examples.numbered in
  let c := coordinator.AddNodes unit examples.noContainers examples.keep examples.keep
                                examples.numbered
                                [examples.node 1 "node1" true; examples.node 2 "node2" true]
                                (coordinator.NewCluster tt) in
  (coordinator.IsConnected (examples.node 3 "node3" false) = false
   /\ add (examples.node 3 "node3" false) c = (c, Some coordinator.ErrNodeNotConnected))
  /\ (is_Some (coordinator.nodes c !! "node1")
      /\ add (examples.node 4 "node1" true) c = (c, Some coordinator.ErrNodeAlreadyRegistered)).
Proof.
  intros add c.
  pose proof (AddNode_errors_and_unique_ids unit examples.noContainers examples.keep
                                            examples.keep examples.numbered)
    as (Hnc & Har & _).
  assert (is_Some (coordinator.nodes c !! "node1")) as Hreg.
  { exists (examples.node 1 "node1" true). vm_compute. reflexivity. }
  split; split.
  - reflexivity.
  - apply Hnc. reflexivity.
  - exact Hreg.
  - apply Har; [reflexivity | exact Hreg].
Defined.


(** * Further properties *)

(** ** [json.Marshal] and [json.Unmarshal] on ASCII strings *)

Lemma append_assoc (a b c : string) : ((a ++ b) ++ c)%string = (a ++ (b ++ c))%string.
Proof.
  induction a as [|x a IH]; [reflexivity|].
  rewrite !append_cons. f_equal. exact IH.
Qed.

Lemma string_literal_quoted_step (c : ascii) (s rest : string) :
  (N_of_ascii c <? 128)%N = true ->
  json.string_literal (json.quoted (String c s) 0 ++ rest) 0
  = json.cons_result (String c "") (json.string_literal (json.quoted s 0 ++ rest) 0).
Proof.
  destruct c as [[] [] [] [] [] [] [] []]; intros H;
    first [discriminate H | reflexivity].
Qed.

Lemma string_literal_quoted (s rest : string) :
  spec.ascii_text s = true ->
  json.string_literal (json.quoted s 0 ++ String json.quote rest) 0 = Some (s, rest).
Proof.
  induction s as [|c s IH]; intros H; [reflexivity|].
  cbn [spec.ascii_text spec.all_chars] in H. apply andb_prop in H as [Hc Hs].
  rewrite (string_literal_quoted_step c s _ Hc), (IH Hs). reflexivity.
Qed.

Lemma value_string (n : nat) (t : string) :
  json.value (S n) (String json.quote t)
  = match json.string_literal t 0 with
    | Some (s, rest) => Some (json.Str s, rest)
    | None => None
    end.
Proof. reflexivity. Qed.

Lemma value_array (n : nat) (t : string) :
  json.value (S n) (String "[" (String json.quote t))
  = match json.value n (String json.quote t) with
    | Some (v, rest) =>
        match json.elements n (json.skip_space rest) with
        | Some (vs, rest') => Some (json.Array (v :: vs), rest')
        | None => None
        end
    | None => None
    end.
Proof. reflexivity. Qed.

Lemma elements_comma (n : nat) (t : string) :
  json.elements (S n) (String "," t)
  = match json.value n (json.skip_space t) with
    | Some (v, rest) =>
        match json.elements n (json.skip_space rest) with
        | Some (vs, rest') => Some (v :: vs, rest')
        | None => None
        end
    | None => None
    end.
Proof. reflexivity. Qed.

Lemma quoteString_append (s rest : string) :
  (json.quoteString s ++ rest)%string
  = String json.quote (json.quoted s 0 ++ String json.quote rest).
Proof.
  unfold json.quoteString. rewrite append_cons, append_assoc, append_cons, append_nil.
  reflexivity.
Qed.

Lemma value_quoteString (n : nat) (s rest : string) :
  spec.ascii_text s = true ->
  json.value (S n) (json.quoteString s ++ rest) = Some (json.Str s, rest).
Proof.
  intros H. rewrite quoteString_append, value_string, (string_literal_quoted s rest H).
  reflexivity.
Qed.

Lemma skip_space_quoteString (s rest : string) :
  json.skip_space (json.quoteString s ++ rest) = (json.quoteString s ++ rest)%string.
Proof. rewrite quoteString_append. reflexivity. Qed.

Lemma skip_space_more_elements (values : list string) :
  json.skip_space (spec.more_elements values) = spec.more_elements values.
Proof. destruct values; reflexivity. Qed.

Lemma elements_more_elements (values : list string) (n : nat) :
  length values < n ->
  forallb spec.ascii_text values = true ->
  json.elements n (spec.more_elements values) = Some (map json.Str values, "").
Proof.
  revert n. induction values as [|v values IH]; intros n Hn Ha.
  - destruct n as [|n]; [lia | reflexivity].
  - cbn [forallb] in Ha. apply andb_prop in Ha as [Hv Ha].
    cbn [length] in Hn. destruct n as [|[|n]]; [lia | lia |].
    cbn [spec.more_elements]. rewrite append_cons, append_nil.
    rewrite elements_comma, skip_space_quoteString, (value_quoteString n v _ Hv).
    rewrite skip_space_more_elements, (IH (S n)) by (assumption || lia).
    reflexivity.
Qed.

Lemma join_more_elements (v : string) (values : list string) :
  (json.join (map json.quoteString (v :: values)) ++ "]")%string
  = (json.quoteString v ++ spec.more_elements values)%string.
Proof.
  revert v. induction values as [|w values IH]; intros v; [reflexivity|].
  change (json.join (map json.quoteString (v :: w :: values)))
    with (json.quoteString v ++ "," ++ json.join (map json.quoteString (w :: values)))%string.
  rewrite !append_assoc, IH. reflexivity.
Qed.

Lemma length_append (a b : string) :
  String.length (a ++ b) = String.length a + String.length b.
Proof.
  induction a as [|c a IH]; [reflexivity|].
  rewrite append_cons. cbn [String.length]. rewrite IH. reflexivity.
Qed.

Lemma length_more_elements (values : list string) :
  length values < String.length (spec.more_elements values).
Proof.
  induction values as [|v values IH]; [cbn; lia|].
  cbn [spec.more_elements length]. rewrite append_cons, append_nil.
  cbn [String.length]. rewrite length_append. lia.
Qed.

Lemma map_element_Str (values : list string) :
  map json.element (map json.Str values) = values
  /\ json.first_error (map json.Str values) = None.
Proof.
  induction values as [|v values [IH1 IH2]]; [split; reflexivity|].
  cbn [map json.element json.first_error json.type_error]. rewrite IH1, IH2.
  split; reflexivity.
Qed.

(** What [json.Marshal] writes for a list of ASCII strings, [json.Unmarshal]
    reads back as the same list, without an error. *)
Lemma Unmarshal_Marshal (values : list string) :
  forallb spec.ascii_text values = true ->
  json.Unmarshal (fst (json.Marshal values)) = (values, None).
Proof.
  intros Ha. destruct values as [|v values]; [reflexivity|].
  cbn [forallb] in Ha. apply andb_prop in Ha as [Hv Ha].
  unfold json.Marshal. cbn [fst]. rewrite append_cons, append_nil, join_more_elements.
  unfold json.Unmarshal, json.parse.
  assert (length values
          < String.length (json.quoteString v ++ spec.more_elements values)) as Hlen.
  { rewrite length_append. pose proof (length_more_elements values). lia. }
  rewrite quoteString_append in *.
  change (json.skip_space (String "[" ?t)) with (String "[" t).
  cbn [String.length] in *.
  match goal with
  | |- context [json.value ?f _] =>
      replace f with (S (S (f - 2))) by lia; set (n := f - 2) in *
  end.
  rewrite value_array, <- quoteString_append, (value_quoteString _ v _ Hv).
  rewrite skip_space_more_elements, elements_more_elements by (assumption || lia).
  cbn [json.skip_space].
  destruct (map_element_Str values) as [H1 H2].
  cbn [map json.element json.first_error json.type_error]. rewrite H1, H2. reflexivity.
Qed.

(** ** The labels of a [ContainerConfig]

    The methods that write a label are stated for a configuration whose
    map of labels is allocated (see [cluster.setLabel]). *)

Lemma append_inj (p a b : string) : (p ++ a)%string = (p ++ b)%string -> a = b.
Proof.
  induction p as [|c p IH]; [exact (fun H => H)|].
  rewrite !append_cons. intros H. injection H as H. exact (IH H).
Qed.

Lemma label_name_inj (k1 k2 : string) :
  (cluster.SwarmLabelNamespace ++ "." ++ k1)%string
  = (cluster.SwarmLabelNamespace ++ "." ++ k2)%string ->
  k1 = k2.
Proof. intros H. apply append_inj in H. apply append_inj in H. exact H. Qed.

Lemma extractExprs_setLabel (c : cluster.ContainerConfig) (key text key' : string) :
  cluster.extractExprs
    (cluster.setLabel (cluster.SwarmLabelNamespace ++ "." ++ key) text c) key'
  = if decide (key' = key) then fst (json.Unmarshal text) else cluster.extractExprs c key'.
Proof.
  unfold cluster.extractExprs, cluster.setLabel, cluster.labelStrings.
  cbn [cluster.Config container.Labels].
  case_decide as Hk.
  - subst key'. rewrite lookup_insert_eq. reflexivity.
  - rewrite lookup_insert_ne; [reflexivity|].
    intros H. apply label_name_inj in H. congruence.
Qed.

Lemma SwarmID_setLabel (c : cluster.ContainerConfig) (key text : string) :
  key <> "id" ->
  cluster.SwarmID (cluster.setLabel (cluster.SwarmLabelNamespace ++ "." ++ key) text c)
  = cluster.SwarmID c.
Proof.
  intros Hk. unfold cluster.SwarmID, cluster.setLabel.
  cbn [cluster.Config container.Labels].
  rewrite lookup_insert_ne; [reflexivity|].
  intros H. apply (label_name_inj key "id") in H. congruence.
Qed.

(** X1: [SetSwarmID] and [SwarmID] form a round trip: the id read is the id
    last set; setting it leaves the environment and every list of
    expressions (affinities, constraints, reschedule policies, and any key
    other than [id]) as they were. *)
Theorem SetSwarmID_SwarmID (c : cluster.ContainerConfig) (id id' : string) :
  cluster.SwarmID (cluster.SetSwarmID c id) = id
  /\ cluster.SetSwarmID (cluster.SetSwarmID c id') id = cluster.SetSwarmID c id
  /\ container.Env (cluster.Config (cluster.SetSwarmID c id))
     = container.Env (cluster.Config c)
  /\ (forall key, key <> "id" ->
                  cluster.extractExprs (cluster.SetSwarmID c id) key
                  = cluster.extractExprs c key).
Proof.
  split; [|split; [|split]].
  - unfold cluster.SwarmID, cluster.SetSwarmID, cluster.setLabel.
    cbn [cluster.Config container.Labels]. rewrite lookup_insert_eq. reflexivity.
  - unfold cluster.SetSwarmID, cluster.setLabel.
    cbn [cluster.Config cluster.HostConfig cluster.NetworkingConfig container.Labels
         container.Image container.Cmd container.Env].
    rewrite insert_insert_eq. reflexivity.
  - reflexivity.
  - intros key Hk. unfold cluster.SetSwarmID.
    change (cluster.SwarmLabelNamespace ++ ".id")%string
      with (cluster.SwarmLabelNamespace ++ "." ++ "id")%string.
    rewrite extractExprs_setLabel. case_decide; [contradiction | reflexivity].
Qed.

Lemma forallb_filter {A : Type} (P f : A -> bool) (l : list A) :
  forallb P l = true -> forallb P (List.filter f l) = true.
Proof.
  induction l as [|a l IH]; [reflexivity|]. cbn [forallb List.filter].
  intros H. apply andb_prop in H as [Ha Hl].
  destruct (f a); [cbn [forallb]; rewrite Ha|]; auto.
Qed.

Lemma read_setLabel_Marshal (c : cluster.ContainerConfig) (key : string)
      (values : list string) :
  forallb spec.ascii_text values = true ->
  cluster.extractExprs
    (cluster.setLabel (cluster.SwarmLabelNamespace ++ "." ++ key)
                      (fst (json.Marshal values)) c) key
  = values.
Proof.
  intros H. rewrite extractExprs_setLabel. case_decide; [|contradiction].
  rewrite (Unmarshal_Marshal _ H). reflexivity.
Qed.

Lemma forallb_snoc {A : Type} (P : A -> bool) (l : list A) (a : A) :
  forallb P l = true -> P a = true -> forallb P (l ++ [a]) = true.
Proof. intros Hl Ha. rewrite forallb_app, Hl. cbn. rewrite Ha. reflexivity. Qed.

Lemma Affinities_AddAffinity (c : cluster.ContainerConfig) (affinity : string) :
  forallb spec.ascii_text (cluster.Affinities c) = true ->
  spec.ascii_text affinity = true ->
  cluster.Affinities (fst (cluster.AddAffinity c affinity))
  = cluster.Affinities c ++ [affinity].
Proof.
  intros Hold Hnew. unfold cluster.AddAffinity, cluster.Affinities in *.
  change (cluster.SwarmLabelNamespace ++ ".affinities")%string
    with (cluster.SwarmLabelNamespace ++ "." ++ "affinities")%string.
  pose proof (read_setLabel_Marshal c "affinities" _ (forallb_snoc _ _ _ Hold Hnew)) as H.
  destruct (json.Marshal _) as [text [err|]] eqn:E;
    [unfold json.Marshal in E; discriminate | exact H].
Qed.

Lemma Affinities_RemoveAffinity (c : cluster.ContainerConfig) (affinity : string) :
  forallb spec.ascii_text (cluster.Affinities c) = true ->
  cluster.Affinities (fst (cluster.RemoveAffinity c affinity))
  = List.filter (fun a => negb (String.eqb a affinity)) (cluster.Affinities c).
Proof.
  intros Hold. unfold cluster.RemoveAffinity, cluster.Affinities in *.
  change (cluster.SwarmLabelNamespace ++ ".affinities")%string
    with (cluster.SwarmLabelNamespace ++ "." ++ "affinities")%string.
  pose proof (read_setLabel_Marshal c "affinities" _
                (forallb_filter _ (fun a => negb (String.eqb a affinity)) _ Hold)) as H.
  destruct (json.Marshal _) as [text [err|]] eqn:E;
    [unfold json.Marshal in E; discriminate | exact H].
Qed.

(** The three methods that rewrite a list of expressions store one label
    and return no error. *)
Lemma AddAffinity_setLabel (c : cluster.ContainerConfig) (affinity : string) :
  cluster.AddAffinity c affinity
  = (cluster.setLabel
       (cluster.SwarmLabelNamespace ++ "." ++ "affinities")
       (fst (json.Marshal (cluster.extractExprs c "affinities" ++ [affinity]))) c,
     None).
Proof.
  unfold cluster.AddAffinity.
  destruct (json.Marshal _) as [text [err|]] eqn:E;
    [unfold json.Marshal in E; discriminate | reflexivity].
Qed.

Lemma RemoveAffinity_setLabel (c : cluster.ContainerConfig) (affinity : string) :
  cluster.RemoveAffinity c affinity
  = (cluster.setLabel
       (cluster.SwarmLabelNamespace ++ "." ++ "affinities")
       (fst (json.Marshal (List.filter (fun a => negb (String.eqb a affinity))
                                       (cluster.extractExprs c "affinities")))) c,
     None).
Proof.
  unfold cluster.RemoveAffinity.
  destruct (json.Marshal _) as [text [err|]] eqn:E;
    [unfold json.Marshal in E; discriminate | reflexivity].
Qed.

Lemma AddConstraint_setLabel (c : cluster.ContainerConfig) (constraint : string) :
  cluster.AddConstraint c constraint
  = (cluster.setLabel
       (cluster.SwarmLabelNamespace ++ "." ++ "constraints")
       (fst (json.Marshal (cluster.extractExprs c "constraints" ++ [constraint]))) c,
     None).
Proof.
  unfold cluster.AddConstraint.
  destruct (json.Marshal _) as [text [err|]] eqn:E;
    [unfold json.Marshal in E; discriminate | reflexivity].
Qed.

(** Storing the label of one list of expressions leaves the environment,
    the swarm id and the other lists as they were. *)
Lemma setLabel_frame (c : cluster.ContainerConfig) (key text : string) :
  key <> "id" ->
  let c' := cluster.setLabel (cluster.SwarmLabelNamespace ++ "." ++ key) text c in
  container.Env (cluster.Config c') = container.Env (cluster.Config c)
  /\ cluster.SwarmID c' = cluster.SwarmID c
  /\ (forall key', key' <> key -> cluster.extractExprs c' key' = cluster.extractExprs c key').
Proof.
  intros Hk c'. split; [reflexivity|]. split; [apply SwarmID_setLabel, Hk|].
  intros key' Hk'. unfold c'. rewrite extractExprs_setLabel.
  case_decide; [contradiction | reflexivity].
Qed.

(** X2: [AddAffinity] never fails, whatever the expressions are, and it
    leaves the environment, the swarm id, the constraints and every other
    list of expressions as they were; for ASCII expressions the affinities
    read afterwards are the former ones followed by the new one
    (duplicates are kept). *)
Theorem AddAffinity_appends (c : cluster.ContainerConfig) (affinity : string) :
  snd (cluster.AddAffinity c affinity) = None
  /\ container.Env (cluster.Config (fst (cluster.AddAffinity c affinity)))
     = container.Env (cluster.Config c)
  /\ cluster.SwarmID (fst (cluster.AddAffinity c affinity)) = cluster.SwarmID c
  /\ cluster.Constraints (fst (cluster.AddAffinity c affinity)) = cluster.Constraints c
  /\ (forall key, key <> "affinities" ->
                  cluster.extractExprs (fst (cluster.AddAffinity c affinity)) key
                  = cluster.extractExprs c key)
  /\ (forallb spec.ascii_text (cluster.Affinities c) = true ->
      spec.ascii_text affinity = true ->
      cluster.Affinities (fst (cluster.AddAffinity c affinity))
      = cluster.Affinities c ++ [affinity]).
Proof.
  split; [rewrite AddAffinity_setLabel; reflexivity|].
  split; [|split; [|split; [|split]]];
    [rewrite AddAffinity_setLabel; cbn [fst];
     match goal with
     | |- context [cluster.setLabel _ ?text c] =>
         destruct (setLabel_frame c "affinities" text ltac:(discriminate))
           as (HEnv & HID & Hrest)
     end ..|].
  - exact HEnv.
  - exact HID.
  - apply Hrest. discriminate.
  - exact Hrest.
  - apply Affinities_AddAffinity.
Qed.

Lemma AddAffinity_appends_witness :
  cluster.Affinities (fst (cluster.AddAffinity examples.built "container!=cache"))
  = ["container!=db"; "container==redis"; "image==nginx"; "container!=cache"].
Proof.
  destruct (AddAffinity_appends examples.built "container!=cache")
    as (_ & _ & _ & _ & _ & H).
  rewrite H; vm_compute; reflexivity.
Defined.

Lemma filter_not_In (a : string) (l : list string) :
  ~ In a (List.filter (fun x => negb (String.eqb x a)) l).
Proof.
  intros H. apply filter_In in H as [_ H].
  rewrite String.eqb_refl in H. discriminate.
Qed.

Lemma filter_absent (a : string) (l : list string) :
  ~ In a l -> List.filter (fun x => negb (String.eqb x a)) l = l.
Proof.
  induction l as [|x l IH]; [reflexivity|]. intros H. cbn [List.filter].
  destruct (String.eqb_spec x a) as [->|Hne].
  - exfalso. apply H. left. reflexivity.
  - cbn [negb]. f_equal. apply IH. intros Hin. apply H. right. exact Hin.
Qed.

(** X3: [RemoveAffinity] never fails, whatever the expressions are, and it
    leaves the environment, the swarm id, the constraints and every other
    list of expressions as they were; for ASCII affinities the list read
    afterwards is the former list without the occurrences of the removed
    expression, in the same order, so the expression is no longer in it. *)
Theorem RemoveAffinity_removes (c : cluster.ContainerConfig) (affinity : string) :
  snd (cluster.RemoveAffinity c affinity) = None
  /\ container.Env (cluster.Config (fst (cluster.RemoveAffinity c affinity)))
     = container.Env (cluster.Config c)
  /\ cluster.SwarmID (fst (cluster.RemoveAffinity c affinity)) = cluster.SwarmID c
  /\ cluster.Constraints (fst (cluster.RemoveAffinity c affinity)) = cluster.Constraints c
  /\ (forall key, key <> "affinities" ->
                  cluster.extractExprs (fst (cluster.RemoveAffinity c affinity)) key
                  = cluster.extractExprs c key)
  /\ (forallb spec.ascii_text (cluster.Affinities c) = true ->
      cluster.Affinities (fst (cluster.RemoveAffinity c affinity))
      = List.filter (fun a => negb (String.eqb a affinity)) (cluster.Affinities c)
      /\ ~ In affinity (cluster.Affinities (fst (cluster.RemoveAffinity c affinity)))).
Proof.
  split; [rewrite RemoveAffinity_setLabel; reflexivity|].
  split; [|split; [|split; [|split]]];
    [rewrite RemoveAffinity_setLabel; cbn [fst];
     match goal with
     | |- context [cluster.setLabel _ ?text c] =>
         destruct (setLabel_frame c "affinities" text ltac:(discriminate))
           as (HEnv & HID & Hrest)
     end ..|].
  - exact HEnv.
  - exact HID.
  - apply Hrest. discriminate.
  - exact Hrest.
  - intros Hold. pose proof (Affinities_RemoveAffinity c affinity Hold) as HA.
    split; [exact HA | rewrite HA; apply filter_not_In].
Qed.

Lemma RemoveAffinity_removes_witness :
  cluster.Affinities (fst (cluster.RemoveAffinity examples.built "container==redis"))
  = ["container!=db"; "image==nginx"].
Proof.
  destruct (RemoveAffinity_removes examples.built "container==redis")
    as (_ & _ & _ & _ & _ & H).
  destruct H as [H _]; [vm_compute; reflexivity|].
  rewrite H. vm_compute. reflexivity.
Defined.

(** X4: removing an affinity that has just been added gives back the former
    list of affinities, when the expression was not in it (ASCII
    expressions). *)
Theorem RemoveAffinity_AddAffinity (c : cluster.ContainerConfig) (affinity : string) :
  forallb spec.ascii_text (cluster.Affinities c) = true ->
  spec.ascii_text affinity = true ->
  ~ In affinity (cluster.Affinities c) ->
  cluster.Affinities
    (fst (cluster.RemoveAffinity (fst (cluster.AddAffinity c affinity)) affinity))
  = cluster.Affinities c.
Proof.
  intros Hold Hnew Hnot.
  pose proof (Affinities_AddAffinity c affinity Hold Hnew) as Hadd.
  rewrite Affinities_RemoveAffinity
    by (rewrite Hadd; apply forallb_snoc; assumption).
  rewrite Hadd, List.filter_app, (filter_absent _ _ Hnot).
  cbn [List.filter]. rewrite String.eqb_refl. cbn [negb]. apply app_nil_r.
Qed.

Lemma RemoveAffinity_AddAffinity_witness :
  cluster.Affinities
    (fst (cluster.RemoveAffinity (fst (cluster.AddAffinity examples.built "image!=mysql"))
                                 "image!=mysql"))
  = ["container!=db"; "container==redis"; "image==nginx"].
Proof.
  rewrite (RemoveAffinity_AddAffinity examples.built "image!=mysql");
    [vm_compute; reflexivity | vm_compute; reflexivity | vm_compute; reflexivity |].
  vm_compute. intros [H|[H|[H|[]]]]; discriminate H.
Defined.

Lemma Constraints_AddConstraint (c : cluster.ContainerConfig) (constraint : string) :
  forallb spec.ascii_text (cluster.Constraints c) = true ->
  spec.ascii_text constraint = true ->
  cluster.Constraints (fst (cluster.AddConstraint c constraint))
  = cluster.Constraints c ++ [constraint].
Proof.
  intros Hold Hnew. unfold cluster.AddConstraint, cluster.Constraints in *.
  change (cluster.SwarmLabelNamespace ++ ".constraints")%string
    with (cluster.SwarmLabelNamespace ++ "." ++ "constraints")%string.
  pose proof (read_setLabel_Marshal c "constraints" _ (forallb_snoc _ _ _ Hold Hnew)) as H.
  destruct (json.Marshal _) as [text [err|]] eqn:E;
    [unfold json.Marshal in E; discriminate | exact H].
Qed.

(** X5: [AddConstraint] never fails, whatever the expressions are, and it
    leaves the environment, the swarm id, the affinities and every other
    list of expressions as they were; for ASCII expressions the
    constraints read afterwards are the former ones followed by the new
    one, and [HaveNodeConstraint] holds afterwards iff it held before or
    the new constraint starts with [node==] but not with [node==~]. *)
Theorem AddConstraint_appends (c : cluster.ContainerConfig) (constraint : string) :
  snd (cluster.AddConstraint c constraint) = None
  /\ container.Env (cluster.Config (fst (cluster.AddConstraint c constraint)))
     = container.Env (cluster.Config c)
  /\ cluster.SwarmID (fst (cluster.AddConstraint c constraint)) = cluster.SwarmID c
  /\ cluster.Affinities (fst (cluster.AddConstraint c constraint)) = cluster.Affinities c
  /\ (forall key, key <> "constraints" ->
                  cluster.extractExprs (fst (cluster.AddConstraint c constraint)) key
                  = cluster.extractExprs c key)
  /\ (forallb spec.ascii_text (cluster.Constraints c) = true ->
      spec.ascii_text constraint = true ->
      cluster.Constraints (fst (cluster.AddConstraint c constraint))
      = cluster.Constraints c ++ [constraint]
      /\ cluster.HaveNodeConstraint (fst (cluster.AddConstraint c constraint))
         = cluster.HaveNodeConstraint c
           || (GoStrings.HasPrefix constraint "node=="
               && negb (GoStrings.HasPrefix constraint "node==~"))).
Proof.
  split; [rewrite AddConstraint_setLabel; reflexivity|].
  split; [|split; [|split; [|split]]];
    [rewrite AddConstraint_setLabel; cbn [fst];
     match goal with
     | |- context [cluster.setLabel _ ?text c] =>
         destruct (setLabel_frame c "constraints" text ltac:(discriminate))
           as (HEnv & HID & Hrest)
     end ..|].
  - exact HEnv.
  - exact HID.
  - apply Hrest. discriminate.
  - exact Hrest.
  - intros Hold Hnew.
    pose proof (Constraints_AddConstraint c constraint Hold Hnew) as HC.
    split; [exact HC|].
    unfold cluster.HaveNodeConstraint. fold (cluster.Constraints c).
    fold (cluster.Constraints (fst (cluster.AddConstraint c constraint))).
    rewrite HC, existsb_app. cbn [existsb]. rewrite orb_false_r. reflexivity.
Qed.

Lemma AddConstraint_appends_witness :
  cluster.Constraints (fst (cluster.AddConstraint examples.built "node==node-1"))
  = ["region==us"; "node==node-1"]
  /\ cluster.HaveNodeConstraint (fst (cluster.AddConstraint examples.built "node==node-1"))
     = true.
Proof.
  destruct (AddConstraint_appends examples.built "node==node-1")
    as (_ & _ & _ & _ & _ & H).
  destruct H as [H1 H2]; [vm_compute; reflexivity | vm_compute; reflexivity |].
  rewrite H1, H2. split; vm_compute; reflexivity.
Defined.

(** ** [BuildContainerConfig], read back *)

Lemma Build_Env (c : container.Config) (h : container.HostConfig)
      (n : network.NetworkingConfig) :
  container.Env (cluster.Config (cluster.BuildContainerConfig c h n))
  = List.filter (fun e => negb (spec.recognized_entry e)) (container.Env c).
Proof.
  unfold cluster.BuildContainerConfig.
  cbn [cluster.Config container.Env]. rewrite fold_scanEnv. reflexivity.
Qed.

Lemma Build_label (c : container.Config) (h : container.HostConfig)
      (n : network.NetworkingConfig) (prefix label : string) :
  In (prefix, label) spec.recognized ->
  container.Labels (cluster.Config (cluster.BuildContainerConfig c h n)) !! label
  = match cluster.labelStrings (container.Labels c) label
          ++ spec.payloads prefix (container.Env c) with
    | [] => container.Labels c !! label
    | values => Some (fst (json.Marshal values))
    end.
Proof.
  intros Hin. unfold cluster.BuildContainerConfig.
  cbn [cluster.Config container.Labels]. rewrite fold_scanEnv.
  cbn [cluster.affinities cluster.constraints cluster.reschedulePolicies
       cluster.checkpointTime].
  rewrite !storeLabel_lookup. label_names.
  unfold spec.recognized in Hin. cbn [In] in Hin.
  destruct Hin as [H|[H|[H|[H|[]]]]]; injection H as <- <-;
    repeat (case_decide; try discriminate; try (exfalso; congruence));
    match goal with
    | |- context [?a ++ ?b] => destruct (a ++ b); reflexivity
    end.
Qed.

Lemma Build_read (c : container.Config) (h : container.HostConfig)
      (n : network.NetworkingConfig) (prefix key : string) :
  In (prefix, (cluster.SwarmLabelNamespace ++ "." ++ key)%string) spec.recognized ->
  forallb spec.ascii_text
          (cluster.labelStrings (container.Labels c)
                                (cluster.SwarmLabelNamespace ++ "." ++ key)
           ++ spec.payloads prefix (container.Env c)) = true ->
  cluster.extractExprs (cluster.BuildContainerConfig c h n) key
  = cluster.labelStrings (container.Labels c) (cluster.SwarmLabelNamespace ++ "." ++ key)
    ++ spec.payloads prefix (container.Env c).
Proof.
  intros Hin Ha. unfold cluster.extractExprs.
  unfold cluster.labelStrings at 1. rewrite (Build_label c h n prefix _ Hin).
  destruct (cluster.labelStrings (container.Labels c)
                                 (cluster.SwarmLabelNamespace ++ "." ++ key)
            ++ spec.payloads prefix (container.Env c)) as [|v values] eqn:E.
  - apply app_eq_nil in E as [E _]. exact E.
  - rewrite (Unmarshal_Marshal _ Ha). reflexivity.
Qed.

(** X6: what [BuildContainerConfig] moves from the environment can be read
    back: for ASCII expressions, [Affinities], [Constraints] and the lists
    of reschedule policies and checkpoint times of the configuration built
    are the strings the label held before followed by the payloads of the
    environment entries with the matching prefix, in order. *)
Theorem BuildContainerConfig_read_back
        (c : container.Config) (h : container.HostConfig) (n : network.NetworkingConfig)
        (prefix key : string) :
  In (prefix, key)
     [("affinity", "affinities"); ("constraint", "constraints");
      ("reschedule", "reschedule-policies"); ("checkpoint-time", "checkpoint-time")] ->
  forallb spec.ascii_text
          (cluster.extractExprs (cluster.mkContainerConfig c h n) key
           ++ spec.payloads prefix (container.Env c)) = true ->
  cluster.extractExprs (cluster.BuildContainerConfig c h n) key
  = cluster.extractExprs (cluster.mkContainerConfig c h n) key
    ++ spec.payloads prefix (container.Env c).
Proof.
  intros Hin Ha. apply (Build_read c h n prefix key); [|exact Ha].
  cbn [In] in Hin.
  destruct Hin as [H|[H|[H|[H|[]]]]]; injection H as <- <-; cbn; tauto.
Qed.

Lemma BuildContainerConfig_read_back_witness :
  cluster.Affinities examples.built
  = ["container!=db"; "container==redis"; "image==nginx"].
Proof.
  unfold cluster.Affinities, examples.built.
  rewrite (BuildContainerConfig_read_back examples.request examples.hostConfig
             examples.networking "affinity" "affinities");
    [vm_compute; reflexivity | left; reflexivity | vm_compute; reflexivity].
Defined.

Lemma payloads_filtered (prefix label : string) (env : list string) :
  In (prefix, label) spec.recognized ->
  spec.payloads prefix (List.filter (fun e => negb (spec.recognized_entry e)) env) = [].
Proof.
  intros Hin. unfold spec.payloads.
  induction env as [|e env IH]; [reflexivity|]. cbn [List.filter].
  destruct (spec.recognized_entry e) eqn:R; cbn [negb]; [exact IH|].
  cbn [List.filter].
  destruct (spec.has_prefix prefix e) eqn:Hp; [|exact IH].
  assert (spec.recognized_entry e = true) as R'.
  { apply existsb_exists. exists (prefix, label). split; [exact Hin | exact Hp]. }
  congruence.
Qed.

Lemma filter_idempotent {A : Type} (f : A -> bool) (l : list A) :
  List.filter f (List.filter f l) = List.filter f l.
Proof.
  induction l as [|a l IH]; [reflexivity|]. cbn [List.filter].
  destruct (f a) eqn:E; [cbn [List.filter]; rewrite E, IH|]; auto.
Qed.

Lemma storeLabel_same (name : string) (values : list string) (labels : gmap string string) :
  match values with
  | [] => True
  | _ :: _ => labels !! name = Some (fst (json.Marshal values))
  end ->
  cluster.storeLabel name values labels = labels.
Proof.
  unfold cluster.storeLabel. destruct values as [|v values]; [reflexivity|].
  intros H. cbn [length Nat.ltb Nat.leb].
  destruct (json.Marshal (v :: values)) as [text [err|]] eqn:E;
    [unfold json.Marshal in E; discriminate|].
  cbn [fst] in H. apply insert_id, H.
Qed.

Lemma Build_label_stored (c : container.Config) (h : container.HostConfig)
      (n : network.NetworkingConfig) (prefix label : string) :
  In (prefix, label) spec.recognized ->
  match cluster.labelStrings (container.Labels c) label
        ++ spec.payloads prefix (container.Env c) with
  | [] => True
  | _ :: _ =>
      container.Labels (cluster.Config (cluster.BuildContainerConfig c h n)) !! label
      = Some (fst (json.Marshal (cluster.labelStrings (container.Labels c) label
                                 ++ spec.payloads prefix (container.Env c))))
  end.
Proof.
  intros Hin. rewrite (Build_label c h n prefix label Hin).
  destruct (cluster.labelStrings (container.Labels c) label
            ++ spec.payloads prefix (container.Env c)); [exact I | reflexivity].
Qed.

(** X7: [BuildContainerConfig] is idempotent on ASCII expressions: building
    again from the configuration it returns changes nothing, neither the
    environment nor any label. *)
Theorem BuildContainerConfig_idempotent
        (c : container.Config) (h : container.HostConfig) (n : network.NetworkingConfig) :
  (forall prefix label,
      In (prefix, label) spec.recognized ->
      forallb spec.ascii_text
              (cluster.labelStrings (container.Labels c) label
               ++ spec.payloads prefix (container.Env c)) = true) ->
  cluster.BuildContainerConfig (cluster.Config (cluster.BuildContainerConfig c h n)) h n
  = cluster.BuildContainerConfig c h n.
Proof.
  intros Ha.
  set (b := cluster.BuildContainerConfig c h n).
  assert (forall prefix key,
             In (prefix, (cluster.SwarmLabelNamespace ++ "." ++ key)%string)
                spec.recognized ->
             cluster.labelStrings (container.Labels (cluster.Config b))
                                  (cluster.SwarmLabelNamespace ++ "." ++ key)
             = cluster.labelStrings (container.Labels c)
                                    (cluster.SwarmLabelNamespace ++ "." ++ key)
               ++ spec.payloads prefix (container.Env c)) as Hread.
  { intros prefix key Hin.
    apply (Build_read c h n prefix key Hin), (Ha _ _ Hin). }
  assert (forall prefix label,
             In (prefix, label) spec.recognized ->
             spec.payloads prefix (container.Env (cluster.Config b)) = []) as Hpay.
  { intros prefix label Hin. unfold b. rewrite Build_Env.
    apply (payloads_filtered prefix label _ Hin). }
  unfold cluster.BuildContainerConfig at 1. rewrite fold_scanEnv.
  cbn [cluster.affinities cluster.constraints cluster.reschedulePolicies
       cluster.checkpointTime cluster.env].
  rewrite (Hpay "affinity" _ ltac:(left; reflexivity)).
  rewrite (Hpay "constraint" _ ltac:(right; left; reflexivity)).
  rewrite (Hpay "reschedule" _ ltac:(right; right; left; reflexivity)).
  rewrite (Hpay "checkpoint-time" _ ltac:(right; right; right; left; reflexivity)).
  rewrite !app_nil_r.
  change (cluster.SwarmLabelNamespace ++ ".affinities")%string
    with (cluster.SwarmLabelNamespace ++ "." ++ "affinities")%string.
  change (cluster.SwarmLabelNamespace ++ ".constraints")%string
    with (cluster.SwarmLabelNamespace ++ "." ++ "constraints")%string.
  change (cluster.SwarmLabelNamespace ++ ".reschedule-policies")%string
    with (cluster.SwarmLabelNamespace ++ "." ++ "reschedule-policies")%string.
  change (cluster.SwarmLabelNamespace ++ ".checkpoint-time")%string
    with (cluster.SwarmLabelNamespace ++ "." ++ "checkpoint-time")%string.
  rewrite (Hread "affinity" "affinities" ltac:(left; reflexivity)).
  rewrite (Hread "constraint" "constraints" ltac:(right; left; reflexivity)).
  rewrite (Hread "reschedule" "reschedule-policies" ltac:(right; right; left; reflexivity)).
  rewrite (Hread "checkpoint-time" "checkpoint-time"
                 ltac:(right; right; right; left; reflexivity)).
  subst b. label_names.
  rewrite (storeLabel_same _ _ _
             (Build_label_stored c h n "affinity" _ ltac:(left; reflexivity))).
  rewrite (storeLabel_same _ _ _
             (Build_label_stored c h n "constraint" _ ltac:(right; left; reflexivity))).
  rewrite (storeLabel_same _ _ _
             (Build_label_stored c h n "reschedule" _
                                 ltac:(right; right; left; reflexivity))).
  rewrite (storeLabel_same _ _ _
             (Build_label_stored c h n "checkpoint-time" _
                                 ltac:(right; right; right; left; reflexivity))).
  rewrite (Build_Env c h n), filter_idempotent, <- (Build_Env c h n).
  reflexivity.
Qed.

Lemma BuildContainerConfig_idempotent_witness :
  cluster.BuildContainerConfig (cluster.Config examples.built) examples.hostConfig
                               examples.networking
  = examples.built.
Proof.
  apply (BuildContainerConfig_idempotent examples.request examples.hostConfig
                                         examples.networking).
  intros prefix label Hin. unfold spec.recognized in Hin. cbn [In] in Hin.
  destruct Hin as [H|[H|[H|[H|[]]]]]; injection H as <- <-; vm_compute; reflexivity.
Defined.

(** X8: validation after building: for ASCII policies, the configuration
    built is valid iff the reschedule policies of the label and of the
    environment together are at most one and that one is [off],
    [on-node-failure] or [restore]; and [HasReschedulePolicy] holds exactly
    for the policies given by the label or by a [reschedule:] entry. *)
Theorem Validate_BuildContainerConfig
        (c : container.Config) (h : container.HostConfig) (n : network.NetworkingConfig) :
  let policies :=
    cluster.extractExprs (cluster.mkContainerConfig c h n) "reschedule-policies"
    ++ spec.payloads "reschedule" (container.Env c) in
  forallb spec.ascii_text policies = true ->
  (cluster.Validate (cluster.BuildContainerConfig c h n) = None
   <-> length policies <= 1
       /\ forall p, In p policies -> In p cluster.validReschedulePolicies)
  /\ (forall p, cluster.HasReschedulePolicy (cluster.BuildContainerConfig c h n) p = true
                <-> In p policies).
Proof.
  intros policies Ha.
  assert (cluster.extractExprs (cluster.BuildContainerConfig c h n) "reschedule-policies"
          = policies) as Hread.
  { apply (Build_read c h n "reschedule" "reschedule-policies"); [|exact Ha].
    right. right. left. reflexivity. }
  split.
  - rewrite Validate_cases, Hread. unfold cluster.validReschedulePolicies.
    destruct policies as [|p [|p' l]].
    + split; [intros _; split; [cbn; lia | intros p []] | reflexivity].
    + destruct (String.eqb_spec p "restore") as [->|H1];
        [split; [intros _; split; [cbn; lia | intros q [<-|[]]; cbn; tauto] | reflexivity]|].
      destruct (String.eqb_spec p "on-node-failure") as [->|H2];
        [split; [intros _; split; [cbn; lia | intros q [<-|[]]; cbn; tauto] | reflexivity]|].
      destruct (String.eqb_spec p "off") as [->|H3];
        [split; [intros _; split; [cbn; lia | intros q [<-|[]]; cbn; tauto] | reflexivity]|].
      split; [discriminate|]. intros [_ H]. specialize (H p (or_introl eq_refl)).
      cbn [In] in H. destruct H as [H|[H|[H|[]]]]; congruence.
    + split; [discriminate|]. intros [H _]. cbn [length] in H. lia.
  - intros p. unfold cluster.HasReschedulePolicy. rewrite Hread, existsb_exists.
    split.
    + intros (x & Hin & Hx). apply String.eqb_eq in Hx. subst x. exact Hin.
    + intros Hin. exists p. split; [exact Hin | apply String.eqb_refl].
Qed.

Lemma Validate_BuildContainerConfig_witness :
  cluster.Validate examples.built = None
  /\ cluster.HasReschedulePolicy examples.built "off" = true.
Proof.
  pose proof (Validate_BuildContainerConfig examples.request examples.hostConfig
                                            examples.networking) as H.
  cbv zeta in H. destruct H as [H1 H2]; [vm_compute; reflexivity|].
  split.
  - apply H1. split; [vm_compute; lia|].
    vm_compute. intros p [<-|[]]. tauto.
  - apply H2. vm_compute. tauto.
Defined.

(** ** [parseEnv] *)

Lemma take_app (k x : string) : GoStrings.take (String.length k) (k ++ x) = k.
Proof.
  induction k as [|c k IH]; [destruct x; reflexivity|].
  rewrite append_cons. cbn [String.length GoStrings.take]. rewrite IH. reflexivity.
Qed.

Lemma drop_app (k x : string) : GoStrings.drop (String.length k) (k ++ x) = x.
Proof.
  induction k as [|c k IH]; [reflexivity|].
  rewrite append_cons. cbn [String.length GoStrings.drop]. exact IH.
Qed.

Lemma HasPrefix_take (n : nat) (s sep : string) :
  GoStrings.HasPrefix (GoStrings.take n s) sep = true -> GoStrings.HasPrefix s sep = true.
Proof.
  revert n s. induction sep as [|c sep IH]; intros n s H; [reflexivity|].
  destruct n as [|n]; [destruct s; discriminate H|].
  destruct s as [|d s]; [discriminate H|].
  cbn [GoStrings.take GoStrings.HasPrefix] in *.
  apply andb_prop in H as [Hc Hs]. rewrite Hc. exact (IH n s Hs).
Qed.

(** The part before the first occurrence of a separator does not contain
    the separator. *)
Lemma Index_take (s sep : string) (i : nat) :
  sep <> "" ->
  GoStrings.Index s sep = Some i ->
  GoStrings.Index (GoStrings.take i s) sep = None.
Proof.
  intros Hsep. revert i. induction s as [|c s IH]; intros i H.
  - cbn [GoStrings.Index] in H.
    destruct (GoStrings.HasPrefix "" sep) eqn:Hp; [|discriminate].
    destruct sep; [congruence | discriminate Hp].
  - cbn [GoStrings.Index] in H.
    destruct (GoStrings.HasPrefix (String c s) sep) eqn:Hp.
    + injection H as <-. cbn [GoStrings.take GoStrings.Index].
      destruct sep; [congruence | reflexivity].
    + destruct (GoStrings.Index s sep) as [j|] eqn:Hj; [|discriminate].
      injection H as <-. cbn [GoStrings.take GoStrings.Index].
      destruct (GoStrings.HasPrefix (String c (GoStrings.take j s)) sep) eqn:Hp'.
      * apply (HasPrefix_take (S j) (String c s)) in Hp'. congruence.
      * rewrite (IH j eq_refl). reflexivity.
Qed.

Lemma Index_colon (k v : string) :
  GoStrings.Index k ":" = None ->
  GoStrings.Index (k ++ ":" ++ v) ":" = Some (String.length k).
Proof.
  induction k as [|c k IH]; intros H; [reflexivity|].
  rewrite append_cons. cbn [GoStrings.Index GoStrings.HasPrefix] in *.
  destruct (Ascii.eqb ":" c); [discriminate H|]. cbn [andb] in *.
  destruct (GoStrings.Index k ":") eqn:Hk; [discriminate H|].
  rewrite (IH eq_refl). reflexivity.
Qed.

(** X9: [parseEnv] splits an entry at its first colon and nowhere else:
    it returns [(true, k, v)] exactly when the entry is [k:v] and [k] holds
    no colon, and it returns [(false, "", "")] exactly when the entry holds
    no colon. *)
Theorem parseEnv_first_colon (e : string) :
  (forall k v, cluster.parseEnv e = (true, k, v)
               <-> e = (k ++ ":" ++ v)%string /\ GoStrings.Contains k ":" = false)
  /\ (cluster.parseEnv e = (false, "", "") <-> GoStrings.Contains e ":" = false).
Proof.
  split.
  - intros k v. split.
    + intros H. split; [apply parseEnv_inv, H|].
      unfold cluster.parseEnv, GoStrings.SplitN2 in H.
      destruct (GoStrings.Index e ":") as [i|] eqn:Hi; [|discriminate].
      injection H as <- _. unfold GoStrings.Contains.
      rewrite (Index_take e ":" i) by (assumption || discriminate). reflexivity.
    + intros [-> Hk]. unfold GoStrings.Contains in Hk.
      destruct (GoStrings.Index k ":") eqn:Hi; [discriminate|].
      unfold cluster.parseEnv, GoStrings.SplitN2. rewrite (Index_colon k v Hi).
      rewrite take_app.
      replace (String.length k + String.length ":") with (String.length (k ++ ":"))
        by (rewrite length_append; reflexivity).
      rewrite <- (append_assoc k ":" v), drop_app. reflexivity.
  - unfold cluster.parseEnv, GoStrings.SplitN2, GoStrings.Contains.
    destruct (GoStrings.Index e ":"); split; (discriminate || reflexivity).
Qed.

(** ** [ConsolidateResourceFields] *)

(** X10: [ConsolidateResourceFields] lets a legacy resource field win over
    the field of the host configuration exactly when the legacy field is
    set (not zero, not the empty string); it changes nothing else, and
    applying it twice is the same as applying it once. *)
Theorem ConsolidateResourceFields_legacy_wins (c : cluster.OldContainerConfig) :
  let r := cluster.ConsolidateResourceFields c in
  let h := cluster.HostConfig (cluster.embedded c) in
  let h' := cluster.HostConfig (cluster.embedded r) in
  container.Memory h'
  = (if Z.eqb (cluster.Memory c) 0 then container.Memory h else cluster.Memory c)
  /\ container.MemorySwap h'
     = (if Z.eqb (cluster.MemorySwap c) 0 then container.MemorySwap h
        else cluster.MemorySwap c)
  /\ container.CPUShares h'
     = (if Z.eqb (cluster.CPUShares c) 0 then container.CPUShares h else cluster.CPUShares c)
  /\ container.CpusetCpus h'
     = (if String.eqb (cluster.CPUSet c) "" then container.CpusetCpus h else cluster.CPUSet c)
  /\ cluster.Config (cluster.embedded r) = cluster.Config (cluster.embedded c)
  /\ cluster.NetworkingConfig (cluster.embedded r)
     = cluster.NetworkingConfig (cluster.embedded c)
  /\ (cluster.Memory r, cluster.MemorySwap r, cluster.CPUShares r, cluster.CPUSet r)
     = (cluster.Memory c, cluster.MemorySwap c, cluster.CPUShares c, cluster.CPUSet c)
  /\ cluster.ConsolidateResourceFields r = r.
Proof.
  destruct c as [[cfg [m s p u] n] M S P U].
  unfold cluster.ConsolidateResourceFields.
  cbn [cluster.embedded cluster.HostConfig cluster.Config cluster.NetworkingConfig
       cluster.Memory cluster.MemorySwap cluster.CPUShares cluster.CPUSet
       container.Memory container.MemorySwap container.CPUShares container.CpusetCpus].
  cbv zeta.
  cbn [cluster.embedded cluster.HostConfig cluster.Config cluster.NetworkingConfig
       cluster.Memory cluster.MemorySwap cluster.CPUShares cluster.CPUSet
       container.Memory container.MemorySwap container.CPUShares container.CpusetCpus].
  destruct (Z.eqb_spec M m), (Z.eqb_spec M 0), (Z.eqb_spec S s), (Z.eqb_spec S 0),
    (Z.eqb_spec P p), (Z.eqb_spec P 0), (String.eqb_spec U u), (String.eqb_spec U "");
    cbn [negb]; subst;
    rewrite ?Z.eqb_refl, ?String.eqb_refl; cbn [negb];
    repeat match goal with
           | H : ?a <> ?b |- context [Z.eqb ?a ?b] =>
               rewrite (proj2 (Z.eqb_neq a b) H)
           | H : ?a <> ?b |- context [String.eqb ?a ?b] =>
               rewrite (proj2 (String.eqb_neq a b) H)
           end; cbn [negb];
    repeat split; reflexivity.
Qed.

Example ConsolidateResourceFields_legacy :
  cluster.HostConfig (cluster.embedded (cluster.ConsolidateResourceFields examples.legacy))
  = container.mkHostConfig 1024 512 2 "0-3".
Proof. vm_compute. reflexivity. Qed.

(** ** [parseExprs]: what it returns *)

Lemma scanOperators_parsed (entry : string) (x : filter.expr) :
  filter.scanOperators entry 0 filter.OPERATORS = inr x -> spec.parsed entry x.
Proof.
  unfold filter.OPERATORS. cbn [filter.scanOperators].
  destruct (GoStrings.Contains entry "==") eqn:H1.
  - destruct (Contains_SplitN2 _ _ H1) as (p0 & p1 & -> & Heq). cbn [hd].
    rewrite MatchString_key_pattern.
    destruct (spec.key_valid p0) eqn:Hk; [|discriminate].
    rewrite MatchString_value_pattern.
    destruct (spec.value_valid p1) eqn:Hv; [|discriminate].
    intros [= <-]. exists p0. cbn [filter.operator filter.value filter.key].
    rewrite <- key_valid_well_formed, <- value_valid_well_formed.
    split; [exact Heq|]. split; [left; reflexivity|]. auto.
  - destruct (GoStrings.Contains entry "!=") eqn:H2; [|discriminate].
    destruct (Contains_SplitN2 _ _ H2) as (p0 & p1 & -> & Heq). cbn [hd].
    rewrite MatchString_key_pattern.
    destruct (spec.key_valid p0) eqn:Hk; [|discriminate].
    rewrite MatchString_value_pattern.
    destruct (spec.value_valid p1) eqn:Hv; [|discriminate].
    intros [= <-]. exists p0. cbn [filter.operator filter.value filter.key].
    rewrite <- key_valid_well_formed, <- value_valid_well_formed.
    split; [exact Heq|]. split; [right; split; [reflexivity | exact H1]|]. auto.
Qed.

Lemma scanOperators_good_entry (entry : string) :
  spec.bad_entry entry = false ->
  exists x, filter.scanOperators entry 0 filter.OPERATORS = inr x.
Proof.
  unfold spec.bad_entry, spec.split_operator, filter.OPERATORS.
  cbn [List.find filter.scanOperators].
  destruct (GoStrings.Contains entry "==") eqn:H1.
  - destruct (Contains_SplitN2 _ _ H1) as (p0 & p1 & -> & _).
    cbn [nth hd]. rewrite MatchString_key_pattern.
    destruct (spec.key_valid p0); [|discriminate].
    rewrite MatchString_value_pattern.
    destruct (spec.value_valid p1); [eauto | discriminate].
  - destruct (GoStrings.Contains entry "!=") eqn:H2; [|discriminate].
    destruct (Contains_SplitN2 _ _ H2) as (p0 & p1 & -> & _).
    cbn [nth hd]. rewrite MatchString_key_pattern.
    destruct (spec.key_valid p0); [|discriminate].
    rewrite MatchString_value_pattern.
    destruct (spec.value_valid p1); [eauto | discriminate].
Qed.

(** The expressions collected so far are kept in front of the new ones. *)
Lemma parseLoop_acc (key : string) (env : list string) (acc : list filter.expr) :
  filter.parseLoop key env acc
  = match filter.parseLoop key env [] with
    | (Some xs, err) => (Some (acc ++ xs), err)
    | (None, err) => (None, err)
    end.
Proof.
  revert acc. induction env as [|e env IH]; intros acc.
  - cbn [filter.parseLoop]. rewrite app_nil_r. reflexivity.
  - cbn [filter.parseLoop].
    destruct (GoStrings.HasPrefix e (key ++ ":")); [|apply IH].
    destruct (filter.scanOperators _ 0 filter.OPERATORS) as [err|x]; [reflexivity|].
    rewrite (IH (acc ++ [x])), (IH ([] ++ [x])).
    destruct (filter.parseLoop key env []) as [[xs|] err]; [|reflexivity].
    rewrite <- app_assoc. reflexivity.
Qed.

Lemma TrimPrefix_payload (key e : string) :
  spec.has_prefix key e = true ->
  GoStrings.TrimPrefix e (key ++ ":") = GoStrings.drop (String.length key + 1) e.
Proof.
  unfold spec.has_prefix, GoStrings.TrimPrefix. intros ->.
  rewrite length_append. reflexivity.
Qed.

Lemma parseExprs_cons (key e : string) (env : list string) :
  filter.parseExprs key (e :: env)
  = if spec.has_prefix key e then
      match filter.scanOperators (GoStrings.drop (String.length key + 1) e) 0
                                 filter.OPERATORS with
      | inl err => (None, Some err)
      | inr x =>
          match filter.parseExprs key env with
          | (Some xs, err) => (Some (x :: xs), err)
          | (None, err) => (None, err)
          end
      end
    else filter.parseExprs key env.
Proof.
  unfold filter.parseExprs. cbn [filter.parseLoop].
  fold (spec.has_prefix key e).
  destruct (spec.has_prefix key e) eqn:Hp; [|reflexivity].
  rewrite (TrimPrefix_payload key e Hp).
  destruct (filter.scanOperators _ 0 filter.OPERATORS) as [err|x]; [reflexivity|].
  rewrite parseLoop_acc. reflexivity.
Qed.

Lemma payloads_step (key e : string) (env : list string) :
  spec.payloads key (e :: env)
  = if spec.has_prefix key e
    then GoStrings.drop (String.length key + 1) e :: spec.payloads key env
    else spec.payloads key env.
Proof.
  unfold spec.payloads. cbn [List.filter].
  destruct (spec.has_prefix key e); reflexivity.
Qed.

(** [parseExprs] returns a list or an error, never both and never
    neither. *)
Lemma parseExprs_shape (key : string) (env : list string) :
  (exists exprs, filter.parseExprs key env = (Some exprs, None))
  \/ (exists err, filter.parseExprs key env = (None, Some err)).
Proof.
  induction env as [|e env IH]; [left; eexists; reflexivity|].
  rewrite parseExprs_cons.
  destruct (spec.has_prefix key e); [|exact IH].
  destruct (filter.scanOperators _ 0 filter.OPERATORS) as [err|x]; [right; eauto|].
  destruct IH as [[xs ->]|[err ->]]; [left | right]; eauto.
Qed.

Lemma parseExprs_parsed (key : string) (env : list string) (exprs : list filter.expr) :
  filter.parseExprs key env = (Some exprs, None) ->
  Forall2 spec.parsed (spec.payloads key env) exprs.
Proof.
  revert exprs. induction env as [|e env IH]; intros exprs.
  - intros [= <-]. constructor.
  - rewrite parseExprs_cons, payloads_step.
    destruct (spec.has_prefix key e); [|apply IH].
    destruct (filter.scanOperators _ 0 filter.OPERATORS) as [err|x] eqn:Hx; [discriminate|].
    destruct (filter.parseExprs key env) as [[xs|] err]; [|discriminate].
    intros [= <- ->]. constructor; [apply scanOperators_parsed, Hx | apply IH; reflexivity].
Qed.

(** X11: on ASCII entries, when [parseExprs] succeeds it returns one
    expression for each entry with the prefix, in the order of the
    entries; each entry is key, operator, value, cut at [==] if it holds
    one and at [!=] only otherwise; the key is stored in lower case, and
    key and value are well formed (so the value is not empty).  The
    entries are taken to be ASCII because the two patterns fold case:
    outside ASCII, Go also takes U+212A for [k] and U+017F for [s]. *)
Theorem parseExprs_expressions (key : string) (env : list string)
        (exprs : list filter.expr) :
  forallb spec.ascii_text (spec.payloads key env) = true ->
  filter.parseExprs key env = (Some exprs, None) ->
  Forall2 spec.parsed (spec.payloads key env) exprs.
Proof. intros _. apply parseExprs_parsed. Qed.

Lemma parseExprs_expressions_witness :
  Forall2 spec.parsed
          (spec.payloads "constraint"
                         ["constraint:Region==us-*"; "FOO=bar"; "constraint:node!=n1"])
          [filter.mkExpr "region" filter.EQ "us-*"; filter.mkExpr "node" filter.NOTEQ "n1"].
Proof.
  apply (parseExprs_expressions
           "constraint" ["constraint:Region==us-*"; "FOO=bar"; "constraint:node!=n1"]);
    vm_compute; reflexivity.
Defined.

(** X12: [parseExprs] returns either a list and no error, or an error and
    no list; it returns a list exactly when no entry with the prefix is
    bad (no operator, invalid key or invalid value), and the list has one
    expression for each such entry. *)
Theorem parseExprs_succeeds_iff (key : string) (env : list string) :
  match filter.parseExprs key env with
  | (Some exprs, None) =>
      forallb (fun p => negb (spec.bad_entry p)) (spec.payloads key env) = true
      /\ length exprs = length (spec.payloads key env)
  | (None, Some _) =>
      forallb (fun p => negb (spec.bad_entry p)) (spec.payloads key env) = false
  | _ => False
  end.
Proof.
  induction env as [|e env IH]; [split; reflexivity|].
  rewrite parseExprs_cons, payloads_step.
  destruct (spec.has_prefix key e); [|exact IH].
  cbn [forallb length].
  destruct (spec.bad_entry (GoStrings.drop (String.length key + 1) e)) eqn:Hb.
  - destruct (scanOperators_bad_entry _ Hb) as [err ->]. reflexivity.
  - destruct (scanOperators_good_entry _ Hb) as [x ->]. cbn [negb andb].
    destruct (filter.parseExprs key env) as [[xs|] [err|]]; try exact IH.
    destruct IH as [H1 H2]. split; [exact H1 | cbn [length]; congruence].
Qed.

Lemma parseExprs_app_nil (key : string) (env1 env2 : list string) (acc : list filter.expr) :
  filter.parseLoop key (env1 ++ env2) acc
  = match filter.parseLoop key env1 acc with
    | (Some xs, _) => filter.parseLoop key env2 xs
    | (None, err) => (None, err)
    end.
Proof.
  revert acc. induction env1 as [|e env1 IH]; intros acc; [reflexivity|].
  cbn [app filter.parseLoop].
  destruct (GoStrings.HasPrefix e (key ++ ":")); [|apply IH].
  destruct (filter.scanOperators _ 0 filter.OPERATORS) as [err|x]; [reflexivity|].
  apply IH.
Qed.

(** X13: [parseExprs] works entry by entry: on two lists one after the
    other it returns the expressions of the first followed by those of the
    second, or the first error met; and the entries without the prefix
    play no role. *)
Theorem parseExprs_app (key : string) (env1 env2 : list string) :
  filter.parseExprs key (env1 ++ env2)
  = match filter.parseExprs key env1 with
    | (Some xs, None) =>
        match filter.parseExprs key env2 with
        | (Some ys, err) => (Some (xs ++ ys), err)
        | (None, err) => (None, err)
        end
    | r => r
    end
  /\ filter.parseExprs key env1
     = filter.parseExprs key (List.filter (spec.has_prefix key) env1).
Proof.
  split.
  - unfold filter.parseExprs at 1. rewrite parseExprs_app_nil.
    fold (filter.parseExprs key env1).
    destruct (parseExprs_shape key env1) as [[xs ->]|[err ->]]; [|reflexivity].
    rewrite parseLoop_acc. reflexivity.
  - induction env1 as [|e env IH]; [reflexivity|].
    rewrite parseExprs_cons. cbn [List.filter].
    destruct (spec.has_prefix key e) eqn:Hp; [|exact IH].
    rewrite parseExprs_cons, Hp, <- IH. reflexivity.
Qed.

(** ** [expr.Match]: candidates and log *)

Lemma existsb_Permutation {A : Type} (f : A -> bool) (l1 l2 : list A) :
  Permutation l1 l2 -> existsb f l1 = existsb f l2.
Proof.
  intros H. induction H as [|x l l' _ IH|x y l|l l' l'' _ IH1 _ IH2]; cbn [existsb].
  - reflexivity.
  - rewrite IH. reflexivity.
  - destruct (f x), (f y); reflexivity.
  - congruence.
Qed.

(** X14: [Match] depends on the operator, the value and the set of
    candidates only: with EQ, the result on two lists of candidates is the
    disjunction of the results on each, with NOTEQ the conjunction; NOTEQ
    is the negation of EQ; without candidates EQ gives false and NOTEQ
    true; the key and the order of the candidates play no role; an
    operator other than EQ and NOTEQ gives false. *)
Theorem Match_candidates (k v : string) (i : Z) (ws1 ws2 : list string) :
  let eq := filter.mkExpr k filter.EQ v in
  let ne := filter.mkExpr k filter.NOTEQ v in
  filter.Match eq (ws1 ++ ws2) = filter.Match eq ws1 || filter.Match eq ws2
  /\ filter.Match ne (ws1 ++ ws2) = filter.Match ne ws1 && filter.Match ne ws2
  /\ filter.Match ne ws1 = negb (filter.Match eq ws1)
  /\ filter.Match eq [] = false
  /\ filter.Match ne [] = true
  /\ (forall k', filter.Match (filter.mkExpr k' i v) ws1
                 = filter.Match (filter.mkExpr k i v) ws1)
  /\ (Permutation ws1 ws2 ->
      filter.Match (filter.mkExpr k i v) ws1 = filter.Match (filter.mkExpr k i v) ws2)
  /\ (i <> filter.EQ -> i <> filter.NOTEQ ->
      filter.Match (filter.mkExpr k i v) ws1 = false).
Proof.
  cbv zeta. rewrite !Match_unfold. cbn [filter.operator filter.value]. cbv zeta.
  change (Z.eqb filter.EQ filter.EQ) with true.
  change (Z.eqb filter.NOTEQ filter.EQ) with false.
  change (Z.eqb filter.NOTEQ filter.NOTEQ) with true. cbv iota.
  rewrite existsb_app, negb_orb.
  repeat split.
  - intros k'. rewrite ?Match_unfold. reflexivity.
  - intros H. rewrite ?Match_unfold. cbn [filter.operator filter.value]. cbv zeta.
    rewrite (existsb_Permutation _ _ _ H). reflexivity.
  - intros H0 H1. rewrite ?Match_unfold. cbn [filter.operator filter.value]. cbv zeta.
    rewrite (proj2 (Z.eqb_neq i filter.EQ) H0), (proj2 (Z.eqb_neq i filter.NOTEQ) H1).
    reflexivity.
Qed.

Lemma Match_candidates_witness :
  filter.Match (filter.mkExpr "node" filter.NOTEQ "n1") (["n2"] ++ ["n3"; "n1"]) = false
  /\ filter.Match (filter.mkExpr "node" 2 "n1") ["n1"] = false
  /\ filter.Match (filter.mkExpr "node" filter.EQ "n1") ["n2"; "n1"]
     = filter.Match (filter.mkExpr "node" filter.EQ "n1") ["n1"; "n2"].
Proof.
  split; [|split].
  - destruct (Match_candidates "node" "n1" 0 ["n2"] ["n3"; "n1"]) as (_ & H & _).
    rewrite H. vm_compute. reflexivity.
  - destruct (Match_candidates "node" "n1" 2 ["n1"] []) as (_ & _ & _ & _ & _ & _ & _ & H).
    apply H; discriminate.
  - destruct (Match_candidates "node" "n1" filter.EQ ["n2"; "n1"] ["n1"; "n2"])
      as (_ & _ & _ & _ & _ & _ & H & _).
    apply H. apply perm_swap.
Defined.

Lemma matchLoop_compiled (value : string) (re : regexp.Regexp) (whats : list string)
      (matched : bool) :
  regexp.Compile value = inr re ->
  snd (filter.matchLoop value whats matched) = [].
Proof.
  intros H. revert matched. induction whats as [|w ws IH]; intros matched; [reflexivity|].
  cbn [filter.matchLoop]. unfold regexp.MatchString. rewrite H.
  destruct (regexp.search re None w); [reflexivity | apply IH].
Qed.

(** X15: what [Match] logs: one error per candidate when the value does
    not compile as a regular expression, and nothing at all when it
    compiles, whether or not a candidate matches. *)
Theorem Match_log (e : filter.expr) (whats : list string) :
  snd (filter.runMatch e whats)
  = match regexp.Compile (filter.value e) with
    | inl err => repeat err (length whats)
    | inr _ => []
    end.
Proof.
  unfold filter.runMatch.
  destruct (regexp.Compile (filter.value e)) as [err|re] eqn:H.
  - rewrite (matchLoop_compile_error _ whats _ H). reflexivity.
  - pose proof (matchLoop_compiled _ re whats false H) as Hlog.
    destruct (filter.matchLoop (filter.value e) whats false) as [m log]. exact Hlog.
Qed.

(** ** [Containers.Get]: what it returns *)

Lemma hd_error_singleton {A : Type} (l : list A) (a : A) :
  Nat.eqb (length l) 1 = true -> List.hd_error l = Some a -> l = [a].
Proof.
  destruct l as [|b [|b' l]]; cbn; try discriminate. intros _ [= ->]. reflexivity.
Qed.

Lemma find_unique {A : Type} (f : A -> bool) (l : list A) (a : A) :
  In a l -> f a = true ->
  (forall b, In b l -> f b = true -> b = a) ->
  List.find f l = Some a.
Proof.
  intros Hin Hf Hu. induction l as [|b l IH]; [destruct Hin|].
  cbn [List.find]. destruct (f b) eqn:Hb.
  - f_equal. apply Hu; [left; reflexivity | exact Hb].
  - destruct Hin as [->|Hin]; [congruence|].
    apply IH; [exact Hin|]. intros b' Hb' Hfb'. apply Hu; [right; exact Hb' | exact Hfb'].
Qed.

Lemma filter_nil_forall {A : Type} (f : A -> bool) (l : list A) :
  (forall a, In a l -> f a = false) -> List.filter f l = [].
Proof.
  intros H. induction l as [|a l IH]; [reflexivity|].
  cbn [List.filter]. rewrite (H a (or_introl eq_refl)).
  apply IH. intros b Hb. apply H. right. exact Hb.
Qed.

(** X16: [Get] is sound: a container it returns belongs to the list and is
    named by the query in one of the five ways (id or short id, swarm id
    or short swarm id, name, prefix of the id, prefix of the swarm id), and
    the query is not empty; when no container of the list is named by the
    query in any of these ways, [Get] returns null. *)
Theorem Get_sound (cs : cluster.Containers) (IDOrName : string) :
  (forall c, cluster.Get cs IDOrName = Some c ->
             IDOrName <> "" /\ In c cs /\ spec.resolves IDOrName c = true)
  /\ ((forall c, In c cs -> spec.resolves IDOrName c = false) ->
      cluster.Get cs IDOrName = None).
Proof.
  split.
  - intros c. unfold cluster.Get, spec.resolves.
    destruct IDOrName as [|a q]; [discriminate|]. cbn [String.length Nat.eqb].
    set (query := String a q).
    intros H. split; [discriminate|].
    destruct (List.find (cluster.matchID query) cs) as [c1|] eqn:H1.
    { injection H as <-. apply List.find_some in H1 as [Hin ->]. auto. }
    destruct (List.find (cluster.matchSwarmID query) cs) as [c2|] eqn:H2.
    { injection H as <-. apply List.find_some in H2 as [Hin ->].
      split; [exact Hin|]. rewrite orb_true_r. reflexivity. }
    cbv zeta in H.
    destruct (Nat.eqb (length (List.filter (cluster.matchName query) cs)) 1) eqn:Hn.
    { apply (hd_error_singleton _ _ Hn) in H.
      assert (In c (List.filter (cluster.matchName query) cs)) as Hc
          by (rewrite H; left; reflexivity).
      apply filter_In in Hc as [Hin Hm]. rewrite matchName_matches_name in Hm.
      split; [exact Hin|]. rewrite Hm, !orb_true_r. reflexivity. }
    destruct (Nat.ltb 1 (length (List.filter (cluster.matchName query) cs))) eqn:Hl;
      [discriminate|].
    destruct (List.filter (cluster.matchName query) cs) as [|x [|y l]];
      [|discriminate Hn|discriminate Hl].
    cbn [app] in H.
    destruct (Nat.eqb (length (List.filter (cluster.matchIDPrefix query) cs
                               ++ List.filter (cluster.matchSwarmIDPrefix query) cs)) 1)
      eqn:Hp; [|discriminate].
    apply (hd_error_singleton _ _ Hp) in H.
    assert (In c (List.filter (cluster.matchIDPrefix query) cs
                  ++ List.filter (cluster.matchSwarmIDPrefix query) cs)) as Hc
        by (rewrite H; left; reflexivity).
    apply in_app_or in Hc as [Hc|Hc]; apply filter_In in Hc as [Hin Hm];
      (split; [exact Hin|]); rewrite Hm, ?orb_true_r; reflexivity.
  - intros Hno. unfold cluster.Get.
    destruct (Nat.eqb (String.length IDOrName) 0); [reflexivity|].
    assert (forall f : cluster.Container -> bool,
               (forall c, f c = true -> spec.resolves IDOrName c = true) ->
               forall c, In c cs -> f c = false) as Hf.
    { intros f Hres c Hin. destruct (f c) eqn:E; [|reflexivity].
      rewrite <- (Hno c Hin). symmetry. apply Hres, E. }
    rewrite (find_none_existsb (cluster.matchID IDOrName) cs).
    2:{ apply not_true_is_false. intros Hex. apply existsb_exists in Hex as (c & Hin & Hc).
        rewrite (Hf (cluster.matchID IDOrName)) in Hc; [discriminate| |exact Hin].
        intros c' Hc'. unfold spec.resolves. rewrite Hc'. reflexivity. }
    rewrite (find_none_existsb (cluster.matchSwarmID IDOrName) cs).
    2:{ apply not_true_is_false. intros Hex. apply existsb_exists in Hex as (c & Hin & Hc).
        rewrite (Hf (cluster.matchSwarmID IDOrName)) in Hc; [discriminate| |exact Hin].
        intros c' Hc'. unfold spec.resolves. rewrite Hc', orb_true_r. reflexivity. }
    cbv zeta.
    rewrite (filter_nil_forall (cluster.matchName IDOrName) cs).
    2:{ apply Hf. intros c' Hc'. unfold spec.resolves.
        rewrite <- matchName_matches_name, Hc', !orb_true_r. reflexivity. }
    rewrite (filter_nil_forall (cluster.matchIDPrefix IDOrName) cs).
    2:{ apply Hf. intros c' Hc'. unfold spec.resolves.
        rewrite Hc', !orb_true_r. reflexivity. }
    rewrite (filter_nil_forall (cluster.matchSwarmIDPrefix IDOrName) cs).
    2:{ apply Hf. intros c' Hc'. unfold spec.resolves.
        rewrite Hc', !orb_true_r. reflexivity. }
    reflexivity.
Qed.

Lemma Get_sound_witness :
  In examples.web1 [examples.web1; examples.web2]
  /\ spec.resolves "engine1/web" examples.web1 = true
  /\ cluster.Get [examples.web1; examples.web2] "nginx" = None.
Proof.
  destruct (proj1 (Get_sound [examples.web1; examples.web2] "engine1/web") examples.web1)
    as (_ & Hin & Hres); [vm_compute; reflexivity|].
  split; [exact Hin|]. split; [exact Hres|].
  apply (proj2 (Get_sound [examples.web1; examples.web2] "nginx")).
  intros c [<-|[<-|[]]]; vm_compute; reflexivity.
Defined.

(** X17: the exact steps of [Get] come first: a query that is not empty
    and is the id or the short id of exactly one container of the list
    resolves to it, whatever the names and the swarm ids of the others; so
    does a query that is the id or short id of no container and the swarm
    id or short swarm id of exactly one.  In particular a container whose
    id is not empty and is neither the id nor the short id of another
    container is found by its id. *)
Theorem Get_exact (cs : cluster.Containers) (IDOrName : string) (c : cluster.Container) :
  IDOrName <> "" ->
  In c cs ->
  (cluster.matchID IDOrName c = true ->
   (forall c', In c' cs -> cluster.matchID IDOrName c' = true -> c' = c) ->
   cluster.Get cs IDOrName = Some c)
  /\ (cluster.matchSwarmID IDOrName c = true ->
      (forall c', In c' cs -> cluster.matchID IDOrName c' = false) ->
      (forall c', In c' cs -> cluster.matchSwarmID IDOrName c' = true -> c' = c) ->
      cluster.Get cs IDOrName = Some c)
  /\ (IDOrName = cluster.container_ID c ->
      (forall c', In c' cs -> cluster.matchID IDOrName c' = true -> c' = c) ->
      cluster.Get cs (cluster.container_ID c) = Some c).
Proof.
  intros Hq Hin.
  assert (cluster.matchID IDOrName c = true ->
          (forall c', In c' cs -> cluster.matchID IDOrName c' = true -> c' = c) ->
          cluster.Get cs IDOrName = Some c) as Hid.
  { intros Hm Hu. unfold cluster.Get. rewrite (length_nonzero _ Hq).
    rewrite (find_unique _ cs c Hin Hm Hu). reflexivity. }
  split; [exact Hid|]. split.
  - intros Hm Hno Hu. unfold cluster.Get. rewrite (length_nonzero _ Hq).
    rewrite (find_none_existsb (cluster.matchID IDOrName) cs).
    2:{ apply not_true_is_false. intros Hex. apply existsb_exists in Hex as (c' & Hin' & Hc').
        rewrite (Hno c' Hin') in Hc'. discriminate. }
    rewrite (find_unique _ cs c Hin Hm Hu). reflexivity.
  - intros -> Hu. apply Hid; [|exact Hu].
    unfold cluster.matchID. rewrite String.eqb_refl. reflexivity.
Qed.

Lemma Get_exact_witness :
  cluster.Get [examples.alias1; examples.web1; examples.alias2] "1f0e3dad9990"
  = Some examples.web1
  /\ cluster.Get [examples.web1; examples.web2] "e4da3b7fbbce2345d7772b0674a318d5"
     = Some examples.web2.
Proof.
  split.
  - apply (proj1 (Get_exact [examples.alias1; examples.web1; examples.alias2]
                            "1f0e3dad9990" examples.web1
                            ltac:(discriminate) ltac:(right; left; reflexivity)));
      [vm_compute; reflexivity|].
    intros c' [<-|[<-|[<-|[]]]]; vm_compute; intros H; (reflexivity || discriminate H).
  - apply (proj1 (proj2 (Get_exact [examples.web1; examples.web2]
                                   "e4da3b7fbbce2345d7772b0674a318d5" examples.web2
                                   ltac:(discriminate) ltac:(right; left; reflexivity))));
      [vm_compute; reflexivity | |].
    + intros c' [<-|[<-|[]]]; vm_compute; reflexivity.
    + intros c' [<-|[<-|[]]]; vm_compute; intros H; (reflexivity || discriminate H).
Defined.

(** ** The coordinator: [refreshContainers], [AddNode], [Node], [Container] *)

Lemma assignVirtualId_refreshed
      (Store : Type) (store_All : Store -> list coordinator.Container)
      (store_Replace store_Add : string -> coordinator.Container -> Store -> Store)
      (generateVirtualId : nat -> string)
      (c : coordinator.Cluster Store) (k : coordinator.Container) :
  coordinator.VirtualId k = "" ->
  let r := coordinator.assignVirtualId Store store_All store_Replace store_Add
                                       generateVirtualId c k in
  spec.refreshed k (snd r)
  /\ coordinator.containers (fst r) = coordinator.containers c
  /\ coordinator.generated c <= coordinator.generated (fst r) <= S (coordinator.generated c).
Proof.
  intros Hk. unfold coordinator.assignVirtualId.
  destruct (List.find _ (store_All (coordinator.store c))); cbn [fst snd];
    (split; [|split; [reflexivity | cbn; lia]]);
    unfold spec.refreshed; cbn; repeat split; intros H; congruence.
Qed.

Lemma assignAll_refreshed
      (Store : Type) (store_All : Store -> list coordinator.Container)
      (store_Replace store_Add : string -> coordinator.Container -> Store -> Store)
      (generateVirtualId : nat -> string)
      (cs : list coordinator.Container) (c : coordinator.Cluster Store) :
  let r := coordinator.assignAll Store store_All store_Replace store_Add
                                 generateVirtualId c cs in
  Forall2 spec.refreshed cs (snd r)
  /\ coordinator.containers (fst r) = coordinator.containers c
  /\ coordinator.generated c <= coordinator.generated (fst r)
     <= coordinator.generated c + spec.unnamed cs.
Proof.
  cbv zeta. revert c. induction cs as [|k cs IH]; intros c.
  - cbn. split; [constructor | split; [reflexivity | lia]].
  - cbn [coordinator.assignAll]. unfold spec.unnamed. cbn [List.filter].
    destruct (Nat.eqb (String.length (coordinator.VirtualId k)) 0) eqn:Hk.
    + assert (coordinator.VirtualId k = "") as Hv
          by (destruct (coordinator.VirtualId k); [reflexivity | discriminate Hk]).
      pose proof (assignVirtualId_refreshed Store store_All store_Replace store_Add
                                            generateVirtualId c k Hv) as H.
      cbv zeta in H.
      destruct (coordinator.assignVirtualId _ _ _ _ _ c k) as [c1 k'].
      cbn [fst snd] in H. destruct H as (Hr & Hc & Hg).
      specialize (IH c1). unfold spec.unnamed in IH.
      destruct (coordinator.assignAll _ _ _ _ _ c1 cs) as [c2 cs'].
      cbn [fst snd length] in *. destruct IH as (IHr & IHc & IHg).
      split; [constructor; assumption | split; [congruence | lia]].
    + specialize (IH c). unfold spec.unnamed in IH.
      destruct (coordinator.assignAll _ _ _ _ _ c cs) as [c2 cs'].
      cbn [fst snd] in *. destruct IH as (IHr & IHc & IHg).
      split; [|split; [exact IHc | exact IHg]].
      constructor; [|exact IHr].
      unfold spec.refreshed. repeat split; reflexivity.
Qed.

Lemma Cluster_Containers_In (Store : Type) (c : coordinator.Cluster Store)
      (k : coordinator.Container) :
  In k (coordinator.Cluster_Containers c)
  <-> exists p l, coordinator.containers c !! p = Some l /\ In k l.
Proof.
  unfold coordinator.Cluster_Containers. rewrite in_flat_map. split.
  - intros ([p l] & Hin & Hk). exists p, l. split; [|exact Hk].
    apply list_elem_of_In, elem_of_map_to_list in Hin. exact Hin.
  - intros (p & l & Hl & Hk). exists (p, l). split; [|exact Hk].
    apply list_elem_of_In, elem_of_map_to_list. exact Hl.
Qed.

Lemma refreshContainers_containers
      (Store : Type) (store_All : Store -> list coordinator.Container)
      (store_Replace store_Add : string -> coordinator.Container -> Store -> Store)
      (generateVirtualId : nat -> string)
      (node : coordinator.Node) (c : coordinator.Cluster Store) :
  let c' := coordinator.refreshContainers Store store_All store_Replace store_Add
                                          generateVirtualId node c in
  exists cs,
    coordinator.containers c' = <[coordinator.ptr node := cs]> (coordinator.containers c)
    /\ Forall2 spec.refreshed (coordinator.Containers node) cs
    /\ coordinator.generated c <= coordinator.generated c'
       <= coordinator.generated c + spec.unnamed (coordinator.Containers node).
Proof.
  cbv zeta. unfold coordinator.refreshContainers.
  pose proof (assignAll_refreshed Store store_All store_Replace store_Add generateVirtualId
                                  (coordinator.Containers node) c) as H.
  cbv zeta in H.
  destruct (coordinator.assignAll _ _ _ _ _ c (coordinator.Containers node)) as [c1 cs].
  cbn [fst snd] in H. destruct H as (Hr & Hc & Hg).
  exists cs. cbn [coordinator.containers coordinator.generated].
  rewrite Hc. auto.
Qed.

(** X18: [refreshContainers] replaces the containers the cluster holds for
    the node by the containers the node reports, in the same order: each
    keeps its id, names and node, and is left as it is if it had a virtual
    id.  The containers of the other nodes and the registered nodes are
    untouched, the former containers of the node are dropped, and
    [generateVirtualId] is called at most once for each container without
    a virtual id. *)
Theorem refreshContainers_replaces
        (Store : Type) (store_All : Store -> list coordinator.Container)
        (store_Replace store_Add : string -> coordinator.Container -> Store -> Store)
        (generateVirtualId : nat -> string)
        (node : coordinator.Node) (c : coordinator.Cluster Store) :
  let c' := coordinator.refreshContainers Store store_All store_Replace store_Add
                                          generateVirtualId node c in
  exists cs,
    coordinator.containers c' = <[coordinator.ptr node := cs]> (coordinator.containers c)
    /\ Forall2 spec.refreshed (coordinator.Containers node) cs
    /\ coordinator.nodes c' = coordinator.nodes c
    /\ coordinator.generated c <= coordinator.generated c'
       <= coordinator.generated c + spec.unnamed (coordinator.Containers node)
    /\ (forall k, In k (coordinator.Cluster_Containers c')
                  <-> In k cs
                      \/ exists p l, p <> coordinator.ptr node
                                     /\ coordinator.containers c !! p = Some l /\ In k l).
Proof.
  cbv zeta.
  destruct (refreshContainers_containers Store store_All store_Replace store_Add
                                         generateVirtualId node c) as (cs & Hc & Hr & Hg).
  exists cs. split; [exact Hc|]. split; [exact Hr|].
  split; [apply refreshContainers_nodes|]. split; [exact Hg|].
  intros k. rewrite Cluster_Containers_In, Hc. split.
  - intros (p & l & Hl & Hk).
    destruct (decide (p = coordinator.ptr node)) as [->|Hne].
    + rewrite lookup_insert_eq in Hl. injection Hl as <-. left. exact Hk.
    + rewrite lookup_insert_ne in Hl by congruence. right. eauto.
  - intros [Hk|(p & l & Hne & Hl & Hk)].
    + exists (coordinator.ptr node), cs. rewrite lookup_insert_eq. auto.
    + exists p, l. rewrite lookup_insert_ne by congruence. auto.
Qed.

Lemma Nodes_In (Store : Type) (c : coordinator.Cluster Store) (n : coordinator.Node) :
  In n (coordinator.Nodes c) <-> exists k, coordinator.nodes c !! k = Some n.
Proof.
  unfold coordinator.Nodes. rewrite <- list_elem_of_In, list_elem_of_fmap. split.
  - intros ([k m] & -> & Hin). exists k. apply elem_of_map_to_list in Hin. exact Hin.
  - intros (k & Hk). exists (k, n). split; [reflexivity|].
    apply elem_of_map_to_list. exact Hk.
Qed.

Lemma Cluster_Node_Some (Store : Type) (c : coordinator.Cluster Store) (addr : string)
      (n : coordinator.Node) :
  coordinator.Cluster_Node c addr = Some n ->
  coordinator.Addr n = addr /\ exists k, coordinator.nodes c !! k = Some n.
Proof.
  unfold coordinator.Cluster_Node. intros H. apply List.find_some in H as [Hin Ha].
  split; [apply String.eqb_eq, Ha | apply Nodes_In, Hin].
Qed.

Lemma Cluster_Node_None (Store : Type) (c : coordinator.Cluster Store) (addr : string) :
  coordinator.Cluster_Node c addr = None
  <-> forall k n, coordinator.nodes c !! k = Some n -> coordinator.Addr n <> addr.
Proof.
  unfold coordinator.Cluster_Node. split.
  - intros H k n Hk Ha.
    assert (In n (coordinator.Nodes c)) as Hin by (apply Nodes_In; eauto).
    pose proof (List.find_none _ _ H n Hin) as Hf. cbv beta in Hf.
    apply String.eqb_neq in Hf. contradiction.
  - intros H.
    destruct (List.find _ (coordinator.Nodes c)) as [n|] eqn:E; [|reflexivity].
    apply List.find_some in E as [Hin Ha]. apply Nodes_In in Hin as [k Hk].
    apply String.eqb_eq in Ha. destruct (H k n Hk Ha).
Qed.

(** X19: a successful [AddNode] (the node is connected and its id is not
    registered) registers the node under its id and keeps the nodes
    registered before; what it returns is the result of [n.Events], and the
    node stays registered even when that is an error: a second [AddNode]
    of a connected node with this id returns [ErrNodeAlreadyRegistered] and
    changes nothing.  Afterwards [Node] finds a node at the address of the
    node, and the cluster holds the containers the node reports. *)
Theorem AddNode_registers
        (Store : Type) (store_All : Store -> list coordinator.Container)
        (store_Replace store_Add : string -> coordinator.Container -> Store -> Store)
        (generateVirtualId : nat -> string)
        (n : coordinator.Node) (c : coordinator.Cluster Store) :
  coordinator.IsConnected n = true ->
  coordinator.nodes c !! coordinator.ID n = None ->
  let AddNode := coordinator.AddNode Store store_All store_Replace store_Add
                                     generateVirtualId in
  let c' := fst (AddNode n c) in
  snd (AddNode n c) = coordinator.Events n
  /\ coordinator.nodes c' = <[coordinator.ID n := n]> (coordinator.nodes c)
  /\ (forall k m, coordinator.nodes c !! k = Some m -> coordinator.nodes c' !! k = Some m)
  /\ (forall n', coordinator.IsConnected n' = true ->
                 coordinator.ID n' = coordinator.ID n ->
                 AddNode n' c' = (c', Some coordinator.ErrNodeAlreadyRegistered))
  /\ (exists m, coordinator.Cluster_Node c' (coordinator.Addr n) = Some m
                /\ coordinator.Addr m = coordinator.Addr n)
  /\ (exists cs, coordinator.containers c' !! coordinator.ptr n = Some cs
                 /\ Forall2 spec.refreshed (coordinator.Containers n) cs).
Proof.
  intros Hconn Hnew AddNode c'.
  assert (coordinator.nodes c' = <[coordinator.ID n := n]> (coordinator.nodes c)) as Hn.
  { unfold c', AddNode. rewrite AddNode_nodes, Hconn, Hnew. reflexivity. }
  split; [|split; [exact Hn|split; [|split; [|split]]]].
  - unfold AddNode, coordinator.AddNode. rewrite Hconn, Hnew. reflexivity.
  - intros k m Hk. rewrite Hn.
    destruct (decide (k = coordinator.ID n)) as [->|Hne]; [congruence|].
    rewrite lookup_insert_ne by congruence. exact Hk.
  - intros n' Hconn' Hid. unfold AddNode at 1, coordinator.AddNode.
    rewrite Hconn', Hn, Hid, lookup_insert_eq. reflexivity.
  - destruct (coordinator.Cluster_Node c' (coordinator.Addr n)) as [m|] eqn:E.
    + exists m. split; [reflexivity|]. apply (Cluster_Node_Some _ _ _ _ E).
    + exfalso. apply (proj1 (Cluster_Node_None _ _ _) E (coordinator.ID n) n);
        [rewrite Hn; apply lookup_insert_eq | reflexivity].
  - unfold c', AddNode, coordinator.AddNode. rewrite Hconn, Hnew. cbn [negb fst].
    match goal with
    | |- context [coordinator.refreshContainers _ _ _ _ _ n ?c1] =>
        destruct (refreshContainers_containers Store store_All store_Replace store_Add
                                               generateVirtualId n c1) as (cs & Hc & Hr & _)
    end.
    exists cs. rewrite Hc, lookup_insert_eq. auto.
Qed.

Lemma AddNode_registers_witness :
  let AddNode := coordinator.AddNode unit examples.noContainers examples.keep examples.keep
                                     examples.numbered in
  let c' := fst (AddNode examples.worker (coordinator.NewCluster tt)) in
  snd (AddNode examples.worker (coordinator.NewCluster tt))
  = Some "events: connection refused"
  /\ AddNode examples.worker c' = (c', Some coordinator.ErrNodeAlreadyRegistered).
Proof.
  intros AddNode c'.
  destruct (AddNode_registers unit examples.noContainers examples.keep examples.keep
                              examples.numbered examples.worker (coordinator.NewCluster tt)
                              eq_refl eq_refl) as (Herr & _ & _ & Hagain & _).
  split; [exact Herr | apply Hagain; reflexivity].
Defined.

(** X20: [Nodes] lists exactly the registered nodes, one per registered
    id.  Whenever some registered node has the given address, [Node]
    returns a registered node with this address, and it returns that very
    node when it is the only one; [Node] returns null exactly when no
    registered node has the address. *)
Theorem Cluster_Node_finds (Store : Type) (c : coordinator.Cluster Store) (addr : string) :
  (forall n, In n (coordinator.Nodes c) <-> exists k, coordinator.nodes c !! k = Some n)
  /\ length (coordinator.Nodes c) = size (coordinator.nodes c)
  /\ (forall k n,
         coordinator.nodes c !! k = Some n ->
         coordinator.Addr n = addr ->
         exists m, coordinator.Cluster_Node c addr = Some m
                   /\ coordinator.Addr m = addr
                   /\ exists k', coordinator.nodes c !! k' = Some m)
  /\ (forall k n,
         coordinator.nodes c !! k = Some n ->
         coordinator.Addr n = addr ->
         (forall k' n', coordinator.nodes c !! k' = Some n' ->
                        coordinator.Addr n' = addr -> n' = n) ->
         coordinator.Cluster_Node c addr = Some n)
  /\ (forall n, coordinator.Cluster_Node c addr = Some n ->
                coordinator.Addr n = addr /\ exists k, coordinator.nodes c !! k = Some n)
  /\ (coordinator.Cluster_Node c addr = None
      <-> forall k n, coordinator.nodes c !! k = Some n -> coordinator.Addr n <> addr).
Proof.
  assert (forall k n,
             coordinator.nodes c !! k = Some n ->
             coordinator.Addr n = addr ->
             exists m, coordinator.Cluster_Node c addr = Some m
                       /\ coordinator.Addr m = addr
                       /\ exists k', coordinator.nodes c !! k' = Some m) as Hfound.
  { intros k n Hk Ha.
    destruct (coordinator.Cluster_Node c addr) as [m|] eqn:E.
    - exists m. split; [reflexivity | apply (Cluster_Node_Some _ _ _ _ E)].
    - destruct (proj1 (Cluster_Node_None _ _ _) E k n Hk Ha). }
  split; [|split; [|split; [|split; [|split]]]].
  - intros n. apply Nodes_In.
  - unfold coordinator.Nodes. rewrite length_fmap, length_map_to_list. reflexivity.
  - exact Hfound.
  - intros k n Hk Ha Hu. destruct (Hfound k n Hk Ha) as (m & -> & Hm & k' & Hk').
    f_equal. apply (Hu k' m Hk' Hm).
  - intros n. apply Cluster_Node_Some.
  - apply Cluster_Node_None.
Qed.

Lemma Cluster_Node_finds_witness :
  let c := fst (coordinator.AddNode unit examples.noContainers examples.keep examples.keep
                                    examples.numbered examples.worker
                                    (coordinator.NewCluster tt)) in
  coordinator.nodes c !! "node1" = Some examples.worker
  /\ coordinator.Addr examples.worker = "10.0.0.1:2375"
  /\ exists m, coordinator.Cluster_Node c "10.0.0.1:2375" = Some m
               /\ coordinator.Addr m = "10.0.0.1:2375"
               /\ exists k', coordinator.nodes c !! k' = Some m.
Proof.
  intros c.
  assert (coordinator.nodes c !! "node1" = Some examples.worker) as Hk
      by (vm_compute; reflexivity).
  split; [exact Hk|]. split; [reflexivity|].
  apply (proj1 (proj2 (proj2 (Cluster_Node_finds unit c "10.0.0.1:2375")))
               "node1" examples.worker Hk eq_refl).
Defined.

Lemma lookup_find (IdOrName : string) (cs : list coordinator.Container) :
  coordinator.lookup IdOrName cs = List.find (spec.named_by IdOrName) cs.
Proof.
  induction cs as [|k cs IH]; [reflexivity|].
  cbn [coordinator.lookup List.find]. unfold spec.named_by at 1.
  destruct (GoStrings.HasPrefix (coordinator.VirtualId k) IdOrName); [reflexivity|].
  cbn [orb].
  destruct (existsb (coordinator.matchName IdOrName k) (coordinator.Names k));
    [reflexivity | exact IH].
Qed.

(** X21: [Cluster.Container] is sound and never ambiguous: a container it
    returns is one of the containers of the cluster and the query, which
    is not empty, is a prefix of its virtual id or names it; whenever some
    container of the cluster is named by a non-empty query in this way,
    a container is returned, even if several are; and null is returned
    when none is. *)
Theorem Cluster_Container_sound (Store : Type) (c : coordinator.Cluster Store)
        (IdOrName : string) :
  (forall k, coordinator.Cluster_Container c IdOrName = Some k ->
             IdOrName <> ""
             /\ In k (coordinator.Cluster_Containers c)
             /\ spec.named_by IdOrName k = true)
  /\ (IdOrName <> "" ->
      (exists k, In k (coordinator.Cluster_Containers c) /\ spec.named_by IdOrName k = true) ->
      exists k, coordinator.Cluster_Container c IdOrName = Some k)
  /\ ((forall k, In k (coordinator.Cluster_Containers c) -> spec.named_by IdOrName k = false) ->
      coordinator.Cluster_Container c IdOrName = None).
Proof.
  unfold coordinator.Cluster_Container. rewrite lookup_find.
  split; [|split].
  - intros k. destruct IdOrName as [|a q]; [discriminate|]. cbn [String.length Nat.eqb].
    intros H. apply List.find_some in H as [Hin Hn]. split; [discriminate | auto].
  - intros Hq (k & Hin & Hn). rewrite (length_nonzero _ Hq).
    destruct (List.find (spec.named_by IdOrName) (coordinator.Cluster_Containers c))
      as [k'|] eqn:E; [eauto|].
    pose proof (List.find_none _ _ E k Hin) as Hf. congruence.
  - intros Hno. destruct (Nat.eqb (String.length IdOrName) 0); [reflexivity|].
    apply find_none_existsb. apply not_true_is_false. intros Hex.
    apply existsb_exists in Hex as (k & Hin & Hn). rewrite (Hno k Hin) in Hn. discriminate.
Qed.

Lemma Cluster_Container_sound_witness :
  In examples.db (coordinator.Cluster_Containers examples.oneContainer)
  /\ (exists k, coordinator.Cluster_Container examples.oneContainer "node1/db" = Some k)
  /\ coordinator.Cluster_Container examples.oneContainer "web" = None.
Proof.
  destruct (Cluster_Container_sound unit examples.oneContainer "db") as (Hs & _ & _).
  destruct (Hs examples.db) as (_ & Hin & _); [vm_compute; reflexivity|].
  split; [exact Hin|]. split.
  - apply (proj1 (proj2 (Cluster_Container_sound unit examples.oneContainer "node1/db")));
      [discriminate|].
    exists examples.db. split; [exact Hin | vm_compute; reflexivity].
  - apply (proj2 (proj2 (Cluster_Container_sound unit examples.oneContainer "web"))).
    intros k Hk. vm_compute in Hk. destruct Hk as [<-|[]]. vm_compute. reflexivity.
Defined.

Lemma AddNodes_lookup
      (Store : Type) (store_All : Store -> list coordinator.Container)
      (store_Replace store_Add : string -> coordinator.Container -> Store -> Store)
      (generateVirtualId : nat -> string)
      (ns : list coordinator.Node) (c : coordinator.Cluster Store) (k : string) :
  coordinator.nodes
    (coordinator.AddNodes Store store_All store_Replace store_Add generateVirtualId ns c)
  !! k
  = match coordinator.nodes c !! k with
    | Some m => Some m
    | None =>
        List.find (fun n => coordinator.IsConnected n && String.eqb (coordinator.ID n) k) ns
    end.
Proof.
  revert c. induction ns as [|n ns IH]; intros c.
  - cbn. destruct (coordinator.nodes c !! k); reflexivity.
  - cbn [coordinator.AddNodes fold_left List.find].
    change (fold_left _ ns ?c1)
      with (coordinator.AddNodes Store store_All store_Replace store_Add
                                 generateVirtualId ns c1).
    rewrite IH, AddNode_nodes.
    destruct (coordinator.IsConnected n); cbn [andb]; [|reflexivity].
    destruct (String.eqb_spec (coordinator.ID n) k) as [<-|Hne].
    + destruct (coordinator.nodes c !! coordinator.ID n) as [m|] eqn:E.
      * rewrite E. reflexivity.
      * rewrite lookup_insert_eq. reflexivity.
    + destruct (coordinator.nodes c !! coordinator.ID n) as [m|] eqn:E; [reflexivity|].
      rewrite lookup_insert_ne by congruence. reflexivity.
Qed.

(** X22: the first registration wins: after a sequence of calls of
    [AddNode] on a new cluster, the node registered under an id is the
    first connected node of the sequence that has this id, and no node is
    registered under an id that no connected node of the sequence has. *)
Theorem AddNodes_first_wins
        (Store : Type) (store_All : Store -> list coordinator.Container)
        (store_Replace store_Add : string -> coordinator.Container -> Store -> Store)
        (generateVirtualId : nat -> string)
        (ns : list coordinator.Node) (st : Store) (k : string) :
  coordinator.nodes
    (coordinator.AddNodes Store store_All store_Replace store_Add generateVirtualId ns
                          (coordinator.NewCluster st))
  !! k
  = List.find (fun n => coordinator.IsConnected n && String.eqb (coordinator.ID n) k) ns.
Proof. rewrite AddNodes_lookup. reflexivity. Qed.

Example AddNodes_first_wins_example :
  coordinator.nodes
    (coordinator.AddNodes unit examples.noContainers examples.keep examples.keep
                          examples.numbered
                          [examples.node 1 "node1" false; examples.node 2 "node1" true;
                           examples.node 3 "node1" true]
                          (coordinator.NewCluster tt))
  !! "node1"
  = Some (examples.node 2 "node1" true).
Proof. rewrite AddNodes_lookup. reflexivity. Qed.

(** ** Instances *)

Lemma SetSwarmID_SwarmID_witness :
  "affinities" <> "id"
  /\ cluster.extractExprs (cluster.SetSwarmID examples.built "4f2a") "affinities"
     = cluster.extractExprs examples.built "affinities".
Proof.
  split; [discriminate|].
  apply (proj2 (proj2 (proj2 (SetSwarmID_SwarmID examples.built "4f2a" "")))).
  discriminate.
Defined.

Lemma parseEnv_first_colon_witness :
  cluster.parseEnv "constraint:node==n1:2375" = (true, "constraint", "node==n1:2375")
  /\ GoStrings.Contains "FOO=bar" ":" = false.
Proof.
  split.
  - apply (proj1 (parseEnv_first_colon "constraint:node==n1:2375")).
    split; vm_compute; reflexivity.
  - apply (proj2 (parseEnv_first_colon "FOO=bar")). vm_compute. reflexivity.
Defined.

Lemma refreshContainers_replaces_witness :
  let c' := coordinator.refreshContainers unit examples.noContainers examples.keep
                                          examples.keep examples.numbered
                                          examples.worker (coordinator.NewCluster tt) in
  exists cs,
    coordinator.containers c' !! coordinator.ptr examples.worker = Some cs
    /\ Forall2 spec.refreshed [examples.db; examples.anonymous] cs
    /\ In examples.db cs.
Proof.
  intros c'.
  destruct (refreshContainers_replaces unit examples.noContainers examples.keep
                                       examples.keep examples.numbered
                                       examples.worker (coordinator.NewCluster tt))
    as (cs & Hc & Hr & _ & _ & Hin).
  exists cs. split; [|split; [exact Hr|]].
  - unfold c'. rewrite Hc. apply lookup_insert_eq.
  - destruct (proj1 (Hin examples.db)) as [H|(p & l & _ & Hl & _)].
    + vm_compute. left. reflexivity.
    + exact H.
    + cbn in Hl. rewrite lookup_empty in Hl. discriminate Hl.
Defined.
